(** * SQL-analisys: plan metrics extractor, index advisor, N+1 detector

    A shallow embedding of [info_about_query.py], [rec_query.py] and
    [rec_db.py].

    Python values are modelled as the interpreter has them:
    - [int] is an unbounded integer ([Z]);
    - [float] is an IEEE 754 binary64 number, here Stdlib's [spec_float]
      at precision 53 and maximal exponent 1024, with the correctly
      rounded operations of [SpecFloat];
    - [str] is a byte string holding the UTF-8 encoding of the text;
    - an exception is a value of [exn], and a computation that may raise
      returns a [result];
    - the [dict] nodes of an EXPLAIN (FORMAT JSON) plan are records whose
      optional keys are [option] fields, typed as PostgreSQL emits them
      (costs are JSON decimals, row counts and widths JSON integers). *)

From Stdlib Require Import ZArith SpecFloat Ascii String.
From stdpp Require Import gmap strings list pretty.

Set Warnings "-register-all".

Open Scope string_scope.
Open Scope Z_scope.

(** ** The fragment of the Python runtime the analysed code relies on *)

Module Py.

Inductive exn : Type :=
| AttributeError
| OverflowError
| ValueError
| ZeroDivisionError
| KeyError
| DatabaseError (msg : string).

Inductive result (A : Type) : Type :=
| Ok (a : A)
| Raise (e : exn).
Arguments Ok {A} a.
Arguments Raise {A} e.

Definition bind {A B} (r : result A) (k : A -> result B) : result B :=
  match r with
  | Ok a => k a
  | Raise e => Raise e
  end.

Definition is_ok {A} (r : result A) : Prop :=
  match r with Ok _ => True | Raise _ => False end.

(** [[f(x) for x in xs]]: the calls are made left to right and the
    first exception ends the comprehension. *)
Definition list_comp {A B} (f : A -> result B) : list A -> result (list B) :=
  fix go (xs : list A) : result (list B) :=
    match xs with
    | [] => Ok []
    | x :: xs' => bind (f x) (fun y => bind (go xs') (fun ys => Ok (y :: ys)))
    end.

(** *** binary64 *)

Definition prec : Z := 53.
Definition emax : Z := 1024.
Abbreviation float := spec_float.

Definition fmul : float -> float -> float := SFmul prec emax.
Definition fsub : float -> float -> float := SFsub prec emax.
Definition fdiv : float -> float -> float := SFdiv prec emax.

(** The double nearest to the integer [z] (ties to even); an infinity
    when [z] is beyond the largest double. *)
Definition nearest_float (z : Z) : float := binary_normalize prec emax z 0 false.

(** [float(z)] for an int [z], as in [int * float] and [int - float]:
    OverflowError, int too large to convert to float. *)
Definition float_of_int (z : Z) : result float :=
  match nearest_float z with
  | S754_infinity _ => Raise OverflowError
  | f => Ok f
  end.

(** The double nearest to [(-1)^s * n / d]: the quotient is taken with
    at least 56 significant bits, a sticky bit records a non-zero
    remainder, and the whole is rounded once. *)
Definition nearest_ratio (s : bool) (n d : positive) : float :=
  let k := Z.max 0 (Z.pos (digits2_pos d) - Z.pos (digits2_pos n) + 56) in
  let num := Z.pos n * 2 ^ k in
  let q := num / Z.pos d in
  let sticky := if (num mod Z.pos d =? 0) then 0 else 1 in
  binary_normalize prec emax (cond_Zopp s (2 * q + sticky)) (- k - 1) s.

(** [a / b] on two ints (true division): ZeroDivisionError for [b = 0],
    a signed zero for [a = 0], the float quotient when both operands
    are exact doubles, else the correctly rounded quotient or
    OverflowError, integer division result too large for a float. *)
Definition int_truediv (a b : Z) : result float :=
  if b =? 0 then Raise ZeroDivisionError
  else if a =? 0 then Ok (S754_zero (b <? 0))
  else if (Z.abs a <? 2 ^ 53) && (Z.abs b <? 2 ^ 53)
  then Ok (fdiv (nearest_float a) (nearest_float b))
  else match nearest_ratio (xorb (a <? 0) (b <? 0)) (Z.to_pos (Z.abs a)) (Z.to_pos (Z.abs b)) with
       | S754_infinity _ => Raise OverflowError
       | f => Ok f
       end.

(** [int(x)] for a float: truncation towards zero. *)
Definition int_of_float (x : float) : result Z :=
  match x with
  | S754_nan => Raise ValueError
  | S754_infinity _ => Raise OverflowError
  | S754_zero _ => Ok 0
  | S754_finite s m e =>
      Ok (cond_Zopp s (if 0 <=? e then Z.pos m * 2 ^ e else Z.pos m / 2 ^ (- e)))
  end.

(** Exact comparison of a float with an int, as [float_richcompare]
    makes it: [None] when the float is a NaN. *)
Definition compare_float_int (x : float) (n : Z) : option comparison :=
  match x with
  | S754_nan => None
  | S754_infinity s => Some (if s then Lt else Gt)
  | S754_zero _ => Some (0 ?= n)
  | S754_finite s m e =>
      if 0 <=? e then Some (cond_Zopp s (Z.pos m * 2 ^ e) ?= n)
      else Some (cond_Zopp s (Z.pos m) ?= n * 2 ^ (- e))
  end.

(** *** Numbers: an int or a float *)

Inductive num : Type :=
| Int (z : Z)
| Float (x : float).

Definition compare (a b : num) : option comparison :=
  match a, b with
  | Int x, Int y => Some (x ?= y)
  | Float x, Int y => compare_float_int x y
  | Int x, Float y => option_map CompOpp (compare_float_int y x)
  | Float x, Float y => SFcompare x y
  end.

(** [a < b]; [a > b] is evaluated as [b < a]. *)
Definition lt (a b : num) : bool :=
  match compare a b with Some Lt => true | _ => false end.
Definition gt (a b : num) : bool := lt b a.
Definition le (a b : num) : bool :=
  match compare a b with Some (Lt | Eq) => true | _ => false end.

Definition to_float (a : num) : result float :=
  match a with
  | Int z => float_of_int z
  | Float x => Ok x
  end.

Definition mul (a b : num) : result num :=
  match a, b with
  | Int x, Int y => Ok (Int (x * y))
  | _, _ => bind (to_float a) (fun x => bind (to_float b) (fun y => Ok (Float (fmul x y))))
  end.

Definition sub (a b : num) : result num :=
  match a, b with
  | Int x, Int y => Ok (Int (x - y))
  | _, _ => bind (to_float a) (fun x => bind (to_float b) (fun y => Ok (Float (fsub x y))))
  end.

(** [max(a, b)] keeps [a] unless [b > a]. *)
Definition max2 (a b : num) : num := if gt b a then b else a.

(** *** Decimal rounding and formatting of floats *)

(** The integer nearest to [m * 2^e * 10^d] (ties to even). *)
Definition scaled_half_even (m : positive) (e : Z) (d : Z) : Z :=
  if 0 <=? e then Z.pos m * 2 ^ e * 10 ^ d
  else
    let num := Z.pos m * 10 ^ d in
    let den := 2 ^ (- e) in
    let q := num / den in
    match (2 * (num mod den) ?= den) with
    | Lt => q
    | Gt => q + 1
    | Eq => if Z.even q then q else q + 1
    end.

(** [round(x, 2)] for a float: the exact value is rounded to two
    decimals, and the double nearest to that decimal is returned. *)
Definition round2_float (x : float) : float :=
  match x with
  | S754_finite s m e =>
      match scaled_half_even m e 2 with
      | Z.pos n => nearest_ratio s n 100
      | _ => S754_zero s
      end
  | _ => x
  end.

(** [round(a, 2)]: an int is returned as it is. *)
Definition round2 (a : num) : num :=
  match a with
  | Int z => Int z
  | Float x => Float (round2_float x)
  end.

(** The digits of [n], left-padded with zeros to [width]. *)
Definition zero_pad (width : nat) (n : Z) : string :=
  let s := pretty n in
  String.concat "" (replicate (width - String.length s) "0") +:+ s.

(** [format(x, ".<d>f")] for a float. *)
Definition format_fixed (d : nat) (x : float) : string :=
  let body (s : bool) (n : Z) :=
    (if s then "-" else "") +:+ pretty (n / 10 ^ Z.of_nat d)
    +:+ (match d with
         | O => ""
         | _ => "." +:+ zero_pad d (n mod 10 ^ Z.of_nat d)
         end) in
  match x with
  | S754_nan => "nan"
  | S754_infinity s => if s then "-inf" else "inf"
  | S754_zero s => body s 0
  | S754_finite s m e => body s (scaled_half_even m e (Z.of_nat d))
  end.

(** [f"{a:.<d>f}"]: an int is converted to a float first. *)
Definition format_f (d : nat) (a : num) : result string :=
  bind (to_float a) (fun x => Ok (format_fixed d x)).

(** *** Strings *)

(** [s.endswith(suffix)] *)
Fixpoint endswith (s suffix : string) : bool :=
  if String.eqb s suffix then true
  else match s with
       | EmptyString => false
       | String _ s' => endswith s' suffix
       end.

(** [sub in s] *)
Fixpoint contains (s sub : string) : bool :=
  if String.prefix sub s then true
  else match s with
       | EmptyString => false
       | String _ s' => contains s' sub
       end.

(** Whitespace, for [str.strip] and the pattern [\s] (on ASCII). *)
Definition is_space (c : ascii) : bool :=
  let n := Z.of_nat (nat_of_ascii c) in
  (9 <=? n) && (n <=? 13) || (28 <=? n) && (n <=? 32).

Fixpoint lstrip (s : string) : string :=
  match s with
  | String c s' => if is_space c then lstrip s' else s
  | EmptyString => EmptyString
  end.

Fixpoint rstrip (s : string) : string :=
  match s with
  | String c s' =>
      match rstrip s' with
      | EmptyString => if is_space c then EmptyString else String c EmptyString
      | r => String c r
      end
  | EmptyString => EmptyString
  end.

(** [s.strip()] *)
Definition strip (s : string) : string := rstrip (lstrip s).

(** [l.append(x)] *)
Definition append {A} (l : list A) (x : A) : list A := (l ++ [x])%list.

(** Truthiness of an optional string: [None] and [""] are false. *)
Definition truthy (o : option string) : bool :=
  match o with
  | Some (String _ _) => true
  | _ => false
  end.

(** [s.startswith(prefix)] *)
Definition startswith (s prefix : string) : bool := String.prefix prefix s.

(** [c.upper()] for a character of ASCII text: a lowercase letter
    becomes its capital, any other byte is kept. *)
Definition upper_char (c : ascii) : ascii :=
  let n := Z.of_nat (nat_of_ascii c) in
  if (97 <=? n) && (n <=? 122) then ascii_of_nat (Z.to_nat (n - 32)) else c.

(** [s.upper()] *)
Fixpoint upper (s : string) : string :=
  match s with
  | String c s' => String (upper_char c) (upper s')
  | EmptyString => EmptyString
  end.

(** [s.split()]: the maximal runs of characters that are no whitespace,
    in order; [word] holds the run being read. *)
Fixpoint split_from (word : string) (s : string) : list string :=
  match s with
  | String c s' =>
      if is_space c
      then match word with
           | EmptyString => split_from EmptyString s'
           | _ => word :: split_from EmptyString s'
           end
      else split_from (word +:+ String c EmptyString) s'
  | EmptyString =>
      match word with
      | EmptyString => []
      | _ => [word]
      end
  end.

Definition split (s : string) : list string := split_from EmptyString s.

(** [sep.join(words)] *)
Definition join (sep : string) (words : list string) : string := String.concat sep words.

(** [" " * n] and the like *)
Definition repeated (s : string) (n : nat) : string := String.concat EmptyString (replicate n s).

(** [c.lower()] for a character of ASCII text. *)
Definition lower_char (c : ascii) : ascii :=
  let n := Z.of_nat (nat_of_ascii c) in
  if (65 <=? n) && (n <=? 90) then ascii_of_nat (Z.to_nat (n + 32)) else c.

(** [s.lower()] *)
Fixpoint lower (s : string) : string :=
  match s with
  | String c s' => String (lower_char c) (lower s')
  | EmptyString => EmptyString
  end.

(** The decimal digits of [int(s)], read left to right: an underscore
    may stand between two digits. [value] is [None] before the first
    digit, [after_digit] tells whether the last character was one. *)
Fixpoint digits_value (value : option Z) (after_digit : bool) (s : string) : option Z :=
  match s with
  | String c s' =>
      let n := Z.of_nat (nat_of_ascii c) in
      if (48 <=? n) && (n <=? 57)
      then digits_value (Some (10 * default 0 value + (n - 48))) true s'
      else if (n =? 95) && after_digit then digits_value value false s'
      else None
  | EmptyString => if after_digit then value else None
  end.

(** [int(s)] for a string of ASCII text: whitespace around, a sign, and
    decimal digits; ValueError, invalid literal for int(), otherwise. *)
Definition int_of_str (s : string) : result Z :=
  let digits (negative : bool) (t : string) :=
    match digits_value None false t with
    | Some z => Ok (if negative then - z else z)
    | None => Raise ValueError
    end in
  match strip s with
  | String "-" t => digits true t
  | String "+" t => digits false t
  | t => digits false t
  end.

(** A float is zero. *)
Definition is_zero (x : float) : bool :=
  match x with S754_zero _ => true | _ => false end.

(** [a / b]: ZeroDivisionError when [b] is zero. *)
Definition truediv (a b : num) : result num :=
  match a, b with
  | Int x, Int y => bind (int_truediv x y) (fun q => Ok (Float q))
  | _, _ =>
      bind (to_float a) (fun x =>
      bind (to_float b) (fun y =>
      if is_zero y then Raise ZeroDivisionError else Ok (Float (fdiv x y))))
  end.

(** [round(x, d)] for a float and [d] decimals: the exact value is
    rounded to [d] decimals, and the double nearest to that decimal is
    returned. *)
Definition round_float (d : nat) (x : float) : float :=
  match x with
  | S754_finite s m e =>
      match scaled_half_even m e (Z.of_nat d) with
      | Z.pos n => nearest_ratio s n (Z.to_pos (10 ^ Z.of_nat d))
      | _ => S754_zero s
      end
  | _ => x
  end.

(** [round(a, d)]: an int is returned as it is. *)
Definition round_num (d : nat) (a : num) : num :=
  match a with
  | Int z => Int z
  | Float x => Float (round_float d x)
  end.

(** Truthiness of a number: zero is false. *)
Definition nonzero (a : num) : bool :=
  match a with
  | Int z => negb (z =? 0)
  | Float x => negb (is_zero x)
  end.

(** [s[:n]]: the first [n] characters of a text in UTF-8, a character
    being a byte that continues none, with the bytes that continue it. *)
Fixpoint slice_to (n : nat) (s : string) : string :=
  match s with
  | String c s' =>
      let code := Z.of_nat (nat_of_ascii c) in
      if (128 <=? code) && (code <? 192) then String c (slice_to n s')
      else match n with
           | O => EmptyString
           | S k => String c (slice_to k s')
           end
  | EmptyString => EmptyString
  end.

End Py.

Import Py.

Global Instance result_bind : MBind result := fun _ _ k r => Py.bind r k.
Global Instance result_ret : MRet result := fun _ a => Ok a.

(** ** info_about_query.py *)

Module info_about_query.

(** One node of the JSON plan. A key that is absent from the dict (or
    holds [null]) is [None]; an absent ["Plans"] key is the empty list,
    which is what [plan.get("Plans", [])] makes of it. *)
Unset Elimination Schemes.
Inductive PlanNode : Type :=
  mkPlanNode {
    Node_Type : option string;
    Total_Cost : option float;
    Plan_Rows : option Z;
    Plan_Width : option Z;
    Startup_Cost : option float;
    Relation_Name : option string;
    Filter : option string;
    Join_Filter : option string;
    Sort_Key : option (list string);
    Plans : list PlanNode
  }.

(** The dict [extract_metrics] returns. *)
Inductive AnnotatedNode : Type :=
  mkAnnotatedNode {
    node_type : option string;
    cost : num;
    cpu_ms : num;
    io_ms : num;
    total_ms : num;
    rows : Z;
    width : Z;
    startup_cost : num;
    memory_estimate_mb : num;
    recommendations : list string;
    children : list AnnotatedNode
  }.
Set Elimination Schemes.

(** [d.get(key, 0)] on a cost key: the float when present, else int 0. *)
Definition get_cost (o : option float) : num :=
  match o with
  | Some x => Float x
  | None => Int 0
  end.

(** [d.get(key, 0)] on an integer key. *)
Definition get_int (o : option Z) : Z := default 0 o.

(** The literal [0.01]. *)
Definition default_cpu_tuple_cost : float := S754_finite false 5764607523034235 (-59).
(** The literal [1.0]. *)
Definition default_seq_page_cost : float := S754_finite false 4503599627370496 (-52).

(** An attribute access [node_type.<method>] on the value of
    [plan.get("Node Type")]: AttributeError when it is [None]. *)
Definition attr_of (o : option string) : result string :=
  match o with
  | Some s => Ok s
  | None => Raise AttributeError
  end.

(** [x in (a, b)] on strings. *)
Definition in_pair (x a b : string) : bool := String.eqb x a || String.eqb x b.

(** Lines 22-25: the derived figures of one node. *)
Definition cpu_cost_of (rows : Z) (cpu_tuple_cost : float) : result num :=
  Py.mul (Int rows) (Float cpu_tuple_cost).
Definition io_cost_of (cost cpu_cost : num) : result num :=
  d ← Py.sub cost cpu_cost; Ok (max2 d (Int 0)).
Definition memory_bytes_of (rows width : Z) : Z := rows * width.

(** Lines 27-40: the advice attached to one node, in evaluation order. *)
Definition full_scan_message (rows : Z) : string :=
  "📊 Полный скан " +:+ pretty rows +:+ " строк — добавьте индекс или WHERE".
Definition parallel_message : string :=
  "⚡ Используется параллельный план — можно увеличить max_parallel_workers_per_gather для ускорения".
Definition work_mem_message (node_type mb : string) (twice : Z) : string :=
  "💾 Узел " +:+ node_type +:+ " обрабатывает ~" +:+ mb
  +:+ "MB — увеличьте work_mem примерно до " +:+ pretty twice +:+ "MB".
Definition nested_loop_message : string :=
  "🔄 Большой Nested Loop — используйте Hash Join или добавьте индекс".
Definition partition_message (cost : string) : string :=
  "🧩 Высокая стоимость (" +:+ cost +:+ ") — рассмотрите секционирование таблицы".

Definition MiB : Z := 1024 * 1024.

Definition node_recommendations (node_type : option string) (cost : num)
    (rows memory_bytes : Z) : result (list string) :=
  let recommendations := [] in
  nt ← attr_of node_type;
  let recommendations :=
    if endswith nt "Seq Scan" && (100000 <? rows)
    then append recommendations (full_scan_message rows) else recommendations in
  let recommendations :=
    if contains nt "Parallel"
    then append recommendations (parallel_message) else recommendations in
  recommendations ←
    (if in_pair nt "Hash" "Sort" && (10 * 1024 * 1024 <? memory_bytes)
     then mb ← int_truediv memory_bytes MiB;
          twice ← int_of_float (fmul mb (nearest_float 2));
          Ok (append recommendations (work_mem_message nt (format_fixed 1 mb) twice))
     else Ok recommendations);
  let recommendations :=
    if String.eqb nt "Nested Loop" && (50000 <? rows)
    then append recommendations (nested_loop_message) else recommendations in
  recommendations ←
    (if Py.gt cost (Int 100000) && in_pair nt "Seq Scan" "Bitmap Heap Scan"
     then c ← format_f 0 cost;
          Ok (append recommendations (partition_message c))
     else Ok recommendations);
  Ok recommendations.

(** [extract_metrics(plan, seq_page_cost=1.0, cpu_tuple_cost=0.01)].
    The recursive calls on the children pass no keyword and so run with
    the defaults. *)
Fixpoint extract_metrics (plan : PlanNode) (seq_page_cost cpu_tuple_cost : float)
    {struct plan} : result AnnotatedNode :=
  let node_type := Node_Type plan in
  let cost := get_cost (Total_Cost plan) in
  let rows := get_int (Plan_Rows plan) in
  let width := get_int (Plan_Width plan) in
  let startup_cost := get_cost (Startup_Cost plan) in
  cpu_cost ← cpu_cost_of rows cpu_tuple_cost;
  io_cost ← io_cost_of cost cpu_cost;
  let memory_bytes := memory_bytes_of rows width in
  let runtime_ms := cost in
  recommendations ← node_recommendations node_type cost rows memory_bytes;
  children ← list_comp
    (fun p => extract_metrics p default_seq_page_cost default_cpu_tuple_cost)
    (Plans plan);
  mb ← int_truediv memory_bytes MiB;
  Ok {| node_type := node_type;
        cost := cost;
        cpu_ms := round2 cpu_cost;
        io_ms := round2 io_cost;
        total_ms := round2 runtime_ms;
        rows := rows;
        width := width;
        startup_cost := startup_cost;
        memory_estimate_mb := Float (round2_float mb);
        recommendations := recommendations;
        children := children |}.

(** Structural induction on a plan, with the hypothesis on every child. *)
Definition PlanNode_ind (P : PlanNode -> Prop)
    (step : forall nt tc pr pw sc rn fc jf sk plans,
        Forall P plans -> P (mkPlanNode nt tc pr pw sc rn fc jf sk plans)) :
    forall p, P p :=
  fix go (p : PlanNode) : P p :=
    match p with
    | mkPlanNode nt tc pr pw sc rn fc jf sk plans =>
        step nt tc pr pw sc rn fc jf sk plans
          ((fix all (ps : list PlanNode) : Forall P ps :=
              match ps with
              | [] => @List.Forall_nil _ P
              | q :: qs => @List.Forall_cons _ P q qs (go q) (all qs)
              end) plans)
    end.

(** A row of [pg_stat_statements] as the N+1 search selects it:
    [(query, calls, mean time, rows)]. *)
Definition StatRow : Type := string * Z * float * Z.

(** An entry of the list of N+1 suspects. *)
Record Suspect : Type :=
  mkSuspect {
    query : string;
    calls : Z;
    mean_exec_time_ms : num;
    rows_per_call : Z;
    recommendation : string
  }.

Definition n_plus_one_message (calls : Z) (mean_time : float) (rows_count : Z) : string :=
  "🐢 Подозрение на N+1: " +:+ pretty calls +:+ " вызовов по " +:+ format_fixed 1 mean_time
  +:+ " мс, " +:+ pretty rows_count
  +:+ " строк на вызов. Объедините запросы (JOIN, IN, батч-загрузка).".

(** Lines 217-228 of [full_pg_analysis]: the loop over the rows of the
    statement ordered by calls, filling [report["n_plus_one_suspects"]]. *)
Definition n_plus_one_suspects (calls_threshold : Z) (max_mean_time_ms : num) (max_rows : Z)
    (rows : list StatRow) : list Suspect :=
  foldl (fun suspects '(query, calls, mean_time, rows_count) =>
           if (calls_threshold <? calls) && Py.lt (Float mean_time) max_mean_time_ms
              && (rows_count <=? max_rows)
           then append suspects
                  {| query := strip query;
                     calls := calls;
                     mean_exec_time_ms := round2 (Float mean_time);
                     rows_per_call := rows_count;
                     recommendation := n_plus_one_message calls mean_time rows_count |}
           else suspects)
        [] rows.

(** The defaults of [full_pg_analysis] and [detect_n_plus_one]. *)
Definition default_calls_threshold : Z := 1000.
Definition default_max_mean_time_ms : num := Int 10.
Definition default_max_rows : Z := 10.

Section Analysis.

(** The database behind the connection and its answer to EXPLAIN. *)
Variable DB : Type.
Variable explain : string -> DB -> DB * result PlanNode.

(** [analyze_query(conn, query)] *)
Definition analyze_query (query : string) (d : DB) : DB * result AnnotatedNode :=
  let '(d', answer) := explain query d in
  (d', plan ← answer; extract_metrics plan default_seq_page_cost default_cpu_tuple_cost).

End Analysis.

(** *** [pretty_plan] *)

Section Printing.

(** [str(x)] of a float [x], the shortest decimal that reads back as
    [x]: the one part of the output that is not spelled out here. *)
Variable repr_float : float -> string.

(** [f"{a}"] for a number. *)
Definition str_num (a : num) : string :=
  match a with
  | Int z => pretty z
  | Float x => repr_float x
  end.

(** [f"{s}"] for the value under ["node_type"]. *)
Definition str_node_type (o : option string) : string := default "None" o.

(** The three kinds of line [pretty_plan] prints for a node. *)
Definition header_line (indent : string) (node_type : option string) : string :=
  indent +:+ "▶ " +:+ str_node_type node_type.

Definition advice_line (indent rec : string) : string :=
  indent +:+ "   ⚠️ " +:+ rec.

Definition figures_line (indent : string) (rows width : Z) (startup_cost cost : num)
    : result string :=
  sc ← format_f 2 startup_cost;
  c ← format_f 2 cost;
  Ok (indent +:+ "   rows=" +:+ pretty rows +:+ ", width=" +:+ pretty width
      +:+ ", cost=" +:+ sc +:+ ".." +:+ c).

Definition estimates_line (indent : string) (memory_estimate_mb io_ms cpu_ms runtime_ms : num)
    : result string :=
  mb ← format_f 2 memory_estimate_mb;
  total ← format_f 1 runtime_ms;
  Ok (indent +:+ "  ~" +:+ mb +:+ " MB данных, I/O ≈ " +:+ str_num io_ms
      +:+ " ms, CPU ≈ " +:+ str_num cpu_ms +:+ " ms, всего  ≈ " +:+ total +:+ " ms,").

(** A computation that prints: the lines on the console before it, and
    the lines after it with its result. *)
Definition Printing (A : Type) : Type := list string -> list string * result A.

(** [print(line)] *)
Definition print (line : string) : Printing unit :=
  fun out => (append out line, Ok tt).

(** [print(f"...")], the f-string being evaluated first. *)
Definition print_formatted (line : result string) : Printing unit :=
  fun out =>
    match line with
    | Ok l => print l out
    | Raise e => (out, Raise e)
    end.

Definition then_print {A} (first : Printing unit) (next : Printing A) : Printing A :=
  fun out =>
    match first out with
    | (out', Ok _) => next out'
    | (out', Raise e) => (out', Raise e)
    end.

(** [for x in xs: body(x)] *)
Definition print_each {A} (body : A -> Printing unit) : list A -> Printing unit :=
  fix go (xs : list A) : Printing unit :=
    match xs with
    | [] => fun out => (out, Ok tt)
    | x :: xs' => then_print (body x) (go xs')
    end.

(** [pretty_plan(node, level)] on a dict that [extract_metrics] made. *)
Fixpoint pretty_plan (node : AnnotatedNode) (level : nat) {struct node} : Printing unit :=
  let indent := repeated "  " level in
  then_print (print (header_line indent (node_type node)))
    (then_print (print_each (fun rec => print (advice_line indent rec)) (recommendations node))
       (then_print (print_formatted
                      (figures_line indent (rows node) (width node) (startup_cost node) (cost node)))
          (then_print (print_formatted
                         (estimates_line indent (memory_estimate_mb node) (io_ms node)
                            (cpu_ms node) (total_ms node)))
             (print_each (fun subplan => pretty_plan subplan (S level)) (children node))))).

End Printing.

(** *** [detect_lock_level] *)

(** [LOCK_LEVELS]: the risk mark and the description of every level. *)
Definition LOCK_LEVELS : list (string * (string * string)) :=
  [("ACCESS SHARE", ("🟢",
     "Только чтение. Не мешает другим SELECT/INSERT/UPDATE/DELETE. Наименее опасная блокировка."));
   ("ROW SHARE", ("🟢",
     "Блокирует только операции изменения структуры (DDL), но не мешает другим SELECT/UPDATE."));
   ("ROW EXCLUSIVE", ("🟡",
     "Ставится при INSERT/UPDATE/DELETE. Конкурирует с другими изменяющими запросами."));
   ("SHARE UPDATE EXCLUSIVE", ("🟡",
     "Используется при CREATE INDEX CONCURRENTLY, ANALYZE, VACUUM. Не мешает SELECT, но блокирует тяжелые DDL."));
   ("SHARE", ("🟡",
     "Блокирует изменение структуры таблицы, может конкурировать с другими SHARE/EXCLUSIVE блокировками."));
   ("SHARE ROW EXCLUSIVE", ("🟠",
     "Более сильная блокировка, чем ROW EXCLUSIVE. Мешает VACUUM FULL и другим DDL."));
   ("EXCLUSIVE", ("🔴",
     "Блокирует почти все операции, кроме SELECT. Может сильно замедлить работу при долгих запросах."));
   ("ACCESS EXCLUSIVE", ("🔴",
     "Самая сильная блокировка: блокирует любые операции с таблицей, включая SELECT. Используется при TRUNCATE, ALTER TABLE, DROP."));
   ("UNKNOWN", ("❓",
     "Не удалось определить уровень блокировки. Проверьте запрос вручную."))].

(** The dict [detect_lock_level] returns. *)
Record LockInfo : Type :=
  mkLockInfo {
    level : string;
    risk : string;
    description : string
  }.

(** [{"level": name, **LOCK_LEVELS[name]}]: KeyError when the table has
    no such level. *)
Definition lock_info (name : string) : result LockInfo :=
  match List.find (fun entry => String.eqb entry.1 name) LOCK_LEVELS with
  | Some (_, (risk, description)) =>
      Ok {| level := name; risk := risk; description := description |}
  | None => Raise KeyError
  end.

(** [" ".join(query.strip().upper().split())] *)
Definition normalized (query : string) : string :=
  join " " (split (upper (strip query))).

(** [detect_lock_level(query)] *)
Definition detect_lock_level (query : string) : result LockInfo :=
  let q := normalized query in
  if startswith q "SELECT" && contains q "FOR UPDATE" then lock_info "ROW EXCLUSIVE"
  else if startswith q "SELECT" then lock_info "ACCESS SHARE"
  else if startswith q "INSERT" then lock_info "ROW EXCLUSIVE"
  else if startswith q "UPDATE" then lock_info "ROW EXCLUSIVE"
  else if startswith q "DELETE" then lock_info "ROW EXCLUSIVE"
  else if startswith q "CREATE INDEX CONCURRENTLY" then lock_info "SHARE UPDATE EXCLUSIVE"
  else if startswith q "CREATE INDEX" then lock_info "ACCESS EXCLUSIVE"
  else if startswith q "ALTER" then lock_info "ACCESS EXCLUSIVE"
  else if startswith q "DROP" then lock_info "ACCESS EXCLUSIVE"
  else if startswith q "TRUNCATE" then lock_info "ACCESS EXCLUSIVE"
  else lock_info "UNKNOWN".

(** *** [full_pg_analysis] *)

(** A row of the statement ordered by total time: [(query, calls,
    total time, mean time, rows, shared_blks_read, shared_blks_hit)]. *)
Definition TopRow : Type := string * Z * float * float * Z * Z * Z.

(** The value under ["plan"]: the annotated plan, or [{"error": text}]. *)
Inductive PlanOrError : Type :=
| PlanTree (tree : AnnotatedNode)
| PlanError (error : string).

(** An entry of [report["detailed_queries"]]. *)
Module DetailedQuery.
Record t : Type :=
  mk {
    query : string;
    calls : Z;
    total_exec_time_ms : num;
    mean_exec_time_ms : num;
    rows : Z;
    blks_read : Z;
    blks_hit : Z;
    recommendations : list string;
    plan : PlanOrError
  }.
End DetailedQuery.

(** The dict [full_pg_analysis] returns. *)
Module Report.
Record t : Type :=
  mk {
    detailed_queries : list DetailedQuery.t;
    n_plus_one_suspects : list Suspect
  }.
End Report.

Definition heavy_query_message (calls : Z) (mean_time : float) : string :=
  "🔥 Частый и тяжелый запрос: " +:+ pretty calls +:+ " вызовов, среднее время "
  +:+ format_fixed 1 mean_time +:+ " мс".

Definition hit_rate_message (blks_hit blks_read : Z) : string :=
  "📉 Низкий hit-rate (" +:+ pretty blks_hit +:+ "/" +:+ pretty blks_read
  +:+ "): запрос часто ходит на диск".

(** Lines 187-191: the advice on one row of the top statements. *)
Definition query_recommendations (calls_threshold calls : Z) (mean_time : float)
    (blks_read blks_hit : Z) : list string :=
  let recommendations := [] in
  let recommendations :=
    if (calls_threshold <? calls) && Py.gt (Float mean_time) (Int 50)
    then append recommendations (heavy_query_message calls mean_time) else recommendations in
  let recommendations :=
    if blks_hit <? blks_read
    then append recommendations (hit_rate_message blks_hit blks_read) else recommendations in
  recommendations.

Section Statistics.

(** The database behind the connection, with its answers to EXPLAIN and
    to the three statements on [pg_stat_statements]: the names of its
    columns, the top rows by total time (the statement names the total
    and the mean column, and the limit), the top rows by calls (the
    mean column and the limit). *)
Variable DB : Type.
Variable explain : string -> DB -> DB * result PlanNode.
Variable pg_stat_columns : DB -> DB * result (list string).
Variable top_by_total_time : string -> string -> Z -> DB -> DB * result (list TopRow).
Variable top_by_calls : string -> Z -> DB -> DB * result (list StatRow).

(** [str(e)] of an exception. *)
Variable str_exn : exn -> string.

(** Lines 182-185: [try: plan = analyze_query(conn, query)] with
    [except Exception as e: plan = {"error": str(e)}]. *)
Definition plan_or_error (query : string) (d : DB) : DB * PlanOrError :=
  let '(d', answer) := analyze_query DB explain query d in
  (d', match answer with
       | Ok tree => PlanTree tree
       | Raise e => PlanError (str_exn e)
       end).

(** Lines 181-203: the body of the loop over the top statements. *)
Definition detailed_query (calls_threshold : Z) (row : TopRow) (d : DB)
    : DB * DetailedQuery.t :=
  let '(query, calls, total_time, mean_time, rows_count, blks_read, blks_hit) := row in
  let '(d', plan) := plan_or_error query d in
  (d', {| DetailedQuery.query := strip query;
          DetailedQuery.calls := calls;
          DetailedQuery.total_exec_time_ms := round2 (Float total_time);
          DetailedQuery.mean_exec_time_ms := round2 (Float mean_time);
          DetailedQuery.rows := rows_count;
          DetailedQuery.blks_read := blks_read;
          DetailedQuery.blks_hit := blks_hit;
          DetailedQuery.recommendations :=
            query_recommendations calls_threshold calls mean_time blks_read blks_hit;
          DetailedQuery.plan := plan |}).

(** [full_pg_analysis(conn, top_n=5, calls_threshold=1000,
    max_mean_time_ms=10, max_rows=10)] *)
Definition full_pg_analysis (top_n calls_threshold : Z) (max_mean_time_ms : num)
    (max_rows : Z) (d : DB) : DB * result Report.t :=
  let '(d, answer) := pg_stat_columns d in
  match answer with
  | Raise e => (d, Raise e)
  | Ok columns =>
      let total_col :=
        if bool_decide ("total_exec_time" ∈ columns) then "total_exec_time" else "total_time" in
      let mean_col :=
        if bool_decide ("mean_exec_time" ∈ columns) then "mean_exec_time" else "mean_time" in
      let '(d, answer) := top_by_total_time total_col mean_col top_n d in
      match answer with
      | Raise e => (d, Raise e)
      | Ok rows =>
          let '(d, detailed_queries) :=
            foldl (fun '(d, detailed_queries) row =>
                     let '(d', entry) := detailed_query calls_threshold row d in
                     (d', append detailed_queries entry))
                  (d, []) rows in
          let '(d, answer) := top_by_calls mean_col (top_n * 2) d in
          (d, rows ← answer;
              Ok {| Report.detailed_queries := detailed_queries;
                    Report.n_plus_one_suspects :=
                      n_plus_one_suspects calls_threshold max_mean_time_ms max_rows rows |})
      end
  end.

End Statistics.

(** *** [print_full_pg_report] *)

Section ReportPrinting.

Variable repr_float : float -> string.

Definition line_break : string := String (ascii_of_nat 10) EmptyString.

(** Lines 236-245: what is printed for one detailed entry. *)
Definition print_detailed_query (q : DetailedQuery.t) : Printing unit :=
  then_print (print (line_break +:+ "▶ " +:+ slice_to 120 (DetailedQuery.query q) +:+ "..."))
    (then_print (print ("   calls=" +:+ pretty (DetailedQuery.calls q)
                        +:+ ", total_time="
                        +:+ str_num repr_float (DetailedQuery.total_exec_time_ms q)
                        +:+ " ms, mean="
                        +:+ str_num repr_float (DetailedQuery.mean_exec_time_ms q) +:+ " ms"))
       (then_print (print ("   rows=" +:+ pretty (DetailedQuery.rows q)
                           +:+ ", blks_read=" +:+ pretty (DetailedQuery.blks_read q)
                           +:+ ", blks_hit=" +:+ pretty (DetailedQuery.blks_hit q)))
          (then_print (print_each (fun r => print ("   ⚠️ " +:+ r))
                         (DetailedQuery.recommendations q))
             (match DetailedQuery.plan q with
              | PlanError error => print ("   ❌ Не удалось построить план: " +:+ error)
              | PlanTree tree => pretty_plan repr_float tree 1
              end)))).

(** Lines 249-252: what is printed for one suspect. *)
Definition print_suspect (s : Suspect) : Printing unit :=
  then_print (print (line_break +:+ "▶ " +:+ slice_to 100 (query s) +:+ "..."))
    (then_print (print ("   calls=" +:+ pretty (calls s) +:+ ", mean_time="
                        +:+ str_num repr_float (mean_exec_time_ms s)
                        +:+ " ms, rows/call=" +:+ pretty (rows_per_call s)))
       (print ("   ⚠️ " +:+ recommendation s))).

(** [print_full_pg_report(report)] *)
Definition print_full_pg_report (report : Report.t) : Printing unit :=
  then_print (print (line_break +:+ "=== 🔍 ДЕТАЛЬНЫЙ АНАЛИЗ ТОП-ЗАПРОСОВ ==="))
    (then_print (print_each print_detailed_query (Report.detailed_queries report))
       (then_print (print (line_break +:+ "=== 🐢 ПОДОЗРЕНИЕ НА N+1 ==="))
          (then_print (match Report.n_plus_one_suspects report with
                       | [] => print "✅ N+1 запросов не найдено"
                       | _ => fun out => (out, Ok tt)
                       end)
             (print_each print_suspect (Report.n_plus_one_suspects report))))).

End ReportPrinting.

End info_about_query.

(** ** rec_query.py *)

(** *** The pattern of [extract_columns_from_filter]

    At a word boundary, an identifier (one of [a-zA-Z_], then any number
    of [a-zA-Z0-9_]) as group 1, any number of whitespace characters,
    and one of [=], [>], [<], [>=], [<=], [LIKE], [ILIKE], matched
    as [re.findall] does: leftmost first, greedy with backtracking,
    alternatives in the order written, matches not overlapping. The
    classes are those of ASCII text; every byte of a non-ASCII character
    counts as a word character. *)
Module Re.

Definition code (c : ascii) : Z := Z.of_nat (nat_of_ascii c).

Definition is_alpha (c : ascii) : bool :=
  let n := code c in
  (65 <=? n) && (n <=? 90) || (97 <=? n) && (n <=? 122).
Definition is_digit (c : ascii) : bool :=
  let n := code c in (48 <=? n) && (n <=? 57).
Definition is_underscore (c : ascii) : bool := code c =? 95.

(** [[a-zA-Z_]] and [[a-zA-Z0-9_]] *)
Definition ident_start (c : ascii) : bool := is_alpha c || is_underscore c.
Definition ident_char (c : ascii) : bool := ident_start c || is_digit c.
(** [\w], as [\b] sees it *)
Definition is_word (c : ascii) : bool := ident_char c || (128 <=? code c).

(** [(=|>|<|>=|<=|LIKE|ILIKE)] *)
Definition operators : list string := ["="; ">"; "<"; ">="; "<="; "LIKE"; "ILIKE"].

(** The length of the first alternative that matches at the head of [s]. *)
Definition match_operator (s : string) : option nat :=
  String.length <$> List.find (fun op => String.prefix op s) operators.

(** [\s*] followed by the operator: the length consumed. *)
Fixpoint match_spaces_operator (s : string) : option nat :=
  match s with
  | String c s' =>
      if is_space c
      then match match_spaces_operator s' with
           | Some n => Some (S n)
           | None => match_operator s
           end
      else match_operator s
  | EmptyString => match_operator s
  end.

(** The rest of the identifier (its first character is consumed),
    then spaces and operator: the identifier's tail and the length
    consumed. The longest identifier is tried first. *)
Fixpoint match_identifier_tail (s : string) : option (string * nat) :=
  let stop := (fun n => (EmptyString, n)) <$> match_spaces_operator s in
  match s with
  | String c s' =>
      if ident_char c
      then match match_identifier_tail s' with
           | Some (tail, n) => Some (String c tail, S n)
           | None => stop
           end
      else stop
  | EmptyString => stop
  end.

(** A match starting at the head of [s], [prev] being the character
    before it: group 1 and the length of the match. *)
Definition match_at (prev : option ascii) (s : string) : option (string * nat) :=
  match s with
  | String c s' =>
      if ident_start c && negb (from_option is_word false prev)
      then '(tail, n) ← match_identifier_tail s'; Some (String c tail, S n)
      else None
  | EmptyString => None
  end.

(** The scan of [findall]: [skip] characters still belong to the last
    match. *)
Fixpoint scan (prev : option ascii) (skip : nat) (s : string) : list string :=
  match s with
  | EmptyString => []
  | String c s' =>
      match skip with
      | S k => scan (Some c) k s'
      | O =>
          match match_at prev s with
          | Some (group1, n) => group1 :: scan (Some c) (Nat.pred n) s'
          | None => scan (Some c) O s'
          end
      end
  end.

(** Group 1 of every match, in order. *)
Definition findall_group1 (s : string) : list string := scan None O s.

End Re.

Module rec_query.

Import info_about_query.

(** A row of [pg_indexes]: [(indexname, indexdef)]. *)
Definition IndexRow : Type := string * string.

(** A row of the unused-index query:
    [(schemaname, table_name, index_name, index_size, idx_scan)]. *)
Definition UnusedRow : Type := string * string * string * string * Z.

(** One advice dict. *)
Record Recommendation : Type :=
  mkRecommendation {
    type : string;
    priority : string;
    message : string
  }.

(** What the connection was asked, and what it answered. *)
Inductive Event : Type :=
| Explained (query : string) (answer : result PlanNode)
| FetchedIndexes (table : string) (answer : result (list IndexRow))
| FetchedUnused (min_size_mb : Z) (answer : result (list UnusedRow)).

Definition newline : string := String (ascii_of_nat 10) EmptyString.

Definition seq_scan_filter_message (relation filter_cond : string) (cols : list string) : string :=
  let idx_name := "idx_" +:+ relation +:+ "_" +:+ String.concat "_" cols in
  "Полный Seq Scan таблицы " +:+ relation +:+ " с фильтром " +:+ filter_cond +:+ " — "
  +:+ "создайте индекс:" +:+ newline +:+ "CREATE INDEX " +:+ idx_name +:+ " ON " +:+ relation
  +:+ "(" +:+ String.concat ", " cols +:+ ");".

Definition seq_scan_plain_message (relation : string) : string :=
  "Полный Seq Scan таблицы " +:+ relation
  +:+ " без фильтра — возможно, стоит подумать о партиционировании".

Definition nested_loop_join_message (join_cond : string) (cols : list string) : string :=
  "Nested Loop с Join Filter " +:+ join_cond +:+ " — рассмотрите индекс на "
  +:+ String.concat ", " cols.

Definition sort_message (relation : string) (sort_key : list string) : string :=
  let key := String.concat ", " sort_key in
  let idx_name := "idx_" +:+ relation +:+ "_" +:+ String.concat "_" sort_key in
  "Сортировка по " +:+ key +:+ " — создайте индекс с сортировкой:" +:+ newline
  +:+ "CREATE INDEX " +:+ idx_name +:+ " ON " +:+ relation +:+ "(" +:+ key +:+ ");".

(** The loop variables are bound in the order
    [schema, table, idx, scans, size], so [size] holds the fifth column. *)
Definition drop_index_message (row : UnusedRow) : string :=
  let '(schema, table, idx, scans, size) := row in
  "Индекс " +:+ idx +:+ " в " +:+ schema +:+ "." +:+ table
  +:+ " не использовался (idx_scan=0, размер=" +:+ pretty size +:+ ") — "
  +:+ "рассмотрите удаление для экономии места.".

(** [not any(all(col in idxdef for col in cols) for _, idxdef in existing)] *)
Definition no_index_covers (cols : list string) (existing : list IndexRow) : bool :=
  negb (existsb (fun row => forallb (fun col => contains row.2 col) cols) existing).

(** [not any(key in idxdef for _, idxdef in existing)] *)
Definition no_index_contains (key : string) (existing : list IndexRow) : bool :=
  negb (existsb (fun row => contains row.2 key) existing).

Definition nonempty {A} (l : list A) : bool :=
  match l with [] => false | _ => true end.

(** The string an optional field holds once it has tested true. *)
Definition held (o : option string) : string := default EmptyString o.

Section Advisor.

(** The order in which a [set] built from the given strings is
    iterated: it depends on the interpreter's string hashing, and is
    only known to enumerate each distinct string once. *)
Variable set_order : list string -> list string.

(** The database behind the connection, with the answers it gives to
    the statements the advisor executes; each call may change it. *)
Variable DB : Type.
Variable explain : string -> DB -> DB * result PlanNode.
Variable pg_indexes : string -> DB -> DB * result (list IndexRow).
Variable pg_unused_indexes : Z -> DB -> DB * result (list UnusedRow).
Variable pg_stat_statements : Z -> DB -> DB * result (list StatRow).

(** [extract_columns_from_filter(filter_cond)] *)
Definition extract_columns_from_filter (filter_cond : string) : list string :=
  match filter_cond with
  | EmptyString => []
  | _ => set_order (Re.findall_group1 filter_cond)
  end.

(** The connection with the trace of its calls, and the two variables
    [walk] closes over. *)
Record State : Type :=
  mkState {
    db : DB;
    trace : list Event;
    recommendations : list Recommendation;
    seen_tables : gmap string (list IndexRow)
  }.

Definition M (A : Type) : Type := State -> State * result A.

#[local] Instance M_ret : MRet M := fun _ a st => (st, Ok a).
#[local] Instance M_bind : MBind M := fun _ _ k m st =>
  match m st with
  | (st', Ok a) => k a st'
  | (st', Raise e) => (st', Raise e)
  end.

Definition skip : M unit := mret tt.

(** [get_existing_indexes(conn, table)] *)
Definition get_existing_indexes (table : string) : M (list IndexRow) :=
  fun st =>
    let '(d, answer) := pg_indexes table (db st) in
    (mkState d (trace st ++ [FetchedIndexes table answer])
             (recommendations st) (seen_tables st), answer).

(** [get_unused_indexes(conn, min_size_mb=1)] *)
Definition get_unused_indexes (min_size_mb : Z) : M (list UnusedRow) :=
  fun st =>
    let '(d, answer) := pg_unused_indexes min_size_mb (db st) in
    (mkState d (trace st ++ [FetchedUnused min_size_mb answer])
             (recommendations st) (seen_tables st), answer).

(** [relation not in seen_tables] *)
Definition not_seen (relation : string) : M bool :=
  fun st => (st, Ok (bool_decide (seen_tables st !! relation = None))).

(** [seen_tables[relation] = rows] *)
Definition remember (relation : string) (rows : list IndexRow) : M unit :=
  fun st => (mkState (db st) (trace st) (recommendations st)
                     (<[relation := rows]> (seen_tables st)), Ok tt).

(** [seen_tables[relation]] *)
Definition seen (relation : string) : M (list IndexRow) :=
  fun st => (st, match seen_tables st !! relation with
                 | Some rows => Ok rows
                 | None => Raise KeyError
                 end).

(** [recommendations.append(r)] *)
Definition recommend (r : Recommendation) : M unit :=
  fun st => (mkState (db st) (trace st) (append (recommendations st) r)
                     (seen_tables st), Ok tt).

(** The body of [walk] before it descends into the children. *)
Definition visit (node : PlanNode) : M unit :=
  let node_type := default EmptyString (Node_Type node) in
  let relation := Relation_Name node in
  let filter_cond := Filter node in
  let join_cond := Join_Filter node in
  let sort_key := Sort_Key node in
  fresh ← (if truthy relation then not_seen (held relation) else mret false);
  (if fresh : bool
   then rows ← get_existing_indexes (held relation); remember (held relation) rows
   else skip);;
  (if String.eqb node_type "Seq Scan" && truthy relation
   then
     if truthy filter_cond
     then
       let cols := extract_columns_from_filter (held filter_cond) in
       if nonempty cols
       then
         existing ← seen (held relation);
         if no_index_covers cols existing
         then recommend
                {| type := "add_index"; priority := "high";
                   message := seq_scan_filter_message (held relation) (held filter_cond) cols |}
         else skip
       else skip
     else recommend
            {| type := "add_index"; priority := "medium";
               message := seq_scan_plain_message (held relation) |}
   else skip);;
  (if String.eqb node_type "Nested Loop" && truthy join_cond
   then
     let cols := extract_columns_from_filter (held join_cond) in
     if nonempty cols
     then recommend
            {| type := "add_index"; priority := "medium";
               message := nested_loop_join_message (held join_cond) cols |}
     else skip
   else skip);;
  (if nonempty (default [] sort_key) && truthy relation
   then
     let key := String.concat ", " (default [] sort_key) in
     existing ← seen (held relation);
     if no_index_contains key existing
     then recommend
            {| type := "add_index"; priority := "low";
               message := sort_message (held relation) (default [] sort_key) |}
     else skip
   else skip).

(** [for x in xs: body(x)] *)
Definition for_each {A} (body : A -> M unit) : list A -> M unit :=
  fix go (xs : list A) : M unit :=
    match xs with
    | [] => skip
    | x :: xs' => body x;; go xs'
    end.

(** [walk(node)] *)
Fixpoint walk (node : PlanNode) {struct node} : M unit :=
  visit node;; for_each walk (Plans node).

(** [cur.execute(f"EXPLAIN (FORMAT JSON) {query}")] and the fetch of
    its plan. *)
Definition explain_plan (query : string) : M PlanNode :=
  fun st =>
    let '(d, answer) := explain query (db st) in
    (mkState d (trace st ++ [Explained query answer])
             (recommendations st) (seen_tables st), answer).

Definition drop_index_recommendation (row : UnusedRow) : Recommendation :=
  {| type := "drop_index"; priority := "low"; message := drop_index_message row |}.

(** The value of [recommendations] *)
Definition collected : M (list Recommendation) :=
  fun st => (st, Ok (recommendations st)).

(** The body of [recommend_indexes(conn, query)], as a computation on
    the state. *)
Definition recommend_indexes_body (query : string) : M (list Recommendation) :=
  plan ← explain_plan query;
  walk plan;;
  unused ← get_unused_indexes 1;
  for_each (fun row => recommend (drop_index_recommendation row)) unused;;
  collected.

(** [recommend_indexes(conn, query)]: [recommendations] and
    [seen_tables] start empty on every call. *)
Definition recommend_indexes (query : string) (d : DB) : State * result (list Recommendation) :=
  recommend_indexes_body query (mkState d [] [] ∅).

(** [detect_n_plus_one(conn, calls_threshold=1000, max_mean_time_ms=10,
    max_rows=10, top_n=20)] *)
Definition detect_n_plus_one_message (calls : Z) (mean_time : float) : string :=
  "🐢 Похоже на N+1 проблему: запрос вызывается очень часто "
  +:+ "(" +:+ pretty calls +:+ " раз) и быстрый (" +:+ format_fixed 1 mean_time
  +:+ " мс), но возвращает мало строк. "
  +:+ "Объедините запросы (JOIN, IN, батч-загрузка).".

Definition detect_n_plus_one (calls_threshold : Z) (max_mean_time_ms : num) (max_rows : Z)
    (top_n : Z) (d : DB) : DB * result (list Suspect) :=
  let '(d', answer) := pg_stat_statements top_n d in
  (d', rows ← answer;
       Ok (foldl (fun suspects '(query, calls, mean_time, rows_count) =>
                    if (calls_threshold <? calls) && Py.lt (Float mean_time) max_mean_time_ms
                       && (rows_count <=? max_rows)
                    then append suspects
                           {| query := strip query;
                              calls := calls;
                              mean_exec_time_ms := round2 (Float mean_time);
                              rows_per_call := rows_count;
                              recommendation := detect_n_plus_one_message calls mean_time |}
                    else suspects)
                 [] rows)).

End Advisor.

Arguments mkState {DB} db trace recommendations seen_tables.
Arguments db {DB} s.
Arguments trace {DB} s.
Arguments recommendations {DB} s.
Arguments seen_tables {DB} s.
Arguments for_each {DB A} body _ _.

End rec_query.

(** ** rec_db.py *)

Module rec_db.

(** A value that a dict of this module holds under a key other than
    ["recommendations"]: a string, a number, or a timestamp with time
    zone (microseconds since the epoch, [None] for NULL). *)
Inductive scalar : Type :=
| Text (s : string)
| Number (n : num)
| Moment (t : option Z).

(** A dict as this module builds them: scalars under its keys, in the
    order written, and under ["recommendations"], when the dict has
    that key, a list of strings. *)
Record Dict : Type :=
  mkDict {
    fields : list (string * scalar);
    recommendations : option (list string)
  }.

(** [d[key]] for a key other than ["recommendations"] *)
Definition getitem (d : Dict) (key : string) : result scalar :=
  match List.find (fun field => String.eqb field.1 key) (fields d) with
  | Some (_, v) => Ok v
  | None => Raise KeyError
  end.

(** [d["recommendations"]] *)
Definition getitem_recommendations (d : Dict) : result (list string) :=
  match recommendations d with
  | Some recs => Ok recs
  | None => Raise KeyError
  end.

(** The rows of the five statements. *)

(** [pg_settings]: [(name, setting, unit, context)]. *)
Definition SettingRow : Type := string * string * option string * string.

(** [pg_stat_all_tables], for autovacuum: [(relid, schemaname, relname,
    n_live_tup, n_dead_tup, n_mod_since_analyze, last_autovacuum,
    last_analyze)]. *)
Definition VacuumRow : Type := Z * string * string * Z * Z * Z * option Z * option Z.

(** [pg_statio_user_tables]: [(relname, total_size)]. *)
Definition SizeRow : Type := string * Z.

(** [pg_stat_all_tables], for bloat: [(schemaname, relname, n_live_tup,
    n_dead_tup, total_bytes)]. *)
Definition BloatRow : Type := string * string * Z * Z * Z.

(** [pg_stat_all_indexes]: [(schemaname, table_name, index_name,
    idx_scan, idx_tup_read, idx_tup_fetch, index_size)]. *)
Definition IndexUsageRow : Type := string * string * string * Z * Z * Z * Z.

(** The literals [0.25], [0.2], [0.1] and [0.05]. *)
Definition quarter : float := nearest_ratio false 1 4.
Definition default_dead_tup_threshold : num := Float (nearest_ratio false 1 5).
Definition default_analyze_threshold : num := Float (nearest_ratio false 1 10).
Definition default_max_autovacuum_age_hours : num := Int 24.
Definition default_partition_threshold_mb : num := Int 10000.
Definition default_bloat_threshold : num := Float (nearest_ratio false 1 5).
Definition default_unused_threshold : num := Float (nearest_ratio false 1 20).

(** Truthiness of [ram_gb]: [None] and zero are false. *)
Definition given (ram_gb : option num) : bool :=
  match ram_gb with
  | Some a => nonzero a
  | None => false
  end.

(** [(a / total) if total > 0 else 0] *)
Definition share (a total : Z) : result num :=
  if 0 <? total then truediv (Int a) (Int total) else Ok (Int 0).

(** [round(a * 100, 1)] *)
Definition percent (a : num) : result num :=
  p ← Py.mul a (Int 100); Ok (round_num 1 p).

Section Health.

(** The server and the clock behind the connection: the answers to the
    five statements, and the time [datetime.now(timezone.utc)] reads,
    in microseconds since the epoch. Every call may change the world. *)
Variable World : Type.
Variable pg_settings : World -> World * result (list SettingRow).
Variable vacuum_stats : World -> World * result (list VacuumRow).
Variable table_sizes : World -> World * result (list SizeRow).
Variable bloat_stats : World -> World * result (list BloatRow).
Variable index_stats : World -> World * result (list IndexUsageRow).
Variable now : World -> World * Z.

(** [str(x)] of a float and of a timestamp or [None]. *)
Variable repr_float : float -> string.
Variable str_moment : option Z -> string.

(** The world and what was printed on the console, one entry for every
    call of [print]. *)
Record State : Type :=
  mkState {
    world : World;
    console : list string
  }.

Definition Run (A : Type) : Type := State -> State * result A.

#[local] Instance Run_ret : MRet Run := fun _ a st => (st, Ok a).
#[local] Instance Run_bind : MBind Run := fun _ _ k m st =>
  match m st with
  | (st', Ok a) => k a st'
  | (st', Raise e) => (st', Raise e)
  end.

(** A computation of the runtime, which may raise. *)
Definition run {A} (r : result A) : Run A := fun st => (st, r).

(** [cur.execute(...)] and [cur.fetchall()] *)
Definition fetchall {A} (statement : World -> World * result A) : Run A :=
  fun st =>
    let '(w, answer) := statement (world st) in
    (mkState w (console st), answer).

(** [datetime.now(timezone.utc)] *)
Definition read_clock : Run Z :=
  fun st =>
    let '(w, t) := now (world st) in
    (mkState w (console st), Ok t).

(** [print(line)] *)
Definition print (line : string) : Run unit :=
  fun st => (mkState (world st) (append (console st) line), Ok tt).

(** [for x in xs: results.append(body(x))] *)
Definition for_rows {A B} (body : A -> Run B) : list A -> Run (list B) :=
  fix go (xs : list A) : Run (list B) :=
    match xs with
    | [] => mret []
    | x :: xs' => y ← body x; ys ← go xs'; mret (y :: ys)
    end.

(** [for x in xs: body(x)] *)
Definition for_each {A} (body : A -> Run unit) : list A -> Run unit :=
  fix go (xs : list A) : Run unit :=
    match xs with
    | [] => mret tt
    | x :: xs' => body x;; go xs'
    end.

(** [f"{x}"] *)
Definition str_num (a : num) : string :=
  match a with
  | Int z => pretty z
  | Float x => repr_float x
  end.

Definition str_scalar (v : scalar) : string :=
  match v with
  | Text s => s
  | Number n => str_num n
  | Moment t => str_moment t
  end.

(** *** [analyze_pg_settings] *)

Definition parameter_advice (priority message : string) : Dict :=
  {| fields := [("type", Text "parameter"); ("priority", Text priority);
                ("message", Text message)];
     recommendations := None |}.

Definition shared_buffers_message (pct : num) : string :=
  "shared_buffers = " +:+ str_num pct +:+ "% RAM — рекомендуется увеличить до 25–40% RAM".
Definition work_mem_low_message (mb : float) : string :=
  "work_mem = " +:+ format_fixed 1 mb
  +:+ "MB — увеличить (8–64MB) для ускорения сортировок/джоинов".
Definition maintenance_work_mem_message (mb : float) : string :=
  "maintenance_work_mem = " +:+ format_fixed 1 mb
  +:+ "MB — увеличить (128–512MB) для VACUUM/CREATE INDEX".
Definition autovacuum_off_message : string :=
  "autovacuum выключен — включите, иначе таблицы будут разрастаться".

(** [{name: (setting, unit, context) for ... in cur.fetchall()}] *)
Definition settings_by_name (rows : list SettingRow)
    : gmap string (string * option string * string) :=
  foldl (fun params '(name, setting, unit, context) => <[name := (setting, unit, context)]> params)
        ∅ rows.

(** Lines 24-69: the four checks, in order. *)
Definition settings_recommendations (params : gmap string (string * option string * string))
    (ram_gb : option num) : result (list Dict) :=
  let recommendations := [] in
  recommendations ←
    match params !! "shared_buffers" with
    | Some (setting, unit, _) =>
        sb ← int_of_str setting;
        let sb_bytes := if bool_decide (unit = Some "8kB") then sb * 8 * 1024 else sb in
        if given ram_gb
        then
          ram_bytes ← Py.mul (default (Int 0) ram_gb) (Int (1024 ^ 3));
          ratio ← truediv (Int sb_bytes) ram_bytes;
          if Py.lt ratio (Float quarter)
          then pct ← percent ratio;
               Ok (append recommendations
                     (parameter_advice "medium" (shared_buffers_message pct)))
          else Ok recommendations
        else Ok recommendations
    | None => Ok recommendations
    end;
  recommendations ←
    match params !! "work_mem" with
    | Some (setting, _, _) =>
        wm_kb ← int_of_str setting;
        if wm_kb <? 4096
        then mb ← int_truediv wm_kb 1024;
             Ok (append recommendations
                   (parameter_advice "medium" (work_mem_low_message mb)))
        else Ok recommendations
    | None => Ok recommendations
    end;
  recommendations ←
    match params !! "maintenance_work_mem" with
    | Some (setting, _, _) =>
        mw_kb ← int_of_str setting;
        if mw_kb <? 65536
        then mb ← int_truediv mw_kb 1024;
             Ok (append recommendations
                   (parameter_advice "low" (maintenance_work_mem_message mb)))
        else Ok recommendations
    | None => Ok recommendations
    end;
  let recommendations :=
    match params !! "autovacuum" with
    | Some (setting, _, _) =>
        if existsb (String.eqb (lower setting)) ["off"; "false"; "0"]
        then append recommendations (parameter_advice "high" autovacuum_off_message)
        else recommendations
    | None => recommendations
    end in
  Ok recommendations.

(** [analyze_pg_settings(conn, ram_gb=None)] *)
Definition analyze_pg_settings (ram_gb : option num) : Run (list Dict) :=
  rows ← fetchall pg_settings;
  run (settings_recommendations (settings_by_name rows) ram_gb).

(** *** [analyze_autovacuum] *)

Definition dead_tuples_message (pct : num) : string :=
  "⚠️ " +:+ str_num pct
  +:+ "% dead tuples — запустите VACUUM или уменьшите autovacuum_vacuum_scale_factor".
Definition autovacuum_age_message (hours : num) : string :=
  "⚠️ Автовакуум не запускался " +:+ str_num hours
  +:+ " ч — проверьте настройки autovacuum_naptime".
Definition analyze_due_message (pct : num) : string :=
  "⚠️ С момента последнего ANALYZE изменено " +:+ str_num pct
  +:+ "% строк — выполните ANALYZE".

(** [(now - then).total_seconds()] *)
Definition total_seconds (now then_ : Z) : result float :=
  int_truediv (now - then_) 1000000.

(** Lines 86-116: the body of the loop over the tables. *)
Definition vacuum_report (dead_tup_threshold analyze_threshold max_autovacuum_age_hours : num)
    (row : VacuumRow) : Run Dict :=
  let '(relid, schema, table, live, dead, mod_since_analyze, last_auto, last_analyze) := row in
  let total := live + dead in
  dead_pct ← run (share dead total);
  analyze_pct ← run (share mod_since_analyze total);
  let recommendations := [] in
  now ← read_clock;
  recommendations ← run
    (if Py.gt dead_pct dead_tup_threshold
     then pct ← percent dead_pct;
          Ok (append recommendations (dead_tuples_message pct))
     else Ok recommendations);
  recommendations ← run
    (match last_auto with
     | Some last =>
         age ← total_seconds now last;
         limit ← Py.mul max_autovacuum_age_hours (Int 3600);
         if Py.gt (Float age) limit
         then age ← total_seconds now last;
              hours ← truediv (Float age) (Int 3600);
              Ok (append recommendations (autovacuum_age_message (round_num 1 hours)))
         else Ok recommendations
     | None => Ok recommendations
     end);
  recommendations ← run
    (if Py.gt analyze_pct analyze_threshold
     then pct ← percent analyze_pct;
          Ok (append recommendations (analyze_due_message pct))
     else Ok recommendations);
  dead ← run (percent dead_pct);
  analyzed ← run (percent analyze_pct);
  mret {| fields := [("schema", Text schema); ("table", Text table);
                     ("dead_pct", Number dead); ("analyze_pct", Number analyzed);
                     ("last_autovacuum", Moment last_auto);
                     ("last_analyze", Moment last_analyze)];
          recommendations := Some recommendations |}.

(** [analyze_autovacuum(conn, dead_tup_threshold=0.2,
    analyze_threshold=0.1, max_autovacuum_age_hours=24)] *)
Definition analyze_autovacuum (dead_tup_threshold analyze_threshold
    max_autovacuum_age_hours : num) : Run (list Dict) :=
  tables ← fetchall vacuum_stats;
  for_rows (vacuum_report dead_tup_threshold analyze_threshold max_autovacuum_age_hours) tables.

(** *** [analyze_table_structure] *)

Definition partition_advice (table : string) (partition_threshold_mb : num) : Dict :=
  {| fields := [("type", Text "table"); ("table", Text table); ("priority", Text "medium");
                ("message",
                 Text ("Таблица " +:+ table +:+ " > " +:+ str_num partition_threshold_mb
                       +:+ "MB — рассмотрите секционирование по дате или ключу"))];
     recommendations := None |}.

(** [analyze_table_structure(conn, partition_threshold_mb=10_000)] *)
Definition analyze_table_structure (partition_threshold_mb : num) : Run (list Dict) :=
  rows ← fetchall table_sizes;
  run (foldl (fun recommendations '(table, total_size) =>
                recommendations ← recommendations;
                size_mb ← int_truediv total_size (1024 * 1024);
                if Py.gt (Float size_mb) partition_threshold_mb
                then Ok (append recommendations (partition_advice table partition_threshold_mb))
                else Ok recommendations)
             (Ok []) rows).

(** *** [analyze_table_bloat] *)

Definition bloat_message (pct : num) : string :=
  "⚠️ Bloat ≈ " +:+ str_num pct +:+ "% — рассмотрите VACUUM FULL или CLUSTER".

(** Lines 162-178: the body of the loop over the tables. *)
Definition bloat_report (bloat_threshold : num) (row : BloatRow) : result Dict :=
  let '(schema, table, live, dead, total_bytes) := row in
  let total_rows := live + dead in
  dead_pct ← share dead total_rows;
  let recommendations := [] in
  recommendations ←
    (if Py.gt dead_pct bloat_threshold
     then pct ← percent dead_pct;
          Ok (append recommendations (bloat_message pct))
     else Ok recommendations);
  bloat_pct ← percent dead_pct;
  size_mb ← int_truediv total_bytes (1024 * 1024);
  Ok {| fields := [("schema", Text schema); ("table", Text table);
                   ("bloat_pct", Number bloat_pct);
                   ("size_mb", Number (Float (round_float 2 size_mb)))];
        recommendations := Some recommendations |}.

(** [analyze_table_bloat(conn, bloat_threshold=0.2)] *)
Definition analyze_table_bloat (bloat_threshold : num) : Run (list Dict) :=
  tables ← fetchall bloat_stats;
  for_rows (fun row => run (bloat_report bloat_threshold row)) tables.

(** *** [analyze_index_usage] *)

Definition index_unused_message : string :=
  "⚠️ Индекс не используется — рассмотрите удаление для экономии места".
Definition index_rarely_used_message : string :=
  "⚠️ Индекс редко используется — проверьте, нужен ли он".

(** Lines 203-220: the body of the loop over the indexes. *)
Definition index_report (unused_threshold : num) (row : IndexUsageRow) : result Dict :=
  let '(schema, table, index, idx_scan, tup_read, tup_fetch, size) := row in
  let recommendations := [] in
  recommendations ←
    (if idx_scan =? 0
     then Ok (append recommendations index_unused_message)
     else limit ← Py.mul unused_threshold (Int tup_read);
          if Py.lt (Int idx_scan) limit
          then Ok (append recommendations index_rarely_used_message)
          else Ok recommendations);
  size_mb ← int_truediv size (1024 * 1024);
  Ok {| fields := [("schema", Text schema); ("table", Text table); ("index", Text index);
                   ("size_mb", Number (Float (round_float 2 size_mb)));
                   ("idx_scan", Number (Int idx_scan));
                   ("idx_tup_read", Number (Int tup_read));
                   ("idx_tup_fetch", Number (Int tup_fetch))];
        recommendations := Some recommendations |}.

(** [analyze_index_usage(conn, unused_threshold=0.05)] *)
Definition analyze_index_usage (unused_threshold : num) : Run (list Dict) :=
  indexes ← fetchall index_stats;
  for_rows (fun row => run (index_report unused_threshold row)) indexes.

(** *** [health_check] *)

Definition newline : string := String (ascii_of_nat 10) EmptyString.

(** [if verbose: ...] *)
Definition when (verbose : bool) (body : Run unit) : Run unit :=
  if verbose then body else mret tt.

(** [for rec in r["recommendations"]: print(f"    - {rec}")] *)
Definition print_recommendations (r : Dict) : Run unit :=
  recs ← run (getitem_recommendations r);
  for_each (fun rec => print ("    - " +:+ rec)) recs.

(** [print(f"  • {r['schema']}.{r['table']}:")] and the recommendations *)
Definition print_table_entry (r : Dict) : Run unit :=
  schema ← run (getitem r "schema");
  table ← run (getitem r "table");
  print ("  • " +:+ str_scalar schema +:+ "." +:+ str_scalar table +:+ ":");;
  print_recommendations r.

(** [health_check(conn, ram_gb=None, verbose=True)] *)
Definition health_check (ram_gb : option num) (verbose : bool) : Run (list Dict) :=
  let results := [] in
  pg_settings ← analyze_pg_settings ram_gb;
  when verbose
    (print (newline +:+ "⚙️ Настройки PostgreSQL:");;
     for_each (fun r => recommendation ← run (getitem r "recommendation");
                        print ("  • " +:+ str_scalar recommendation))
              pg_settings);;
  let results := (results ++ pg_settings)%list in
  autovac ← analyze_autovacuum default_dead_tup_threshold default_analyze_threshold
              default_max_autovacuum_age_hours;
  when verbose
    (print (newline +:+ "🧹 Автовакуум и ANALYZE:");;
     (match autovac with [] => print "   Проблем не найдено" | _ => mret tt end);;
     for_each print_table_entry autovac);;
  let results := (results ++ autovac)%list in
  tbl_struct ← analyze_table_structure default_partition_threshold_mb;
  when verbose
    (print (newline +:+ "📐 Структура таблиц:");;
     (match tbl_struct with [] => print "   Явных проблем не найдено" | _ => mret tt end);;
     for_each print_table_entry tbl_struct);;
  let results := (results ++ tbl_struct)%list in
  tbl_bloat ← analyze_table_bloat default_bloat_threshold;
  when verbose
    (print (newline +:+ "📊 Фрагментация таблиц (bloat):");;
     (match tbl_bloat with
      | [] => print "  ✅ Значительного bloating не обнаружено"
      | _ => mret tt
      end);;
     for_each (fun r =>
                 schema ← run (getitem r "schema");
                 table ← run (getitem r "table");
                 bloat_pct ← run (getitem r "bloat_pct");
                 print ("  • " +:+ str_scalar schema +:+ "." +:+ str_scalar table
                        +:+ ": bloat ≈ " +:+ str_scalar bloat_pct +:+ "%");;
                 print_recommendations r)
              tbl_bloat);;
  let results := (results ++ tbl_bloat)%list in
  idx_usage ← analyze_index_usage default_unused_threshold;
  when verbose
    (print (newline +:+ "🔎 Использование индексов:");;
     (match idx_usage with
      | [] => print "   Неиспользуемых индексов не найдено"
      | _ => mret tt
      end);;
     for_each (fun r =>
                 schema ← run (getitem r "schema");
                 table ← run (getitem r "table");
                 index ← run (getitem r "index");
                 print ("  • " +:+ str_scalar schema +:+ "." +:+ str_scalar table
                        +:+ "." +:+ str_scalar index +:+ ":");;
                 print_recommendations r)
              idx_usage);;
  let results := (results ++ idx_usage)%list in
  mret results.

End Health.

Arguments mkState {World} world console.
Arguments world {World} s.
Arguments console {World} s.
Arguments run {World A} r _.
Arguments print {World} line _.
Arguments for_rows {World A B} body _ _.
Arguments for_each {World A} body _ _.

End rec_db.

(** ** Sample plans and catalogs *)

Module Samples.

Import info_about_query rec_query.

(** The plan with no key at all: [{}]. *)
Definition empty_plan : PlanNode :=
  mkPlanNode None None None None None None None None None [].

(** A leaf node with the given type, rows and width, and no other key. *)
Definition leaf (nt : string) (rows width : Z) : PlanNode :=
  mkPlanNode (Some nt) None (Some rows) (Some width) None None None None None [].

(** A "Seq Scan" leaf with the given relation name and filter. *)
Definition scan (relation filter_cond : option string) : PlanNode :=
  mkPlanNode (Some "Seq Scan") None None None None relation filter_cond None None [].

Definition flag_scan : PlanNode := scan (Some "t") (Some "(flag IS NULL)").
Definition ab_scan : PlanNode := scan (Some "t") (Some "a = 5 AND b = 3").
Definition orphan_scan : PlanNode := scan None (Some "a = 5").

(** A connection to a database with no state of its own, which gives the
    same answer to every call of a statement. *)
Definition answering {K A} (a : result A) : K -> unit -> unit * result A :=
  fun _ d => (d, a).

Definition lost : exn := DatabaseError "connection lost".

(** An index on column a of t, its definition text written without the
    access method, and as PostgreSQL prints it. *)
Definition bare_index_on_a : IndexRow := ("t_a_idx", "CREATE INDEX t_a_idx ON t (a)").
Definition btree_index_on_a : IndexRow :=
  ("t_a_idx", "CREATE INDEX t_a_idx ON public.t USING btree (a)").

End Samples.

Import Samples.

(** * The plan metrics extractor *)

Import info_about_query.

(** ** Specifications *)

(** The annotated node copies the plain fields of the plan node, and its
    children mirror the plan node's children one for one, in order. *)
Inductive mirrors : PlanNode -> AnnotatedNode -> Prop :=
| mirrors_node (p : PlanNode) (a : AnnotatedNode) :
    node_type a = Node_Type p ->
    cost a = get_cost (Total_Cost p) ->
    rows a = get_int (Plan_Rows p) ->
    width a = get_int (Plan_Width p) ->
    startup_cost a = get_cost (Startup_Cost p) ->
    Forall2 mirrors (Plans p) (children a) ->
    mirrors p a.

(** The number of nodes of a plan and of an annotated tree. *)
Fixpoint plan_size (p : PlanNode) : nat :=
  S (list_sum (map plan_size (Plans p))).
Fixpoint annotated_size (a : AnnotatedNode) : nat :=
  S (list_sum (map annotated_size (children a))).

(** None of the node's own computations raises: the conversion of the
    row count to a float, the advice, the size in MiB. *)
Definition node_raises_nothing (p : PlanNode) : Prop :=
  let rows := get_int (Plan_Rows p) in
  let memory_bytes := memory_bytes_of rows (get_int (Plan_Width p)) in
  is_ok (float_of_int rows)
  /\ is_ok (node_recommendations (Node_Type p) (get_cost (Total_Cost p)) rows memory_bytes)
  /\ is_ok (int_truediv memory_bytes MiB).

(** A node as PostgreSQL emits it: it carries its type, and its row
    count and its size in bytes are under [2^53]. *)
Definition bounded_node (p : PlanNode) : Prop :=
  let rows := get_int (Plan_Rows p) in
  is_Some (Node_Type p)
  /\ Z.abs rows < 2 ^ 53
  /\ Z.abs (memory_bytes_of rows (get_int (Plan_Width p))) < 2 ^ 53.

(** A property of every node of a plan. *)
Inductive everywhere (P : PlanNode -> Prop) : PlanNode -> Prop :=
| everywhere_node (p : PlanNode) :
    P p -> Forall (everywhere P) (Plans p) -> everywhere P p.

(** ** Facts about the runtime fragment *)

Ltac unbind :=
  unfold mbind, result_bind, mret, result_ret, Py.bind in *.

Lemma bind_Ok {A B} (r : result A) (k : A -> result B) (b : B) :
  (x ← r; k x) = Ok b <-> exists a, r = Ok a /\ k a = Ok b.
Proof.
  unbind. destruct r as [a|e]; split.
  - intros H. exists a. split; [reflexivity | exact H].
  - intros (a' & [= <-] & H). exact H.
  - discriminate.
  - intros (a' & H & _). discriminate.
Qed.

Lemma bind_Ok_l {A B} (a : A) (k : A -> result B) : (x ← Ok a; k x) = k a.
Proof. reflexivity. Qed.

Lemma is_ok_Ok {A} (r : result A) : is_ok r <-> exists a, r = Ok a.
Proof.
  destruct r as [a|e]; simpl; split; try tauto.
  - intros _. exists a. reflexivity.
  - intros [a H]. discriminate.
Qed.

Lemma list_comp_Ok {A B} (f : A -> result B) (xs : list A) (ys : list B) :
  list_comp f xs = Ok ys <-> Forall2 (fun x y => f x = Ok y) xs ys.
Proof.
  revert ys. induction xs as [|x xs IH]; intros ys; simpl.
  - split.
    + intros [= <-]. constructor.
    + intros H. inversion H. reflexivity.
  - split.
    + intros H. destruct (f x) as [y|e] eqn:Hx; simpl in H; [|discriminate].
      destruct (list_comp f xs) as [ys'|e] eqn:Hxs; simpl in H; [|discriminate].
      injection H as <-. constructor; [exact Hx | apply IH; reflexivity].
    + intros H. inversion H as [|x' y xs' ys' Hx Hxs]; subst.
      rewrite Hx. simpl. apply IH in Hxs. rewrite Hxs. reflexivity.
Qed.

Lemma list_comp_is_ok {A B} (f : A -> result B) (xs : list A) :
  Forall (fun x => is_ok (f x)) xs -> is_ok (list_comp f xs).
Proof.
  induction 1 as [|x xs Hx _ IH]; simpl; [exact I|].
  destruct (f x); [|contradiction]. simpl.
  destruct (list_comp f xs); [exact I | contradiction].
Qed.

(** ** Facts about [extract_metrics] *)

Lemma extract_metrics_unfold (p : PlanNode) (spc ctc : float) :
  extract_metrics p spc ctc =
  (let node_type := Node_Type p in
   let cost := get_cost (Total_Cost p) in
   let rows := get_int (Plan_Rows p) in
   let width := get_int (Plan_Width p) in
   let startup_cost := get_cost (Startup_Cost p) in
   cpu_cost ← cpu_cost_of rows ctc;
   io_cost ← io_cost_of cost cpu_cost;
   let memory_bytes := memory_bytes_of rows width in
   recommendations ← node_recommendations node_type cost rows memory_bytes;
   children ← list_comp
     (fun q => extract_metrics q default_seq_page_cost default_cpu_tuple_cost) (Plans p);
   mb ← int_truediv memory_bytes MiB;
   Ok {| node_type := node_type; cost := cost; cpu_ms := round2 cpu_cost;
         io_ms := round2 io_cost; total_ms := round2 cost; rows := rows;
         width := width; startup_cost := startup_cost;
         memory_estimate_mb := Float (round2_float mb);
         recommendations := recommendations; children := children |}).
Proof. destruct p; reflexivity. Qed.

(** What a returned node is made of. *)
Lemma extract_metrics_Ok (p : PlanNode) (spc ctc : float) (a : AnnotatedNode) :
  extract_metrics p spc ctc = Ok a <->
  exists cpu_cost io_cost recs kids mb,
    cpu_cost_of (get_int (Plan_Rows p)) ctc = Ok cpu_cost
    /\ io_cost_of (get_cost (Total_Cost p)) cpu_cost = Ok io_cost
    /\ node_recommendations (Node_Type p) (get_cost (Total_Cost p)) (get_int (Plan_Rows p))
         (memory_bytes_of (get_int (Plan_Rows p)) (get_int (Plan_Width p))) = Ok recs
    /\ Forall2 (fun q b => extract_metrics q default_seq_page_cost default_cpu_tuple_cost = Ok b)
         (Plans p) kids
    /\ int_truediv (memory_bytes_of (get_int (Plan_Rows p)) (get_int (Plan_Width p))) MiB = Ok mb
    /\ a = {| node_type := Node_Type p; cost := get_cost (Total_Cost p);
              cpu_ms := round2 cpu_cost; io_ms := round2 io_cost;
              total_ms := round2 (get_cost (Total_Cost p));
              rows := get_int (Plan_Rows p); width := get_int (Plan_Width p);
              startup_cost := get_cost (Startup_Cost p);
              memory_estimate_mb := Float (round2_float mb);
              recommendations := recs; children := kids |}.
Proof.
  rewrite extract_metrics_unfold. cbv zeta. split.
  - intros H.
    apply bind_Ok in H as (cpu & Hcpu & H).
    apply bind_Ok in H as (io & Hio & H).
    apply bind_Ok in H as (recs & Hrecs & H).
    apply bind_Ok in H as (kids & Hkids & H).
    apply bind_Ok in H as (mb & Hmb & H).
    injection H as <-.
    exists cpu, io, recs, kids, mb.
    apply list_comp_Ok in Hkids. auto 10.
  - intros (cpu & io & recs & kids & mb & Hcpu & Hio & Hrecs & Hkids & Hmb & ->).
    apply list_comp_Ok in Hkids.
    rewrite Hcpu, bind_Ok_l, Hio, bind_Ok_l, Hrecs, bind_Ok_l, Hkids, bind_Ok_l, Hmb.
    reflexivity.
Qed.

Lemma float_of_int_0 : float_of_int 0 = Ok (S754_zero false).
Proof. reflexivity. Qed.

(** The CPU and I/O figures are defined as soon as the row count
    converts to a float. *)
Lemma cpu_cost_of_ok (rows : Z) (ctc : float) :
  is_ok (float_of_int rows) ->
  exists x, float_of_int rows = Ok x /\ cpu_cost_of rows ctc = Ok (Float (fmul x ctc)).
Proof.
  intros H. apply is_ok_Ok in H as [x Hx]. exists x. split; [exact Hx|].
  unfold cpu_cost_of, Py.mul, to_float. rewrite Hx. reflexivity.
Qed.

Lemma io_cost_of_float (o : option float) (x : float) :
  exists d, Py.sub (get_cost o) (Float x) = Ok (Float d)
            /\ io_cost_of (get_cost o) (Float x) = Ok (max2 (Float d) (Int 0)).
Proof.
  destruct o as [c|]; simpl.
  - exists (fsub c x). split; reflexivity.
  - exists (fsub (S754_zero false) x). split; reflexivity.
Qed.

Lemma extract_metrics_returns (p : PlanNode) :
  everywhere node_raises_nothing p ->
  forall spc ctc, exists a, extract_metrics p spc ctc = Ok a.
Proof.
  induction p using PlanNode_ind.
  intros Hall spc ctc. inversion Hall as [p' Hnode Hkids]; subst.
  destruct Hnode as (Hrows & Hrecs & Hmb). simpl in Hrows, Hrecs, Hmb, Hkids.
  apply (cpu_cost_of_ok _ ctc) in Hrows as (x & _ & Hcpu).
  destruct (io_cost_of_float tc (fmul x ctc)) as (d & _ & Hio).
  apply is_ok_Ok in Hrecs as [recs Hrecs].
  apply is_ok_Ok in Hmb as [mb Hmb].
  assert (Hc : exists kids,
    Forall2 (fun q b => extract_metrics q default_seq_page_cost default_cpu_tuple_cost = Ok b)
      plans kids).
  { clear -H Hkids. induction plans as [|q qs IH].
    - exists []. constructor.
    - inversion H; subst. inversion Hkids; subst.
      destruct (H2 H4 default_seq_page_cost default_cpu_tuple_cost) as [b Hb].
      destruct (IH H3 H5) as [bs Hbs].
      exists (b :: bs). constructor; assumption. }
  destruct Hc as [kids Hc].
  eexists. apply (proj2 (extract_metrics_Ok _ _ _ _)).
  exists (Float (fmul x ctc)), (max2 (Float d) (Int 0)), recs, kids, mb.
  simpl. auto 10.
Qed.

Lemma extract_metrics_mirrors (p : PlanNode) :
  forall spc ctc a, extract_metrics p spc ctc = Ok a -> mirrors p a.
Proof.
  induction p as [nt tc pr pw sc rn fc jf sk plans IH] using PlanNode_ind.
  intros spc ctc a Ha.
  apply extract_metrics_Ok in Ha
    as (cpu & io & recs & kids & mb & _ & _ & _ & Hkids & _ & ->).
  constructor; try reflexivity. simpl in *.
  induction Hkids as [|q b qs bs Hq _ IHk]; constructor.
  - inversion IH; subst. eauto.
  - inversion IH; subst. auto.
Qed.

Lemma mirrors_size (p : PlanNode) :
  forall a, mirrors p a -> annotated_size a = plan_size p.
Proof.
  induction p as [nt tc pr pw sc rn fc jf sk plans IH] using PlanNode_ind.
  intros [ant ac acpu aio atot ar aw asc amb arecs kids] Hm.
  inversion Hm as [p' a' _ _ _ _ _ Hkids]; subst. simpl in *. f_equal.
  clear Hm. induction Hkids as [|q b qs bs Hq _ IHk]; [reflexivity|].
  inversion IH as [|? ? IHq IHqs]; subst. simpl.
  rewrite (IHq b Hq), (IHk IHqs). reflexivity.
Qed.

(** ** Facts about binary64 rounding *)

(** [below k x]: [x] is a zero or a finite double of magnitude under
    [2^k]. *)
Definition below (k : Z) (x : float) : Prop :=
  match x with
  | S754_zero _ => True
  | S754_finite _ m e => Z.pos (digits2_pos m) + e <= k
  | _ => False
  end.

Lemma digits2_pos_bounds (m : positive) :
  2 ^ (Z.pos (digits2_pos m) - 1) <= Z.pos m < 2 ^ Z.pos (digits2_pos m).
Proof.
  induction m as [p IH|p IH|]; simpl digits2_pos.
  - rewrite Pos2Z.inj_succ, Pos2Z.inj_xI.
    replace (Z.succ (Z.pos (digits2_pos p)) - 1) with (Z.succ (Z.pos (digits2_pos p) - 1)) by lia.
    rewrite !Z.pow_succ_r by lia. lia.
  - rewrite Pos2Z.inj_succ. change (Z.pos p~0) with (2 * Z.pos p).
    replace (Z.succ (Z.pos (digits2_pos p)) - 1) with (Z.succ (Z.pos (digits2_pos p) - 1)) by lia.
    rewrite !Z.pow_succ_r by lia. lia.
  - simpl. lia.
Qed.

Lemma Zdigits2_nonneg (m : Z) : 0 <= Zdigits2 m.
Proof. destruct m; simpl; lia. Qed.

Lemma Zdigits2_le (m k : Z) : 0 <= m < 2 ^ k -> 0 <= k -> Zdigits2 m <= k.
Proof.
  intros [Hm Hlt] Hk. destruct m as [|p|p]; simpl; [lia| |lia].
  destruct (Z_le_gt_dec (Z.pos (digits2_pos p)) k) as [|Hgt]; [assumption|].
  pose proof (digits2_pos_bounds p) as [Hlo _].
  assert (2 ^ k <= 2 ^ (Z.pos (digits2_pos p) - 1)) by (apply Z.pow_le_mono_r; lia).
  lia.
Qed.

Lemma Zdigits2_abs_le (m k : Z) : Z.abs m < 2 ^ k -> 0 <= k -> Zdigits2 m <= k.
Proof.
  intros Hm Hk. replace (Zdigits2 m) with (Zdigits2 (Z.abs m)) by (destruct m; reflexivity).
  apply Zdigits2_le; lia.
Qed.

Lemma Zdigits2_lt_pow (m : Z) : 0 <= m -> m < 2 ^ Zdigits2 m.
Proof.
  intros Hm. destruct m as [|p|p]; simpl; [lia| |lia].
  apply digits2_pos_bounds.
Qed.

Lemma shr_1_m (mrs : shr_record) :
  0 <= shr_m mrs -> shr_m (shr_1 mrs) = shr_m mrs / 2.
Proof.
  destruct mrs as [m r s]. simpl. intros Hm.
  destruct m as [|[p|p|]|p]; simpl; try lia; try reflexivity.
  - rewrite Pos2Z.inj_xI. apply Z.div_unique with 1; lia.
  - change (Z.pos p~0) with (2 * Z.pos p). apply Z.div_unique with 0; lia.
Qed.

Lemma iter_pos_shr_1_m (n : positive) :
  forall mrs, 0 <= shr_m mrs ->
    shr_m (SpecFloat.iter_pos shr_1 n mrs) = shr_m mrs / 2 ^ Z.pos n.
Proof.
  assert (Hdiv : forall a b c, 0 < b -> 0 < c -> a / b / c = a / (b * c)).
  { intros a b c Hb Hc. apply Z.div_div; lia. }
  induction n as [p IH|p IH|]; intros mrs Hm; simpl SpecFloat.iter_pos.
  - assert (H1 : 0 <= shr_m (shr_1 mrs)).
    { rewrite shr_1_m by assumption. apply Z.div_pos; lia. }
    assert (H2 : 0 <= shr_m (SpecFloat.iter_pos shr_1 p (shr_1 mrs))).
    { rewrite IH by assumption. apply Z.div_pos; [assumption | apply Z.pow_pos_nonneg; lia]. }
    rewrite IH, IH, shr_1_m by assumption.
    assert (0 < 2 ^ Z.pos p) by (apply Z.pow_pos_nonneg; lia).
    rewrite !Hdiv by lia.
    f_equal. rewrite Pos2Z.inj_xI.
    replace (2 * Z.pos p + 1) with (1 + Z.pos p + Z.pos p) by lia.
    rewrite !Z.pow_add_r by lia. rewrite Z.pow_1_r. lia.
  - assert (H2 : 0 <= shr_m (SpecFloat.iter_pos shr_1 p mrs)).
    { rewrite IH by assumption. apply Z.div_pos; [assumption | apply Z.pow_pos_nonneg; lia]. }
    rewrite IH, IH by assumption.
    assert (0 < 2 ^ Z.pos p) by (apply Z.pow_pos_nonneg; lia).
    rewrite Hdiv by lia.
    f_equal. change (Z.pos p~0) with (2 * Z.pos p).
    replace (2 * Z.pos p) with (Z.pos p + Z.pos p) by lia.
    rewrite Z.pow_add_r by lia. reflexivity.
  - rewrite shr_1_m by assumption. reflexivity.
Qed.

Definition fexp64 (e : Z) : Z := Z.max (e - 53) (-1074).

Lemma fexp_64 (e : Z) : fexp prec emax e = fexp64 e.
Proof. reflexivity. Qed.

Lemma shr_record_of_loc_m (m : Z) (l : location) : shr_m (shr_record_of_loc m l) = m.
Proof. destruct l as [|[]]; reflexivity. Qed.

(** The exponent and mantissa after the shift to the working exponent. *)
Lemma shr_fexp_spec (m e : Z) (l : location) :
  0 <= m ->
  let e1 := Z.max e (fexp64 (Zdigits2 m + e)) in
  snd (shr_fexp prec emax m e l) = e1
  /\ shr_m (fst (shr_fexp prec emax m e l)) = m / 2 ^ (e1 - e).
Proof.
  intros Hm e1. unfold shr_fexp, shr. rewrite fexp_64. fold (fexp64 (Zdigits2 m + e)).
  subst e1.
  destruct (fexp64 (Zdigits2 m + e) - e) as [|n|n] eqn:Hn; simpl fst; simpl snd.
  - rewrite Z.max_l by lia. rewrite Z.sub_diag, shr_record_of_loc_m.
    split; [reflexivity | symmetry; apply Z.div_1_r].
  - rewrite Z.max_r by lia. split; [lia|].
    rewrite iter_pos_shr_1_m by (rewrite shr_record_of_loc_m; assumption).
    rewrite shr_record_of_loc_m, Hn. reflexivity.
  - rewrite Z.max_l by lia. rewrite Z.sub_diag, shr_record_of_loc_m.
    split; [reflexivity | symmetry; apply Z.div_1_r].
Qed.

Lemma round_nearest_even_bounds (m : Z) (l : location) :
  m <= round_nearest_even m l <= m + 1.
Proof.
  destruct l as [|[]]; simpl; try lia. destruct (Z.even m); lia.
Qed.

Lemma pow2_split (a b : Z) : 0 <= a -> 0 <= b -> 2 ^ (a + b) = 2 ^ a * 2 ^ b.
Proof. intros. apply Z.pow_add_r; assumption. Qed.

Lemma pow2_pos (a : Z) : 0 <= a -> 0 < 2 ^ a.
Proof. intros. apply Z.pow_pos_nonneg; lia. Qed.

Lemma div_pow2_lt (m a b : Z) :
  0 <= a -> 0 <= b -> m < 2 ^ (a + b) -> m / 2 ^ a < 2 ^ b.
Proof.
  intros Ha Hb Hm. apply Z.div_lt_upper_bound; [apply pow2_pos; assumption|].
  rewrite <- pow2_split by assumption. assumption.
Qed.

(** Rounding a mantissa of magnitude under [2^k] gives a zero or a
    finite double of magnitude under [2^(k+1)]: no overflow. *)
Lemma binary_round_aux_below (sx : bool) (mx ex : Z) (lx : location) (k : Z) :
  0 <= mx -> Zdigits2 mx + ex <= k -> -1074 <= k <= 1023 -> ex <= 971 ->
  below (k + 1) (binary_round_aux prec emax sx mx ex lx).
Proof.
  intros Hmx Hmag Hk Hex. unfold binary_round_aux.
  pose proof (Zdigits2_nonneg mx) as Hd.
  pose proof (shr_fexp_spec mx ex lx Hmx) as [He1 Hm1].
  destruct (shr_fexp prec emax mx ex lx) as [mrs1 e1]. simpl in He1, Hm1.
  rewrite <- He1 in Hm1.
  assert (Hle1 : ex <= e1 <= k /\ e1 <= 971) by (unfold fexp64 in He1; lia).
  assert (Hmx' : mx < 2 ^ ((e1 - ex) + (k - e1))).
  { replace (e1 - ex + (k - e1)) with (k - ex) by lia.
    apply Z.lt_le_trans with (2 ^ Zdigits2 mx); [apply Zdigits2_lt_pow; assumption|].
    apply Z.pow_le_mono_r; lia. }
  assert (H1 : 0 <= shr_m mrs1 < 2 ^ (k - e1)).
  { rewrite Hm1. split; [apply Z.div_pos; [assumption | apply pow2_pos; lia]|].
    apply div_pow2_lt; [lia | lia | assumption]. }
  pose proof (round_nearest_even_bounds (shr_m mrs1) (loc_of_shr_record mrs1)) as Hr.
  set (m' := round_nearest_even (shr_m mrs1) (loc_of_shr_record mrs1)) in *.
  assert (Hm' : 0 <= m' < 2 ^ (k + 1 - e1)).
  { replace (k + 1 - e1) with (1 + (k - e1)) by lia.
    rewrite pow2_split, Z.pow_1_r by lia. lia. }
  assert (Hd' : Zdigits2 m' <= k + 1 - e1) by (apply Zdigits2_le; [exact Hm' | lia]).
  pose proof (Zdigits2_nonneg m') as Hd0.
  pose proof (shr_fexp_spec m' e1 loc_Exact (proj1 Hm')) as [He2 Hm2].
  destruct (shr_fexp prec emax m' e1 loc_Exact) as [mrs2 e2]. simpl in He2, Hm2.
  rewrite <- He2 in Hm2.
  assert (Hle2 : e1 <= e2 <= 971) by (unfold fexp64 in He2; lia).
  assert (H2 : 0 <= shr_m mrs2).
  { rewrite Hm2. apply Z.div_pos; [lia | apply pow2_pos; lia]. }
  destruct (shr_m mrs2) as [|q|q] eqn:Hq; [exact I| |lia].
  change (emax - prec) with 971.
  destruct (Z.leb_spec e2 971) as [_|Hgt]; [|lia].
  simpl. destruct (Z_le_gt_dec e2 (k + 1)) as [Hs|Hs].
  - assert (Hqlt : Z.pos q < 2 ^ (k + 1 - e2)).
    { rewrite Hm2. apply div_pow2_lt; [lia | lia |].
      replace (e2 - e1 + (k + 1 - e2)) with (k + 1 - e1) by lia. lia. }
    pose proof (Zdigits2_le (Z.pos q) (k + 1 - e2)) as Hdq. simpl in Hdq. lia.
  - exfalso. assert (Hsmall : m' / 2 ^ (e2 - e1) = 0).
    { apply Z.div_small. split; [lia|].
      apply Z.lt_le_trans with (2 ^ (k + 1 - e1)); [lia|].
      apply Z.pow_le_mono_r; lia. }
    lia.
Qed.

Lemma digits2_pos_iter_xO (m d : positive) :
  Z.pos (digits2_pos (Pos.iter xO m d)) = Z.pos (digits2_pos m) + Z.pos d.
Proof.
  induction d as [|d IH] using Pos.peano_ind.
  - simpl. lia.
  - rewrite Pos.iter_succ. simpl digits2_pos. lia.
Qed.

(** The double nearest to an integer of at most [k] bits has magnitude
    under [2^(k+1)]: the conversion does not overflow. *)
Lemma nearest_float_below (z k : Z) :
  Zdigits2 z <= k -> 0 <= k <= 1023 -> below (k + 1) (nearest_float z).
Proof.
  intros Hd Hk. unfold nearest_float, binary_normalize.
  assert (Hround : forall s m, Z.pos (digits2_pos m) <= k ->
            below (k + 1) (binary_round prec emax s m 0)).
  { intros s m Hm. unfold binary_round, shl_align. rewrite fexp_64.
    destruct (fexp64 (Z.pos (digits2_pos m) + 0) - 0) as [|n|n] eqn:Hn.
    - apply binary_round_aux_below; simpl; lia.
    - apply binary_round_aux_below; simpl; lia.
    - apply binary_round_aux_below; simpl Zdigits2; try lia;
        try rewrite digits2_pos_iter_xO; unfold fexp64 in *; lia. }
  destruct z as [|m|m]; [exact I | apply Hround; exact Hd | apply Hround; exact Hd].
Qed.

Lemma fmul_below (x y : float) (kx ky : Z) :
  below kx x -> below ky y -> -1074 <= kx + ky <= 973 ->
  below (kx + ky + 1) (fmul x y).
Proof.
  intros Hx Hy Hk. destruct x as [sx|sx| |sx mx ex], y as [sy|sy| |sy my ey];
    simpl in Hx, Hy; try contradiction; try exact I.
  unfold fmul, SFmul. apply binary_round_aux_below; try lia.
  pose proof (digits2_pos_bounds mx) as [_ Hmx].
  pose proof (digits2_pos_bounds my) as [_ Hmy].
  assert (Hprod : Zdigits2 (Z.pos (mx * my)) <= Z.pos (digits2_pos mx) + Z.pos (digits2_pos my)).
  { apply Zdigits2_le; [|lia]. rewrite pow2_split by lia.
    rewrite Pos2Z.inj_mul. split; [lia|]. apply Z.mul_lt_mono_nonneg; lia. }
  lia.
Qed.

Lemma fdiv_below (x : float) (sy : bool) (my : positive) (ey : Z) (kx : Z) :
  below kx x ->
  let mag := Z.pos (digits2_pos my) + ey in
  -1075 <= kx - mag <= 1022 ->
  below (kx - mag + 2) (fdiv x (S754_finite sy my ey)).
Proof.
  intros Hx mag Hk. destruct x as [sx|sx| |sx mx ex]; simpl in Hx; try contradiction; [exact I|].
  unfold fdiv, SFdiv, SFdiv_core_binary.
  set (dx := Zdigits2 (Z.pos mx)). set (dy := Zdigits2 (Z.pos my)).
  assert (Hdx : dx = Z.pos (digits2_pos mx)) by reflexivity.
  assert (Hdy : dy = Z.pos (digits2_pos my)) by reflexivity.
  rewrite fexp_64.
  set (e' := Z.min (fexp64 (dx + ex - (dy + ey))) (ex - ey)).
  set (s := ex - ey - e').
  assert (Hs : 0 <= s) by (unfold s, e'; lia).
  set (m' := match s with Z.pos _ => Z.shiftl (Z.pos mx) s | 0 => Z.pos mx | Z.neg _ => 0 end).
  assert (Hm' : m' = Z.pos mx * 2 ^ s).
  { unfold m'. destruct s as [|p|p]; [simpl; lia | apply Z.shiftl_mul_pow2; lia | lia]. }
  pose proof (Z.div_eucl_eq m' (Z.pos my)) as Heq.
  pose proof (Z.mod_pos_bound m' (Z.pos my)) as Hmod.
  unfold Z.modulo in Hmod.
  destruct (Z.div_eucl m' (Z.pos my)) as [q r].
  specialize (Heq ltac:(lia)). specialize (Hmod ltac:(lia)).
  pose proof (digits2_pos_bounds mx) as [_ Hmx]. rewrite <- Hdx in Hmx.
  pose proof (digits2_pos_bounds my) as [Hmy _]. rewrite <- Hdy in Hmy.
  pose proof (pow2_pos s Hs) as Hps.
  assert (Hm'pos : 0 < m') by (rewrite Hm'; lia).
  assert (Hq0 : 0 <= q) by nia.
  assert (He' : e' <= 971 /\ e' <= kx - mag + 1) by (unfold e', fexp64, mag in *; lia).
  replace (kx - mag + 2) with (kx - mag + 1 + 1) by lia.
  apply binary_round_aux_below; try lia.
  destruct (Z_le_gt_dec 0 (dx + s - dy + 1)) as [Ht|Ht].
  - assert (Hq : q < 2 ^ (dx + s - dy + 1)).
    { assert (Hlt : m' < Z.pos my * 2 ^ (dx + s - dy + 1)).
      { apply Z.lt_le_trans with (2 ^ (dy - 1) * 2 ^ (dx + s - dy + 1)).
        - rewrite <- pow2_split by lia. replace (dy - 1 + (dx + s - dy + 1)) with (dx + s) by lia.
          rewrite Hm', pow2_split by lia. apply Z.mul_lt_mono_pos_r; lia.
        - apply Z.mul_le_mono_nonneg_r; [apply Z.lt_le_incl, pow2_pos; lia | lia]. }
      pose proof (pow2_pos (dx + s - dy + 1) Ht). nia. }
    pose proof (Zdigits2_le q (dx + s - dy + 1)) as Hdq.
    unfold s, mag in *. lia.
  - assert (Hq : q = 0).
    { assert (Hlt : m' < Z.pos my).
      { apply Z.lt_le_trans with (2 ^ (dy - 1)); [|lia].
        apply Z.lt_le_trans with (2 ^ (dx + s)).
        - rewrite Hm', pow2_split by lia. apply Z.mul_lt_mono_pos_r; lia.
        - apply Z.pow_le_mono_r; lia. }
      nia. }
    subst q. simpl. lia.
Qed.

Lemma below_int_of_float (k : Z) (x : float) : below k x -> is_ok (int_of_float x).
Proof. destruct x; simpl; tauto. Qed.

Lemma below_float_of_int (z : Z) :
  Z.abs z < 2 ^ 1023 ->
  exists x, float_of_int z = Ok x /\ x = nearest_float z /\ below 1024 x.
Proof.
  intros Hz. assert (Hb : below (1023 + 1) (nearest_float z)).
  { apply nearest_float_below; [|lia]. apply Zdigits2_abs_le; [assumption | lia]. }
  exists (nearest_float z). unfold float_of_int.
  destruct (nearest_float z); simpl in Hb; try contradiction; auto.
Qed.

(** Rounding a non-negative mantissa keeps the sign it is given. *)
Lemma binary_round_aux_sign (sx : bool) (mx ex : Z) (lx : location) :
  0 <= mx ->
  match binary_round_aux prec emax sx mx ex lx with
  | S754_zero s | S754_infinity s | S754_finite s _ _ => s = sx
  | S754_nan => False
  end.
Proof.
  intros Hmx. unfold binary_round_aux.
  pose proof (shr_fexp_spec mx ex lx Hmx) as [_ Hm1].
  destruct (shr_fexp prec emax mx ex lx) as [mrs1 e1]. simpl in Hm1.
  pose proof (round_nearest_even_bounds (shr_m mrs1) (loc_of_shr_record mrs1)) as Hr.
  assert (H1 : 0 <= shr_m mrs1).
  { rewrite Hm1. apply Z.div_pos; [assumption|].
    apply pow2_pos. lia. }
  set (m' := round_nearest_even (shr_m mrs1) (loc_of_shr_record mrs1)) in *.
  assert (Hm' : 0 <= m') by lia.
  pose proof (shr_fexp_spec m' e1 loc_Exact Hm') as [_ Hm2].
  destruct (shr_fexp prec emax m' e1 loc_Exact) as [mrs2 e2]. simpl in Hm2.
  assert (H2 : 0 <= shr_m mrs2).
  { rewrite Hm2. apply Z.div_pos; [assumption|]. apply pow2_pos. lia. }
  destruct (shr_m mrs2) as [|q|q]; [reflexivity| |lia].
  destruct (e2 <=? emax - prec); reflexivity.
Qed.

Lemma nearest_ratio_sign (s : bool) (n d : positive) :
  match nearest_ratio s n d with
  | S754_zero s' | S754_infinity s' | S754_finite s' _ _ => s' = s
  | S754_nan => False
  end.
Proof.
  unfold nearest_ratio.
  set (k := Z.max 0 (Z.pos (digits2_pos d) - Z.pos (digits2_pos n) + 56)).
  set (num := Z.pos n * 2 ^ k).
  assert (Hk : 0 <= k) by (unfold k; lia).
  assert (Hnum : 0 < num) by (unfold num; pose proof (pow2_pos k Hk); lia).
  assert (Hq : 0 <= num / Z.pos d) by (apply Z.div_pos; lia).
  set (m := 2 * (num / Z.pos d) + (if num mod Z.pos d =? 0 then 0 else 1)).
  assert (Hm : 0 <= m) by (unfold m; destruct (num mod Z.pos d =? 0); lia).
  clearbody m. clear Hq Hnum. clearbody k. clear num.
  unfold binary_normalize.
  destruct s, m as [|p|p]; cbn [cond_Zopp]; try change (- Z.pos p) with (Z.neg p);
    cbv iota; try reflexivity; try lia;
    unfold binary_round;
    match goal with
    | |- context [shl_align ?a ?b ?c] => destruct (shl_align a b c) as [mz ez]
    end;
    apply (binary_round_aux_sign _ (Z.pos mz) ez loc_Exact); lia.
Qed.

Lemma compare_float_int_finite_0 (s : bool) (m : positive) (e : Z) :
  compare_float_int (S754_finite s m e) 0 = Some (if s then Lt else Gt).
Proof.
  unfold compare_float_int. destruct (Z.leb_spec 0 e) as [He|He].
  - pose proof (pow2_pos e He) as Hp. f_equal. destruct s; simpl cond_Zopp.
    + apply Z.compare_lt_iff. nia.
    + apply Z.compare_gt_iff. nia.
  - f_equal. destruct s; reflexivity.
Qed.

(** [round(x, 2)] of a float that is not below zero is not below zero. *)
Lemma round2_not_negative (a : num) :
  Py.lt a (Int 0) = false -> Py.lt (round2 a) (Int 0) = false.
Proof.
  destruct a as [z|x]; [trivial|]. unfold round2, Py.lt, Py.compare.
  destruct x as [s|s| |s m e]; try (intros H; exact H).
  rewrite compare_float_int_finite_0. destruct s; [discriminate|]. intros _.
  unfold round2_float.
  destruct (scaled_half_even m e 2) as [|n|n]; try reflexivity.
  pose proof (nearest_ratio_sign false n 100) as Hs.
  destruct (nearest_ratio false n 100) as [s'|s'| |s' m' e']; try contradiction;
    subst; try reflexivity.
  rewrite compare_float_int_finite_0. reflexivity.
Qed.

(** The size in MiB of fewer than [2^53] bytes, and twice that size, are
    finite. *)
Lemma int_truediv_MiB (memory_bytes : Z) :
  Z.abs memory_bytes < 2 ^ 53 ->
  exists mb, int_truediv memory_bytes MiB = Ok mb /\ below 35 mb.
Proof.
  intros Hm. unfold int_truediv. change (MiB =? 0) with false. cbv iota.
  destruct (memory_bytes =? 0); [exists (S754_zero (MiB <? 0)); split; [reflexivity | exact I]|].
  replace (Z.abs memory_bytes <? 2 ^ 53) with true by (symmetry; apply Z.ltb_lt; assumption).
  change (Z.abs MiB <? 2 ^ 53) with true. cbv iota. simpl andb. cbv iota.
  eexists. split; [reflexivity|].
  change (nearest_float MiB) with (S754_finite false 4503599627370496 (-32)).
  apply (fdiv_below (nearest_float memory_bytes) false 4503599627370496 (-32) 54); [|simpl; lia].
  apply (nearest_float_below memory_bytes 53); [|lia].
  apply Zdigits2_abs_le; [assumption | lia].
Qed.

Lemma work_mem_figures (memory_bytes : Z) :
  Z.abs memory_bytes < 2 ^ 53 ->
  exists mb twice,
    int_truediv memory_bytes MiB = Ok mb
    /\ int_of_float (fmul mb (nearest_float 2)) = Ok twice.
Proof.
  intros Hm. destruct (int_truediv_MiB memory_bytes Hm) as (mb & Hmb & Hb).
  assert (Hb2 : below (35 + 2 + 1) (fmul mb (nearest_float 2))).
  { apply fmul_below; [assumption | | lia].
    change (nearest_float 2) with (S754_finite false 4503599627370496 (-51)).
    simpl. lia. }
  apply below_int_of_float, is_ok_Ok in Hb2 as [twice Htwice].
  exists mb, twice. split; assumption.
Qed.

Lemma format_f_when_costly (d : nat) (o : option float) :
  Py.gt (get_cost o) (Int 100000) = true -> is_ok (format_f d (get_cost o)).
Proof. destruct o; [intros _; exact I | discriminate]. Qed.

Lemma node_recommendations_ok (nt : string) (o : option float) (rows memory_bytes : Z) :
  Z.abs memory_bytes < 2 ^ 53 ->
  is_ok (node_recommendations (Some nt) (get_cost o) rows memory_bytes).
Proof.
  intros Hm. unfold node_recommendations, attr_of. rewrite bind_Ok_l.
  destruct (work_mem_figures memory_bytes Hm) as (mb & twice & Hmb & Htwice).
  rewrite Hmb, bind_Ok_l, Htwice, bind_Ok_l.
  destruct (in_pair nt "Hash" "Sort" && (10 * 1024 * 1024 <? memory_bytes)); rewrite bind_Ok_l;
    (destruct (Py.gt (get_cost o) (Int 100000)) eqn:Hgt; simpl andb; cbv iota;
     [ destruct (in_pair nt "Seq Scan" "Bitmap Heap Scan"); [|exact I];
       apply (format_f_when_costly 0) in Hgt; apply is_ok_Ok in Hgt as [c Hc];
       rewrite Hc; exact I
     | exact I ]).
Qed.

Lemma bounded_node_raises_nothing (p : PlanNode) :
  bounded_node p -> node_raises_nothing p.
Proof.
  intros ([nt Hnt] & Hrows & Hmem). unfold node_raises_nothing. cbv zeta.
  split; [|split].
  - destruct (below_float_of_int (get_int (Plan_Rows p))) as (x & Hx & _).
    + apply Z.lt_trans with (2 ^ 53); [assumption | reflexivity].
    + rewrite Hx. exact I.
  - rewrite Hnt. apply node_recommendations_ok. assumption.
  - destruct (int_truediv_MiB _ Hmem) as (mb & Hmb & _). rewrite Hmb. exact I.
Qed.

Lemma everywhere_impl (P Q : PlanNode -> Prop) :
  (forall p, P p -> Q p) -> forall p, everywhere P p -> everywhere Q p.
Proof.
  intros HPQ. induction p as [nt tc pr pw sc rn fc jf sk plans IH] using PlanNode_ind.
  intros Hp. inversion Hp as [p' Hnode Hkids]; subst. constructor; [auto|].
  simpl in *. clear Hp Hnode. revert Hkids.
  induction IH as [|q qs Hq _ IHqs]; intros Hkids; inversion Hkids; subst; constructor; auto.
Qed.

Lemma extract_metrics_returns_bounded (p : PlanNode) (spc ctc : float) :
  everywhere bounded_node p -> exists a, extract_metrics p spc ctc = Ok a.
Proof.
  intros Hall. apply extract_metrics_returns.
  apply (everywhere_impl bounded_node); [exact bounded_node_raises_nothing | exact Hall].
Qed.

Lemma io_cost_not_negative (cost cpu_cost io_cost : num) :
  io_cost_of cost cpu_cost = Ok io_cost -> Py.lt io_cost (Int 0) = false.
Proof.
  unfold io_cost_of. intros H. apply bind_Ok in H as (d & _ & [= <-]).
  unfold max2, Py.gt. destruct (Py.lt d (Int 0)) eqn:Hd; [reflexivity | exact Hd].
Qed.

Lemma not_full_scan_type (nt other : string) :
  endswith other "Seq Scan" = false ->
  endswith nt "Seq Scan" = true -> String.eqb nt other = false.
Proof.
  intros Ho Hnt. destruct (String.eqb_spec nt other) as [->|]; [congruence | reflexivity].
Qed.

(** ** The claims on the plan metrics extractor *)

(** C1 (as the code has it): on a node with no "Node Type" key the
    extractor does not return an annotated node with zero-valued
    figures; it raises AttributeError, whatever else the node holds. *)
Theorem extract_metrics_needs_node_type (p : PlanNode) (spc ctc : float) :
  Node_Type p = None ->
  Z.abs (get_int (Plan_Rows p)) < 2 ^ 1023 ->
  extract_metrics p spc ctc = Raise AttributeError.
Proof.
  intros Hnt Hrows. rewrite extract_metrics_unfold. cbv zeta.
  destruct (below_float_of_int _ Hrows) as (x & Hx & _).
  assert (Hok : is_ok (float_of_int (get_int (Plan_Rows p)))) by (rewrite Hx; exact I).
  destruct (cpu_cost_of_ok _ ctc Hok) as (x' & _ & Hcpu).
  destruct (io_cost_of_float (Total_Cost p) (fmul x' ctc)) as (d & _ & Hio).
  rewrite Hcpu, bind_Ok_l, Hio, bind_Ok_l, Hnt. reflexivity.
Qed.

Lemma extract_metrics_needs_node_type_witness :
  extract_metrics empty_plan default_seq_page_cost default_cpu_tuple_cost
  = Raise AttributeError.
Proof.
  apply (extract_metrics_needs_node_type empty_plan); [reflexivity | simpl; lia].
Defined.

(** C2: for every plan tree, the tree [extract_metrics] returns has the
    shape of the input: one annotated node per plan node, the children
    of each annotated node being the extractions of the plan node's
    children, in the same order; and it does return on every tree whose
    nodes carry their type and figures under [2^53]. *)
Theorem extract_metrics_same_shape (p : PlanNode) (spc ctc : float) :
  (forall a, extract_metrics p spc ctc = Ok a ->
     mirrors p a
     /\ annotated_size a = plan_size p
     /\ Forall2 (fun q b => extract_metrics q default_seq_page_cost default_cpu_tuple_cost = Ok b)
          (Plans p) (children a))
  /\ (everywhere bounded_node p -> exists a, extract_metrics p spc ctc = Ok a).
Proof.
  split.
  - intros a Ha. pose proof (extract_metrics_mirrors p spc ctc a Ha) as Hm.
    split; [exact Hm|]. split; [apply mirrors_size; exact Hm|].
    apply extract_metrics_Ok in Ha as (? & ? & ? & kids & ? & _ & _ & _ & Hkids & _ & ->).
    exact Hkids.
  - apply extract_metrics_returns_bounded.
Qed.

(** C4: for every plan node, cpu_cost is rows times cpu_tuple_cost (whose
    default is the double nearest to 0.01), io_cost is the greater of
    total cost minus cpu_cost and 0 and so never below zero,
    memory_bytes is rows times width, and the time estimate is the total
    cost; the returned node carries these figures rounded to two
    decimals, the memory in MiB. *)
Theorem derived_metrics (p : PlanNode) (spc ctc : float) :
  let cost := get_cost (Total_Cost p) in
  let rows := get_int (Plan_Rows p) in
  let width := get_int (Plan_Width p) in
  (forall a, extract_metrics p spc ctc = Ok a ->
     exists x d mb,
       float_of_int rows = Ok x
       /\ cpu_cost_of rows ctc = Ok (Float (fmul x ctc))
       /\ Py.sub cost (Float (fmul x ctc)) = Ok d
       /\ io_cost_of cost (Float (fmul x ctc)) = Ok (max2 d (Int 0))
       /\ Py.lt (max2 d (Int 0)) (Int 0) = false
       /\ memory_bytes_of rows width = rows * width
       /\ int_truediv (rows * width) MiB = Ok mb
       /\ cpu_ms a = round2 (Float (fmul x ctc))
       /\ io_ms a = round2 (max2 d (Int 0))
       /\ total_ms a = round2 cost
       /\ memory_estimate_mb a = Float (round2_float mb)
       /\ Py.lt (io_ms a) (Int 0) = false)
  /\ (forall cpu_cost io_cost,
        io_cost_of cost cpu_cost = Ok io_cost -> Py.lt io_cost (Int 0) = false)
  /\ default_cpu_tuple_cost = nearest_ratio false 1 100
  /\ (everywhere bounded_node p -> exists a, extract_metrics p spc ctc = Ok a).
Proof.
  intros cost rows width. split; [|split; [|split]].
  - intros a Ha.
    apply extract_metrics_Ok in Ha
      as (cpu & io & recs & kids & mb & Hcpu & Hio & _ & _ & Hmb & ->).
    fold rows in Hcpu. fold cost in Hio.
    assert (Hok : is_ok (float_of_int rows)).
    { unfold cpu_cost_of, Py.mul, to_float in Hcpu.
      destruct (float_of_int rows); [exact I | discriminate]. }
    destruct (cpu_cost_of_ok rows ctc Hok) as (x & Hx & Hcpu').
    rewrite Hcpu' in Hcpu. injection Hcpu as <-.
    destruct (io_cost_of_float (Total_Cost p) (fmul x ctc)) as (d & Hd & Hio').
    fold cost in Hd, Hio'. rewrite Hio' in Hio. injection Hio as <-.
    pose proof (io_cost_not_negative _ _ _ Hio') as Hneg.
    exists x, (Float d), mb. simpl.
    repeat split; try assumption; try reflexivity.
    apply round2_not_negative. exact Hneg.
  - intros cpu io. apply io_cost_not_negative.
  - reflexivity.
  - apply extract_metrics_returns_bounded.
Qed.

Lemma extract_metrics_recommendations (p : PlanNode) (spc ctc : float) (a : AnnotatedNode) :
  extract_metrics p spc ctc = Ok a ->
  node_recommendations (Node_Type p) (get_cost (Total_Cost p)) (get_int (Plan_Rows p))
    (memory_bytes_of (get_int (Plan_Rows p)) (get_int (Plan_Width p)))
  = Ok (recommendations a).
Proof.
  intros Ha. apply extract_metrics_Ok in Ha
    as (? & ? & recs & ? & ? & _ & _ & Hrecs & _ & _ & ->).
  exact Hrecs.
Qed.

(** C7: a node whose type ends in "Seq Scan" with 150,000 rows, which is
    no parallel node and is not a costly sequential or bitmap heap scan,
    gets exactly one piece of advice, the full-scan warning. *)
Theorem full_scan_warning_alone (p : PlanNode) (spc ctc : float) (nt : string) :
  Node_Type p = Some nt ->
  endswith nt "Seq Scan" = true ->
  Plan_Rows p = Some 150000 ->
  contains nt "Parallel" = false ->
  Py.gt (get_cost (Total_Cost p)) (Int 100000) && in_pair nt "Seq Scan" "Bitmap Heap Scan" = false ->
  (forall a, extract_metrics p spc ctc = Ok a ->
     recommendations a = ["📊 Полный скан 150000 строк — добавьте индекс или WHERE"])
  /\ (everywhere bounded_node p -> exists a, extract_metrics p spc ctc = Ok a).
Proof.
  intros Hnt Hscan Hrows Hpar Hcostly. split; [|apply extract_metrics_returns_bounded].
  intros a Ha. apply extract_metrics_recommendations in Ha.
  rewrite Hnt, Hrows in Ha. unfold node_recommendations, attr_of in Ha.
  rewrite bind_Ok_l, Hscan, Hpar, Hcostly in Ha.
  unfold in_pair in Ha.
  rewrite (not_full_scan_type nt "Hash"), (not_full_scan_type nt "Sort"),
    (not_full_scan_type nt "Nested Loop") in Ha by (reflexivity || assumption).
  simpl in Ha. injection Ha as <-. reflexivity.
Qed.

Lemma leaf_bounded (nt : string) (rows width : Z) :
  Z.abs rows < 2 ^ 53 -> Z.abs (rows * width) < 2 ^ 53 ->
  everywhere bounded_node (leaf nt rows width).
Proof.
  intros Hr Hm. constructor; [|constructor].
  split; [eexists; reflexivity | split; assumption].
Qed.

Lemma full_scan_warning_alone_witness :
  exists a,
    extract_metrics (leaf "Seq Scan" 150000 64) default_seq_page_cost default_cpu_tuple_cost = Ok a
    /\ recommendations a = ["📊 Полный скан 150000 строк — добавьте индекс или WHERE"].
Proof.
  destruct (full_scan_warning_alone (leaf "Seq Scan" 150000 64)
              default_seq_page_cost default_cpu_tuple_cost "Seq Scan")
    as [Hrecs Hreturns]; try reflexivity.
  destruct Hreturns as [a Ha]; [apply leaf_bounded; simpl; lia|].
  exists a. split; [exact Ha | exact (Hrecs a Ha)].
Defined.

(** C8: a "Hash" or "Sort" node whose rows times width exceed 10 MiB is
    advised to raise work_mem: the message names the size in MiB to one
    decimal and, as the figure to raise it to, the integer part of twice
    that size. A "Hash" node of 2,000,000 rows of width 10 is told
    ~19.1MB and 38MB. *)
Theorem work_mem_recommendation (p : PlanNode) (spc ctc : float) (nt : string) :
  Node_Type p = Some nt ->
  in_pair nt "Hash" "Sort" = true ->
  10 * MiB < get_int (Plan_Rows p) * get_int (Plan_Width p) ->
  (forall a, extract_metrics p spc ctc = Ok a ->
     exists mb twice,
       int_truediv (get_int (Plan_Rows p) * get_int (Plan_Width p)) MiB = Ok mb
       /\ int_of_float (fmul mb (nearest_float 2)) = Ok twice
       /\ work_mem_message nt (format_fixed 1 mb) twice ∈ recommendations a)
  /\ (everywhere bounded_node p -> exists a, extract_metrics p spc ctc = Ok a)
  /\ (forall tc sc rn fc jf sk, exists a,
        extract_metrics
          (mkPlanNode (Some "Hash") tc (Some 2000000) (Some 10) sc rn fc jf sk []) spc ctc
        = Ok a
        /\ recommendations a
           = ["💾 Узел Hash обрабатывает ~19.1MB — увеличьте work_mem примерно до 38MB"]).
Proof.
  intros Hnt Hkind Hmem. split; [|split; [apply extract_metrics_returns_bounded|]].
  - intros a Ha. apply extract_metrics_recommendations in Ha.
    rewrite Hnt in Ha. unfold node_recommendations, attr_of, memory_bytes_of in Ha.
    rewrite bind_Ok_l, Hkind in Ha.
    replace (10 * 1024 * 1024 <? get_int (Plan_Rows p) * get_int (Plan_Width p)) with true in Ha
      by (symmetry; apply Z.ltb_lt; exact Hmem).
    simpl andb in Ha. cbv iota in Ha.
    apply bind_Ok in Ha as (recs3 & H3 & Ha).
    apply bind_Ok in H3 as (mb & Hmb & H3).
    apply bind_Ok in H3 as (twice & Htwice & H3). injection H3 as H3.
    exists mb, twice. split; [exact Hmb|]. split; [exact Htwice|].
    assert (Hin : forall (l : list string) (x y : string) (b : bool),
              x ∈ l -> x ∈ (if b then append l y else l)).
    { intros l x y b Hx. destruct b; [|exact Hx]. unfold append. set_solver. }
    assert (Hin3 : work_mem_message nt (format_fixed 1 mb) twice ∈ recs3).
    { rewrite <- H3. unfold append. set_solver. }
    clear H3. cbv zeta in Ha.
    apply bind_Ok in Ha as (recs5 & H5 & [= <-]).
    apply (Hin _ _ nested_loop_message
             (String.eqb nt "Nested Loop" && (50000 <? get_int (Plan_Rows p)))) in Hin3.
    destruct (Py.gt (get_cost (Total_Cost p)) (Int 100000) && in_pair nt "Seq Scan" "Bitmap Heap Scan").
    + apply bind_Ok in H5 as (c & _ & [= <-]). unfold append at 1. set_solver.
    + injection H5 as <-. exact Hin3.
  - intros tc sc rn fc jf sk.
    destruct (extract_metrics_returns_bounded
                (mkPlanNode (Some "Hash") tc (Some 2000000) (Some 10) sc rn fc jf sk []) spc ctc)
      as [a Ha].
    { constructor; [|constructor]. split; [eexists; reflexivity | split; reflexivity]. }
    exists a. split; [exact Ha|].
    apply extract_metrics_recommendations in Ha. simpl in Ha.
    unfold node_recommendations, attr_of in Ha. rewrite bind_Ok_l in Ha.
    assert (Hcostly : Py.gt (get_cost tc) (Int 100000) && in_pair "Hash" "Seq Scan" "Bitmap Heap Scan"
                      = false) by (destruct (Py.gt (get_cost tc) (Int 100000)); reflexivity).
    rewrite Hcostly in Ha. remember (recommendations a) as recs eqn:Hrecs. clear Hrecs.
    vm_compute in Ha. injection Ha as <-. reflexivity.
Qed.

Lemma work_mem_recommendation_witness :
  exists a,
    extract_metrics (leaf "Hash" 2000000 10) default_seq_page_cost default_cpu_tuple_cost = Ok a
    /\ "💾 Узел Hash обрабатывает ~19.1MB — увеличьте work_mem примерно до 38MB"
       ∈ recommendations a.
Proof.
  destruct (work_mem_recommendation (leaf "Hash" 2000000 10)
              default_seq_page_cost default_cpu_tuple_cost "Hash")
    as (Hadvice & Hreturns & _); try reflexivity.
  destruct Hreturns as [a Ha]; [apply leaf_bounded; reflexivity|].
  exists a. split; [exact Ha|].
  destruct (Hadvice a Ha) as (mb & twice & Hmb & Htwice & Hin).
  vm_compute in Hmb. injection Hmb as <-.
  vm_compute in Htwice. injection Htwice as <-.
  exact Hin.
Defined.

(** * More on the plan metrics extractor *)

(** ** The cost parameters *)

Lemma extract_metrics_page_cost (p : PlanNode) (spc spc' ctc : float) :
  extract_metrics p spc' ctc = extract_metrics p spc ctc.
Proof. rewrite !extract_metrics_unfold. reflexivity. Qed.

(** X1: the seq_page_cost argument of [extract_metrics] changes nothing,
    and the cpu_tuple_cost argument reaches the root only: the children
    are extracted with the default 0.01, so two calls that differ in
    their cost arguments return trees that differ at most in the CPU
    and I/O figures of the root. *)
Theorem cost_parameters_reach_root_only (p : PlanNode) (spc spc' ctc ctc' : float) :
  extract_metrics p spc' ctc = extract_metrics p spc ctc
  /\ (forall a a', extract_metrics p spc ctc = Ok a -> extract_metrics p spc' ctc' = Ok a' ->
        a' = {| node_type := node_type a; cost := cost a;
                cpu_ms := cpu_ms a'; io_ms := io_ms a';
                total_ms := total_ms a; rows := rows a; width := width a;
                startup_cost := startup_cost a;
                memory_estimate_mb := memory_estimate_mb a;
                recommendations := recommendations a; children := children a |}
        /\ Forall2 (fun q b => extract_metrics q default_seq_page_cost default_cpu_tuple_cost = Ok b)
             (Plans p) (children a')).
Proof.
  split; [apply extract_metrics_page_cost|].
  intros a a' Ha Ha'.
  apply extract_metrics_Ok in Ha as (cpu & io & recs & kids & mb & _ & _ & Hrecs & Hkids & Hmb & ->).
  apply extract_metrics_Ok in Ha'
    as (cpu' & io' & recs' & kids' & mb' & _ & _ & Hrecs' & Hkids' & Hmb' & ->).
  rewrite Hrecs in Hrecs'. injection Hrecs' as <-.
  rewrite Hmb in Hmb'. injection Hmb' as <-.
  assert (kids' = kids) as ->.
  { clear -Hkids Hkids'. revert kids' Hkids'.
    induction Hkids as [|q b qs bs Hq _ IH]; intros kids' Hkids'; inversion Hkids'; subst.
    - reflexivity.
    - f_equal; [congruence | apply IH; assumption]. }
  split; [reflexivity | exact Hkids].
Qed.

(** ** Nodes without a type *)

(** The node carries its type. *)
Definition typed (p : PlanNode) : Prop := is_Some (Node_Type p).

Lemma node_recommendations_typed (nt : option string) (cost : num) (rows mem : Z)
    (recs : list string) :
  node_recommendations nt cost rows mem = Ok recs -> is_Some nt.
Proof. destruct nt; [eauto | discriminate]. Qed.

Lemma extract_metrics_typed (p : PlanNode) :
  forall spc ctc a, extract_metrics p spc ctc = Ok a -> everywhere typed p.
Proof.
  induction p as [nt tc pr pw sc rn fc jf sk plans IH] using PlanNode_ind.
  intros spc ctc a Ha.
  apply extract_metrics_Ok in Ha as (cpu & io & recs & kids & mb & _ & _ & Hrecs & Hkids & _ & _).
  constructor; [exact (node_recommendations_typed _ _ _ _ _ Hrecs)|].
  simpl in *. clear Hrecs.
  induction Hkids as [|q b qs bs Hq _ IHk]; constructor.
  - inversion IH; subst. eauto.
  - inversion IH; subst. auto.
Qed.

(** ** The advice of one node *)








(** The row count and the size in bytes of a node are under [2^53]. *)
Definition figures_bounded (p : PlanNode) : Prop :=
  let rows := get_int (Plan_Rows p) in
  Z.abs rows < 2 ^ 53
  /\ Z.abs (memory_bytes_of rows (get_int (Plan_Width p))) < 2 ^ 53.

Lemma list_comp_first_failure {A B} (f : A -> result B) (P : A -> Prop) (e : exn) (xs : list A) :
  Forall (fun x => (P x /\ exists y, f x = Ok y) \/ (~ P x /\ f x = Raise e)) xs ->
  (Forall P xs /\ exists ys, list_comp f xs = Ok ys)
  \/ (~ Forall P xs /\ list_comp f xs = Raise e).
Proof.
  induction 1 as [|x xs Hx _ IH]; simpl.
  - left. split; [constructor | eexists; reflexivity].
  - destruct Hx as [[HP [y Hy]] | [HP Hy]]; rewrite Hy; simpl.
    + destruct IH as [[HPs [ys Hys]] | [HPs Hys]]; rewrite Hys; simpl.
      * left. split; [constructor; assumption | eexists; reflexivity].
      * right. split; [|reflexivity]. intros Hall. inversion Hall. contradiction.
    + right. split; [|reflexivity]. intros Hall. inversion Hall. contradiction.
Qed.

Lemma extract_metrics_typed_or_raises (p : PlanNode) :
  everywhere figures_bounded p ->
  forall spc ctc,
    (everywhere typed p /\ exists a, extract_metrics p spc ctc = Ok a)
    \/ (~ everywhere typed p /\ extract_metrics p spc ctc = Raise AttributeError).
Proof.
  induction p as [nt tc pr pw sc rn fc jf sk plans IH] using PlanNode_ind.
  intros Hall spc ctc. inversion Hall as [p' [Hrows Hmem] Hkids]; subst. simpl in Hrows, Hmem, Hkids.
  rewrite extract_metrics_unfold. cbv zeta. simpl Plan_Rows. simpl Total_Cost. simpl Node_Type.
  simpl Plan_Width. simpl Plans. simpl Startup_Cost.
  destruct (below_float_of_int (get_int pr)) as (x & Hx & _);
    [apply Z.lt_trans with (2 ^ 53); [assumption | reflexivity]|].
  assert (Hok : is_ok (float_of_int (get_int pr))) by (rewrite Hx; exact I).
  destruct (cpu_cost_of_ok _ ctc Hok) as (x' & _ & Hcpu).
  destruct (io_cost_of_float tc (fmul x' ctc)) as (d & _ & Hio).
  rewrite Hcpu, bind_Ok_l, Hio, bind_Ok_l.
  destruct nt as [nt|].
  - pose proof (node_recommendations_ok nt tc (get_int pr) _ Hmem) as Hrecs.
    apply is_ok_Ok in Hrecs as [recs Hrecs]. rewrite Hrecs, bind_Ok_l.
    destruct (int_truediv_MiB _ Hmem) as (mb & Hmb & _).
    assert (Hc : Forall (fun q =>
              (everywhere typed q
               /\ exists b, extract_metrics q default_seq_page_cost default_cpu_tuple_cost = Ok b)
              \/ (~ everywhere typed q
                  /\ extract_metrics q default_seq_page_cost default_cpu_tuple_cost
                     = Raise AttributeError)) plans).
    { clear -IH Hkids. induction IH as [|q qs Hq _ IHqs]; [constructor|].
      inversion Hkids; subst. constructor; auto. }
    apply list_comp_first_failure in Hc as [[Htyped [kids Hkids']] | [Htyped Hkids']];
      rewrite Hkids'.
    + left. split; [constructor; [eexists; reflexivity | exact Htyped]|].
      rewrite bind_Ok_l, Hmb. eexists. reflexivity.
    + right. split; [|reflexivity]. intros Ht. inversion Ht. contradiction.
  - right. split; [|reflexivity]. intros Ht. inversion Ht as [? [nt Hnt] _]. discriminate.
Qed.


(** ** The properties *)



(** X3: one node without a type anywhere in the tree loses the whole
    extraction. The extractor returns only if every node of the plan
    carries its type; on a plan with figures under [2^53] it returns if
    and only if every node does, and raises AttributeError otherwise. *)
Theorem extraction_needs_every_type (p : PlanNode) (spc ctc : float) :
  (forall a, extract_metrics p spc ctc = Ok a -> everywhere typed p)
  /\ (everywhere figures_bounded p ->
      ((exists a, extract_metrics p spc ctc = Ok a) <-> everywhere typed p)
      /\ (~ everywhere typed p -> extract_metrics p spc ctc = Raise AttributeError)).
Proof.
  split; [intros a; apply extract_metrics_typed|].
  intros Hb. destruct (extract_metrics_typed_or_raises p Hb spc ctc) as [[Ht Ha] | [Ht Ha]].
  - split; [split; [intros _; exact Ht | intros _; exact Ha] | contradiction].
  - split; [|intros _; exact Ha]. split; [|contradiction].
    intros [a Ha']. rewrite Ha' in Ha. discriminate.
Qed.

(** A join over a scan and a node that carries no key. *)
Definition join_over_untyped : PlanNode :=
  mkPlanNode (Some "Hash Join") None None None None None None None None
    [leaf "Seq Scan" 10 4; empty_plan].

Lemma extraction_needs_every_type_witness :
  extract_metrics join_over_untyped default_seq_page_cost default_cpu_tuple_cost
  = Raise AttributeError.
Proof.
  apply (extraction_needs_every_type join_over_untyped).
  - repeat (constructor; try (split; simpl; lia)).
  - intros H. inversion H as [? _ Hkids]. inversion Hkids as [|? ? _ Hrest].
    inversion Hrest as [|? ? Hempty _]. inversion Hempty as [? [nt Hnt] _]. discriminate.
Defined.

(** * Facts about strings *)

(** Every character of [s] passes the test. *)
Fixpoint all_chars (test : ascii -> bool) (s : string) : bool :=
  match s with
  | String c s' => test c && all_chars test s'
  | EmptyString => true
  end.

Lemma prefix_split (p s : string) : String.prefix p s = true -> exists rest, s = p +:+ rest.
Proof.
  revert s. induction p as [|c p IH]; intros s H.
  - exists s. reflexivity.
  - destruct s as [|c' s]; [discriminate|]. simpl in H.
    destruct (Ascii.ascii_dec c c') as [->|]; [|discriminate].
    destruct (IH s H) as [rest ->]. exists rest. reflexivity.
Qed.

Lemma append_nil_r (s : string) : s +:+ EmptyString = s.
Proof.
  induction s as [|c s IH]; [reflexivity|].
  change (String c (s +:+ EmptyString) = String c s). rewrite IH. reflexivity.
Qed.

Lemma append_cons (c : ascii) (a b : string) : String c a +:+ b = String c (a +:+ b).
Proof. reflexivity. Qed.

Lemma append_empty (a b : string) : a +:+ b = EmptyString -> a = EmptyString /\ b = EmptyString.
Proof. destruct a; [intros H; split; [reflexivity | exact H] | discriminate]. Qed.

Lemma append_assoc (a b c : string) : (a +:+ b) +:+ c = a +:+ b +:+ c.
Proof.
  induction a as [|x a IH]; [reflexivity|].
  change (String x ((a +:+ b) +:+ c) = String x (a +:+ b +:+ c)). f_equal. exact IH.
Qed.

Lemma contains_middle (before s after : string) : contains (before +:+ s +:+ after) s = true.
Proof.
  induction before as [|c before IH]; simpl.
  - assert (Hp : String.prefix s (s +:+ after) = true).
    { induction s as [|c s IHs]; simpl; [destruct after; reflexivity|].
      destruct (Ascii.ascii_dec c c); [exact IHs | contradiction]. }
    destruct (s +:+ after); simpl in *; rewrite Hp; reflexivity.
  - match goal with |- context [if ?b then _ else _] => destruct b end;
      [reflexivity | exact IH].
Qed.

Lemma prefix_append (s after : string) : String.prefix s (s +:+ after) = true.
Proof.
  induction s as [|c s IH]; simpl; [destruct after; reflexivity|].
  destruct (Ascii.ascii_dec c c); [exact IH | contradiction].
Qed.

Lemma prefix_shorter (a b s : string) :
  String.prefix (a +:+ b) s = true -> String.prefix a s = true.
Proof.
  intros H. apply prefix_split in H as [rest ->]. rewrite append_assoc. apply prefix_append.
Qed.


(** * The printed plan *)

Section PrintingFacts.

Local Open Scope list_scope.

Variable repr_float : float -> string.

Local Abbreviation pretty_plan := (info_about_query.pretty_plan repr_float).

(** ** Specifications *)

(** The number of pieces of advice in an annotated tree. *)
Fixpoint advice_count (a : AnnotatedNode) : nat :=
  length (recommendations a) + list_sum (map advice_count (children a)).

(** The line starts with the indentation of [level]. *)
Definition indented (level : nat) (line : string) : Prop :=
  startswith line (repeated "  " level) = true.

(** ** Facts *)

Lemma repeated_S (s : string) (n : nat) : repeated s (S n) = s +:+ repeated s n.
Proof.
  unfold repeated. destruct n as [|n]; simpl; [symmetry; apply append_nil_r | reflexivity].
Qed.

Lemma repeated_comm (s : string) (n : nat) : s +:+ repeated s n = repeated s n +:+ s.
Proof.
  induction n as [|n IH]; [unfold repeated; simpl; apply append_nil_r|].
  rewrite !repeated_S, append_assoc, <- IH. reflexivity.
Qed.

Lemma indented_deeper (level : nat) (line : string) :
  indented (S level) line -> indented level line.
Proof.
  unfold indented, startswith. rewrite repeated_S, repeated_comm. apply prefix_shorter.
Qed.

Lemma format_f_cost (d : nat) (o : option float) :
  exists s, format_f d (get_cost o) = Ok s.
Proof. destruct o; eexists; reflexivity. Qed.

Lemma format_f_rounded_cost (d : nat) (o : option float) :
  exists s, format_f d (round2 (get_cost o)) = Ok s.
Proof. destruct o; eexists; reflexivity. Qed.

Lemma print_each_advice (indent : string) (recs : list string) (out : list string) :
  print_each (fun rec => print (advice_line indent rec)) recs out
  = (out ++ map (advice_line indent) recs, Ok tt).
Proof.
  revert out. induction recs as [|rec recs IH]; intros out; simpl.
  - rewrite app_nil_r. reflexivity.
  - unfold then_print, print at 1, append. rewrite IH, <- app_assoc. reflexivity.
Qed.

Lemma pretty_plan_unfold (node : AnnotatedNode) (level : nat) :
  pretty_plan node level =
  let indent := repeated "  " level in
  then_print (print (header_line indent (node_type node)))
    (then_print (print_each (fun rec => print (advice_line indent rec)) (recommendations node))
       (then_print (print_formatted
                      (figures_line indent (rows node) (width node) (startup_cost node) (cost node)))
          (then_print (print_formatted
                         (estimates_line repr_float indent (memory_estimate_mb node) (io_ms node)
                            (cpu_ms node) (total_ms node)))
             (print_each (fun subplan => pretty_plan subplan (S level)) (children node))))).
Proof. destruct node; reflexivity. Qed.

(** A subtree prints [lines], whatever was printed before. *)
Definition prints (node : AnnotatedNode) (level : nat) (lines : list string) : Prop :=
  forall out, pretty_plan node level out = (out ++ lines, Ok tt).

Lemma print_each_children (level : nat) (kids : list AnnotatedNode) (sizes : list nat) :
  Forall2 (fun b size => exists lines,
             prints b (S level) lines
             /\ length lines = (3 * size + advice_count b)%nat
             /\ Forall (indented (S level)) lines) kids sizes ->
  exists lines,
    (forall out,
       print_each (fun subplan => pretty_plan subplan (S level)) kids out = (out ++ lines, Ok tt))
    /\ length lines = (3 * list_sum sizes + list_sum (map advice_count kids))%nat
    /\ Forall (indented (S level)) lines.
Proof.
  induction 1 as [|b size kids sizes (lines & Hb & Hlen & Hind) _ (rest & Hrest & Hlen' & Hind')].
  - exists []. split; [intros out; simpl; rewrite app_nil_r; reflexivity|].
    split; [reflexivity | constructor].
  - exists (lines ++ rest). split; [|split].
    + intros out. simpl. unfold then_print. rewrite Hb, Hrest, app_assoc. reflexivity.
    + rewrite length_app, Hlen, Hlen'. simpl. lia.
    + apply Forall_app. split; assumption.
Qed.

Lemma pretty_plan_prints (p : PlanNode) :
  forall spc ctc a level,
    extract_metrics p spc ctc = Ok a ->
    exists lines,
      prints a level lines
      /\ length lines = (3 * plan_size p + advice_count a)%nat
      /\ Forall (indented level) lines
      /\ head lines = Some (header_line (repeated "  " level) (node_type a)).
Proof.
  induction p as [nt tc pr pw sc rn fc jf sk plans IH] using PlanNode_ind.
  intros spc ctc a level Ha.
  apply extract_metrics_Ok in Ha as (cpu & io & recs & kids & mb & _ & _ & _ & Hkids & _ & ->).
  simpl in Hkids.
  assert (Hc : Forall2 (fun b size => exists lines,
                 prints b (S level) lines
                 /\ length lines = (3 * size + advice_count b)%nat
                 /\ Forall (indented (S level)) lines) kids (map plan_size plans)).
  { clear -IH Hkids. induction Hkids as [|q b qs bs Hq _ IHk]; [constructor|].
    inversion IH as [|? ? IHq IHqs]; subst. simpl. constructor; [|apply IHk; exact IHqs].
    destruct (IHq _ _ b (S level) Hq) as (lines & H1 & H2 & H3 & _). eauto. }
  apply print_each_children in Hc as (below & Hbelow & Hlen & Hind).
  destruct (format_f_cost 2 sc) as [ssc Hsc]. destruct (format_f_cost 2 tc) as [stc Htc].
  destruct (format_f_rounded_cost 1 tc) as [stot Htot].
  set (indent := repeated "  " level).
  set (l1 := header_line indent nt).
  set (l3 := indent +:+ "   rows=" +:+ pretty (get_int pr) +:+ ", width=" +:+ pretty (get_int pw)
             +:+ ", cost=" +:+ ssc +:+ ".." +:+ stc).
  set (l4 := indent +:+ "  ~" +:+ format_fixed 2 (round2_float mb) +:+ " MB данных, I/O ≈ "
             +:+ str_num repr_float (round2 io) +:+ " ms, CPU ≈ " +:+ str_num repr_float (round2 cpu)
             +:+ " ms, всего  ≈ " +:+ stot +:+ " ms,").
  exists ([l1] ++ map (advice_line indent) recs ++ [l3] ++ [l4] ++ below).
  split; [|split; [|split]].
  - intros out. rewrite pretty_plan_unfold. cbv zeta.
    cbn [node_type recommendations rows width startup_cost cost memory_estimate_mb io_ms cpu_ms
         total_ms children Node_Type Total_Cost Plan_Rows Plan_Width Startup_Cost].
    unfold then_print at 1, print at 1, append.
    unfold then_print at 1. rewrite print_each_advice.
    unfold then_print at 1, print_formatted at 1, figures_line. rewrite Hsc, bind_Ok_l, Htc, bind_Ok_l.
    unfold print at 1, append.
    unfold then_print at 1, print_formatted at 1, estimates_line.
    change (format_f 2 (Float (round2_float mb))) with (Ok (format_fixed 2 (round2_float mb))).
    rewrite bind_Ok_l, Htot, bind_Ok_l. unfold print at 1, append.
    rewrite Hbelow. fold indent l1 l3 l4. rewrite <- !app_assoc. reflexivity.
  - rewrite !length_app, length_map, Hlen. simpl. lia.
  - assert (Hhere : forall rest, indented level (indent +:+ rest)).
    { intros rest. apply prefix_append. }
    apply Forall_app. split; [constructor; [apply Hhere | constructor]|].
    apply Forall_app. split; [apply Forall_map, Forall_forall; intros rec _; apply Hhere|].
    apply Forall_app. split; [constructor; [apply Hhere | constructor]|].
    apply Forall_app. split; [constructor; [apply Hhere | constructor]|].
    eapply Forall_impl; [exact Hind | apply indented_deeper].
  - reflexivity.
Qed.

(** ** The property *)

(** X15: [pretty_plan] never fails on a tree that [extract_metrics]
    returned. It prints the nodes in the order of the walk, parents
    before children: for every node its header, its pieces of advice
    and two lines of figures, so three lines for every node of the plan
    and one for every piece of advice; the first line is the header of
    the root, and every line starts with the indentation of the level
    the printing started at. *)
Theorem pretty_plan_of_extraction (p : PlanNode) (spc ctc : float) (a : AnnotatedNode)
    (level : nat) (out : list string) :
  extract_metrics p spc ctc = Ok a ->
  exists lines,
    pretty_plan a level out = (out ++ lines, Ok tt)
    /\ length lines = (3 * plan_size p + advice_count a)%nat
    /\ Forall (indented level) lines
    /\ head lines = Some (header_line (repeated "  " level) (node_type a)).
Proof.
  intros Ha. destruct (pretty_plan_prints p spc ctc a level Ha) as (lines & Hp & Hrest).
  exists lines. split; [apply Hp | exact Hrest].
Qed.

End PrintingFacts.

Lemma pretty_plan_of_extraction_witness :
  exists a lines,
    extract_metrics (leaf "Seq Scan" 150000 64) default_seq_page_cost default_cpu_tuple_cost = Ok a
    /\ pretty_plan (fun _ => "0.0") a 1 [] = (lines, Ok tt)
    /\ length lines = 4%nat.
Proof.
  destruct (extract_metrics_returns_bounded (leaf "Seq Scan" 150000 64)
              default_seq_page_cost default_cpu_tuple_cost) as [a Ha];
    [apply leaf_bounded; simpl; lia|].
  destruct (pretty_plan_of_extraction (fun _ => "0.0") _ _ _ a 1%nat [] Ha)
    as (lines & Hlines & Hlen & _).
  exists a, lines. split; [exact Ha|]. split; [exact Hlines|].
  rewrite Hlen. apply extract_metrics_Ok in Ha as (? & ? & recs & kids & ? & _ & _ & Hrecs & Hkids & _ & ->).
  inversion Hkids; subst. vm_compute in Hrecs. injection Hrecs as <-. reflexivity.
Defined.

(** * Lock levels *)

(** ** Specifications *)

(** The levels [detect_lock_level] can answer with. *)
Definition answered_levels : list string :=
  ["ACCESS SHARE"; "ROW EXCLUSIVE"; "SHARE UPDATE EXCLUSIVE"; "ACCESS EXCLUSIVE"; "UNKNOWN"].

(** A word as [split] returns it: not empty, and free of whitespace. *)
Definition spaceless (w : string) : Prop :=
  w <> EmptyString /\ all_chars (fun c => negb (is_space c)) w = true.

(** ** Facts about the runtime fragment *)


Lemma upper_char_space (c : ascii) : is_space (upper_char c) = is_space c.
Proof. destruct c as [[] [] [] [] [] [] [] []]; reflexivity. Qed.


Lemma upper_append (a b : string) : upper (a +:+ b) = upper a +:+ upper b.
Proof.
  induction a as [|c a IH]; [reflexivity|].
  change (String (upper_char c) (upper (a +:+ b)) = String (upper_char c) (upper a +:+ upper b)).
  rewrite IH. reflexivity.
Qed.

Lemma upper_lstrip (s : string) : upper (lstrip s) = lstrip (upper s).
Proof.
  induction s as [|c s IH]; simpl; [reflexivity|].
  rewrite upper_char_space. destruct (is_space c); [exact IH | reflexivity].
Qed.

Lemma upper_rstrip (s : string) : upper (rstrip s) = rstrip (upper s).
Proof.
  induction s as [|c s IH]; simpl; [reflexivity|].
  rewrite <- IH, upper_char_space.
  destruct (rstrip s); simpl; [destruct (is_space c); reflexivity | reflexivity].
Qed.

Lemma upper_strip (s : string) : upper (strip s) = strip (upper s).
Proof. unfold strip. rewrite upper_rstrip, upper_lstrip. reflexivity. Qed.





Lemma join_cons (sep w w' : string) (ws : list string) :
  join sep (w :: w' :: ws) = w +:+ sep +:+ join sep (w' :: ws).
Proof. reflexivity. Qed.




Lemma upper_join (ws : list string) : upper (join " " ws) = join " " (map upper ws).
Proof.
  induction ws as [|w ws IH]; [reflexivity|].
  destruct ws as [|w' ws]; [reflexivity|].
  rewrite join_cons, !upper_append, IH. reflexivity.
Qed.




(** A text made of words joined by single spaces has nothing to strip. *)
Lemma rstrip_cons (c : ascii) (r : string) :
  rstrip r = r -> r <> EmptyString -> rstrip (String c r) = String c r.
Proof. intros Hr Hne. simpl. rewrite Hr. destruct r; [contradiction | reflexivity]. Qed.

Lemma rstrip_word (w : string) : spaceless w -> rstrip w = w.
Proof.
  intros [Hne Hw]. induction w as [|c w IH]; [contradiction|].
  simpl in Hw. apply andb_true_iff in Hw as [Hc Hw]. apply negb_true_iff in Hc.
  destruct w as [|c' w]; [simpl; rewrite Hc; reflexivity|].
  apply rstrip_cons; [apply IH; [discriminate | exact Hw] | discriminate].
Qed.

Lemma rstrip_append (a r : string) :
  rstrip r = r -> r <> EmptyString -> rstrip (a +:+ r) = a +:+ r.
Proof.
  intros Hr Hne. induction a as [|c a IH]; [exact Hr|].
  rewrite append_cons. apply rstrip_cons; [exact IH|].
  intros H. apply append_empty in H as [_ H]. contradiction.
Qed.

Lemma join_words (ws : list string) :
  Forall spaceless ws -> ws <> [] ->
  rstrip (join " " ws) = join " " ws
  /\ exists c s, join " " ws = String c s /\ is_space c = false.
Proof.
  induction 1 as [|w ws Hword Hws IH]; intros Hne; [contradiction|].
  assert (Hfirst : forall rest, exists c s, w +:+ rest = String c s /\ is_space c = false).
  { intros rest. destruct Hword as [Hw Hchars]. destruct w as [|c w]; [contradiction|].
    simpl in Hchars. apply andb_true_iff in Hchars as [Hc _]. apply negb_true_iff in Hc.
    exists c, (w +:+ rest). split; [reflexivity | exact Hc]. }
  destruct ws as [|w' ws].
  - change (join " " [w]) with w. split; [apply rstrip_word; exact Hword|].
    destruct (Hfirst EmptyString) as (c & s & Hs & Hc). rewrite append_nil_r in Hs. eauto.
  - rewrite join_cons. destruct IH as [IH (c & s & Hs & Hc)]; [discriminate|]. split.
    + rewrite <- append_assoc. apply rstrip_append; [exact IH|]. rewrite Hs. discriminate.
    + apply Hfirst.
Qed.

Lemma strip_join (ws : list string) : Forall spaceless ws -> strip (join " " ws) = join " " ws.
Proof.
  intros Hws. destruct ws as [|w ws]; [reflexivity|].
  destruct (join_words (w :: ws) Hws) as [Hr (c & s & Hs & Hc)]; [discriminate|].
  unfold strip. rewrite Hs at 1. simpl lstrip. rewrite Hc, <- Hs. exact Hr.
Qed.

(** ** Facts about [detect_lock_level] *)




Lemma lock_info_answered (name : string) :
  name ∈ answered_levels ->
  exists info, lock_info name = Ok info /\ level info = name
               /\ (name, (risk info, description info)) ∈ LOCK_LEVELS.
Proof.
  unfold answered_levels. rewrite !elem_of_cons, elem_of_nil.
  intros [->|[->|[->|[->|[->|[]]]]]]; eexists; (split; [reflexivity|]); (split; [reflexivity|]);
    unfold LOCK_LEVELS; cbn [risk description]; repeat constructor.
Qed.

(** ** The properties *)

(** X11: [detect_lock_level] returns for every query: none of its
    lookups in LOCK_LEVELS misses, the risk mark and the description it
    returns are those the table holds for the level, and the level is
    one of five; ROW SHARE, SHARE, SHARE ROW EXCLUSIVE and EXCLUSIVE,
    which the table also describes, are never answered. *)
Theorem detect_lock_level_answers (query : string) :
  exists info,
    detect_lock_level query = Ok info
    /\ level info ∈ answered_levels
    /\ (level info, (risk info, description info)) ∈ LOCK_LEVELS
    /\ level info ∉ ["ROW SHARE"; "SHARE"; "SHARE ROW EXCLUSIVE"; "EXCLUSIVE"].
Proof.
  assert (Hany : forall name, name ∈ answered_levels ->
            exists info, lock_info name = Ok info
                         /\ level info ∈ answered_levels
                         /\ (level info, (risk info, description info)) ∈ LOCK_LEVELS
                         /\ level info ∉ ["ROW SHARE"; "SHARE"; "SHARE ROW EXCLUSIVE"; "EXCLUSIVE"]).
  { intros name Hname. destruct (lock_info_answered name Hname) as (info & Hinfo & Hlevel & Htable).
    exists info. rewrite Hlevel. split; [exact Hinfo|]. split; [exact Hname|]. split; [exact Htable|].
    revert Hname. unfold answered_levels. rewrite !elem_of_cons, !elem_of_nil.
    intros [->|[->|[->|[->|[->|[]]]]]] [H|[H|[H|[H|[]]]]]; discriminate. }
  unfold detect_lock_level. cbv zeta.
  repeat match goal with
         | |- context [if ?b then _ else _] => destruct b
         end;
    apply Hany; unfold answered_levels; repeat constructor.
Qed.


(** * The statistics report *)

Section StatisticsFacts.

Local Open Scope list_scope.

Variable DB : Type.
Variable explain : string -> DB -> DB * result PlanNode.
Variable pg_stat_columns : DB -> DB * result (list string).
Variable top_by_total_time : string -> string -> Z -> DB -> DB * result (list TopRow).
Variable top_by_calls : string -> Z -> DB -> DB * result (list StatRow).
Variable str_exn : exn -> string.

Local Abbreviation analyze_query := (info_about_query.analyze_query DB explain).
Local Abbreviation detailed_query := (info_about_query.detailed_query DB explain str_exn).
Local Abbreviation full_pg_analysis :=
  (info_about_query.full_pg_analysis DB explain pg_stat_columns top_by_total_time
     top_by_calls str_exn).

(** ** Specifications *)

(** The columns the statements name, given the columns the view has. *)
Definition total_column (columns : list string) : string :=
  if bool_decide ("total_exec_time" ∈ columns) then "total_exec_time" else "total_time".
Definition mean_column (columns : list string) : string :=
  if bool_decide ("mean_exec_time" ∈ columns) then "mean_exec_time" else "mean_time".

(** The query text of a top row. *)
Definition query_of (row : TopRow) : string := row.1.1.1.1.1.1.

(** The entry made of a top row, given what [analyze_query] answered. *)
Definition entry_of (calls_threshold : Z) (row : TopRow) (answer : result AnnotatedNode)
    : DetailedQuery.t :=
  let '(query, calls, total_time, mean_time, rows_count, blks_read, blks_hit) := row in
  {| DetailedQuery.query := strip query;
     DetailedQuery.calls := calls;
     DetailedQuery.total_exec_time_ms := round2 (Float total_time);
     DetailedQuery.mean_exec_time_ms := round2 (Float mean_time);
     DetailedQuery.rows := rows_count;
     DetailedQuery.blks_read := blks_read;
     DetailedQuery.blks_hit := blks_hit;
     DetailedQuery.recommendations :=
       query_recommendations calls_threshold calls mean_time blks_read blks_hit;
     DetailedQuery.plan :=
       match answer with
       | Ok tree => PlanTree tree
       | Raise e => PlanError (str_exn e)
       end |}.

(** The database after the queries of the rows were explained, one
    after the other. *)
Definition explained (rows : list TopRow) (d : DB) : DB :=
  foldl (fun d row => (explain (query_of row) d).1) d rows.

(** The entries of the rows, each query being explained in the state
    the queries before it left. *)
Fixpoint entries_of (calls_threshold : Z) (rows : list TopRow) (d : DB) : list DetailedQuery.t :=
  match rows with
  | [] => []
  | row :: rows' =>
      entry_of calls_threshold row (analyze_query (query_of row) d).2
      :: entries_of calls_threshold rows' (explain (query_of row) d).1
  end.

(** ** Facts *)

Lemma analyze_query_state (query : string) (d : DB) :
  (analyze_query query d).1 = (explain query d).1.
Proof. unfold info_about_query.analyze_query. destruct (explain query d). reflexivity. Qed.

Lemma detailed_query_run (calls_threshold : Z) (row : TopRow) (d : DB) :
  detailed_query calls_threshold row d
  = ((explain (query_of row) d).1,
     entry_of calls_threshold row (analyze_query (query_of row) d).2).
Proof.
  destruct row as [[[[[[query calls] total_time] mean_time] rows_count] blks_read] blks_hit].
  unfold info_about_query.detailed_query, plan_or_error, entry_of, query_of. cbn [fst snd].
  rewrite <- analyze_query_state.
  destruct (analyze_query query d) as [d' [tree|e]]; reflexivity.
Qed.

Lemma detailed_loop (calls_threshold : Z) (rows : list TopRow) :
  forall d entries,
    foldl (fun '(d, detailed_queries) row =>
             let '(d', entry) := detailed_query calls_threshold row d in
             (d', append detailed_queries entry))
          (d, entries) rows
    = (explained rows d, entries ++ entries_of calls_threshold rows d).
Proof.
  induction rows as [|row rows IH]; intros d entries; simpl.
  - rewrite app_nil_r. reflexivity.
  - rewrite detailed_query_run, IH. unfold append. rewrite <- app_assoc. reflexivity.
Qed.

(** One run of the analysis, step by step. *)
Lemma full_pg_analysis_run (top_n calls_threshold : Z) (max_mean_time_ms : num) (max_rows : Z)
    (d : DB) :
  full_pg_analysis top_n calls_threshold max_mean_time_ms max_rows d =
  match (pg_stat_columns d).2 with
  | Raise e => ((pg_stat_columns d).1, Raise e)
  | Ok columns =>
      let d1 := (pg_stat_columns d).1 in
      let top := top_by_total_time (total_column columns) (mean_column columns) top_n d1 in
      match top.2 with
      | Raise e => (top.1, Raise e)
      | Ok rows =>
          let d3 := explained rows top.1 in
          let by_calls := top_by_calls (mean_column columns) (top_n * 2) d3 in
          (by_calls.1,
           match by_calls.2 with
           | Raise e => Raise e
           | Ok rows2 =>
               Ok {| Report.detailed_queries := entries_of calls_threshold rows top.1;
                     Report.n_plus_one_suspects :=
                       n_plus_one_suspects calls_threshold max_mean_time_ms max_rows rows2 |}
           end)
      end
  end.
Proof.
  unfold info_about_query.full_pg_analysis, total_column, mean_column.
  destruct (pg_stat_columns d) as [d1 [columns|e]]; cbn [fst snd]; [|reflexivity].
  cbv zeta.
  destruct (top_by_total_time _ _ top_n d1) as [d2 [rows|e]]; cbn [fst snd]; [|reflexivity].
  rewrite detailed_loop. cbn [app].
  destruct (top_by_calls _ (top_n * 2) (explained rows d2)) as [d4 [rows2|e]]; reflexivity.
Qed.

Lemma entries_of_length (calls_threshold : Z) (rows : list TopRow) :
  forall d, length (entries_of calls_threshold rows d) = length rows.
Proof. induction rows as [|row rows IH]; intros d; simpl; [reflexivity | rewrite IH; reflexivity]. Qed.

Lemma entries_of_rows (calls_threshold : Z) (rows : list TopRow) :
  forall d,
    Forall2 (fun row entry =>
               exists d', entry = entry_of calls_threshold row (analyze_query (query_of row) d').2)
      rows (entries_of calls_threshold rows d).
Proof.
  induction rows as [|row rows IH]; intros d; simpl; constructor; [|apply IH].
  exists d. reflexivity.
Qed.

Lemma entry_of_query (calls_threshold : Z) (row : TopRow) (answer : result AnnotatedNode) :
  DetailedQuery.query (entry_of calls_threshold row answer) = strip (query_of row).
Proof.
  destruct row as [[[[[[query calls] total_time] mean_time] rows_count] blks_read] blks_hit].
  reflexivity.
Qed.

Lemma entry_of_plan (calls_threshold : Z) (row : TopRow) (answer : result AnnotatedNode) :
  DetailedQuery.plan (entry_of calls_threshold row answer)
  = match answer with
    | Ok tree => PlanTree tree
    | Raise e => PlanError (str_exn e)
    end.
Proof.
  destruct row as [[[[[[query calls] total_time] mean_time] rows_count] blks_read] blks_hit].
  reflexivity.
Qed.

Lemma analyze_query_untyped (query : string) (d : DB) (p : PlanNode) :
  (explain query d).2 = Ok p -> everywhere figures_bounded p -> ~ everywhere typed p ->
  (analyze_query query d).2 = Raise AttributeError.
Proof.
  intros Hp Hb Ht. unfold info_about_query.analyze_query.
  destruct (explain query d) as [d' answer]. simpl in Hp. subst. simpl.
  destruct (extract_metrics_typed_or_raises p Hb default_seq_page_cost default_cpu_tuple_cost)
    as [[Ht' _] | [_ Ha]]; [contradiction | exact Ha].
Qed.

Lemma analyze_query_unexplained (query : string) (d : DB) (e : exn) :
  (explain query d).2 = Raise e -> (analyze_query query d).2 = Raise e.
Proof.
  intros He. unfold info_about_query.analyze_query.
  destruct (explain query d) as [d' answer]. simpl in He. subst. reflexivity.
Qed.

(** ** The properties *)

(** X13: when its three statements on pg_stat_statements are answered,
    [full_pg_analysis] returns a report with one detailed entry for
    every top row, in the order of the rows, whatever EXPLAIN answers
    for their queries: a query whose EXPLAIN fails, or whose plan has a
    node without a type, gets the text of the exception in place of a
    plan, and the rows after it are still analysed. The suspects are
    those of the rows of the third statement, which is asked for twice
    as many rows as the second. *)
Theorem plan_failures_are_recorded (top_n calls_threshold : Z) (max_mean_time_ms : num)
    (max_rows : Z) (d : DB) (columns : list string) (rows : list TopRow)
    (rows2 : list StatRow) :
  let top := top_by_total_time (total_column columns) (mean_column columns) top_n
               (pg_stat_columns d).1 in
  (pg_stat_columns d).2 = Ok columns ->
  top.2 = Ok rows ->
  (top_by_calls (mean_column columns) (top_n * 2) (explained rows top.1)).2 = Ok rows2 ->
  exists report,
    (full_pg_analysis top_n calls_threshold max_mean_time_ms max_rows d).2 = Ok report
    /\ Report.n_plus_one_suspects report
       = n_plus_one_suspects calls_threshold max_mean_time_ms max_rows rows2
    /\ map DetailedQuery.query (Report.detailed_queries report)
       = map (fun row => strip (query_of row)) rows
    /\ Forall2 (fun row entry =>
                  exists d',
                    entry = entry_of calls_threshold row (analyze_query (query_of row) d').2
                    /\ (forall e, (explain (query_of row) d').2 = Raise e ->
                          DetailedQuery.plan entry = PlanError (str_exn e))
                    /\ (forall p, (explain (query_of row) d').2 = Ok p ->
                          everywhere figures_bounded p -> ~ everywhere typed p ->
                          DetailedQuery.plan entry = PlanError (str_exn AttributeError)))
         rows (Report.detailed_queries report).
Proof.
  intros top Hcolumns Hrows Hrows2. eexists. rewrite full_pg_analysis_run, Hcolumns.
  cbv zeta. fold top. rewrite Hrows. cbn [snd]. rewrite Hrows2.
  split; [reflexivity|]. split; [reflexivity|]. cbn [Report.detailed_queries]. split.
  - generalize top.1. clear. induction rows as [|row rows IH]; intros d; simpl; [reflexivity|].
    rewrite entry_of_query, IH. reflexivity.
  - eapply Forall2_impl; [apply entries_of_rows|].
    intros row entry [d' ->]. exists d'. split; [reflexivity|]. split.
    + intros e He. rewrite entry_of_plan, (analyze_query_unexplained _ _ _ He). reflexivity.
    + intros p Hp Hb Ht. rewrite entry_of_plan, (analyze_query_untyped _ _ _ Hp Hb Ht). reflexivity.
Qed.

(** X14: a failure of one of the three statements on pg_stat_statements
    is not caught: it ends [full_pg_analysis] with the statement's
    exception and no report, also when it is the last statement that
    fails and the detailed entries are all made. *)
Theorem statistics_failure_aborts (top_n calls_threshold : Z) (max_mean_time_ms : num)
    (max_rows : Z) (d : DB) (e : exn) :
  let run := full_pg_analysis top_n calls_threshold max_mean_time_ms max_rows d in
  ((pg_stat_columns d).2 = Raise e -> run = ((pg_stat_columns d).1, Raise e))
  /\ (forall columns,
        (pg_stat_columns d).2 = Ok columns ->
        let top := top_by_total_time (total_column columns) (mean_column columns) top_n
                     (pg_stat_columns d).1 in
        (top.2 = Raise e -> run = (top.1, Raise e))
        /\ (forall rows,
              top.2 = Ok rows ->
              let by_calls := top_by_calls (mean_column columns) (top_n * 2)
                                (explained rows top.1) in
              by_calls.2 = Raise e -> run = (by_calls.1, Raise e))).
Proof.
  cbv zeta. rewrite full_pg_analysis_run. split.
  - intros ->. reflexivity.
  - intros columns ->. cbv zeta. split.
    + intros ->. reflexivity.
    + intros rows ->. intros ->. reflexivity.
Qed.

End StatisticsFacts.

(** ** The report on a sample view *)

(** A view whose two rows are a query that cannot be explained and a
    query with a plan. *)
Definition sample_top_rows : list TopRow :=
  [("SELECT broken", 10, nearest_float 20, nearest_float 2, 1, 0, 5);
   (" SELECT 1 ", 2000, nearest_float 120000, nearest_float 60, 1, 7, 5)].

Definition sample_explain (query : string) (d : unit) : unit * result PlanNode :=
  (d, if String.eqb query "SELECT broken" then Raise lost else Ok (leaf "Result" 1 4)).

Definition sample_exn_text (e : exn) : string :=
  match e with
  | DatabaseError msg => msg
  | _ => "error"
  end.

Lemma plan_failures_are_recorded_witness :
  exists report,
    (full_pg_analysis unit sample_explain (fun d => (d, Ok ["total_exec_time"; "mean_exec_time"]))
       (fun _ _ _ d => (d, Ok sample_top_rows)) (fun _ _ d => (d, Ok [])) sample_exn_text
       5 1000 (Int 10) 10 tt).2 = Ok report
    /\ map DetailedQuery.query (Report.detailed_queries report) = ["SELECT broken"; "SELECT 1"]
    /\ map DetailedQuery.plan (Report.detailed_queries report)
       = [PlanError "connection lost";
          match extract_metrics (leaf "Result" 1 4) default_seq_page_cost default_cpu_tuple_cost with
          | Ok tree => PlanTree tree
          | Raise e => PlanError (sample_exn_text e)
          end].
Proof.
  destruct (plan_failures_are_recorded unit sample_explain
              (fun d => (d, Ok ["total_exec_time"; "mean_exec_time"]))
              (fun _ _ _ d => (d, Ok sample_top_rows)) (fun _ _ d => (d, Ok [])) sample_exn_text
              5 1000 (Int 10) 10 tt ["total_exec_time"; "mean_exec_time"] sample_top_rows []
              eq_refl eq_refl eq_refl)
    as (report & Hreport & _ & Hqueries & Hentries).
  exists report. split; [exact Hreport|]. split; [exact Hqueries|].
  inversion Hentries as [|? e1 ? ? (d1 & -> & _) Hrest]; subst.
  inversion Hrest as [|? e2 ? ? (d2 & -> & _) Hnil]; subst.
  inversion Hnil; subst. reflexivity.
Defined.

Lemma statistics_failure_aborts_witness :
  full_pg_analysis unit sample_explain (fun d => (d, Ok ["total_exec_time"; "mean_exec_time"]))
    (fun _ _ _ d => (d, Ok sample_top_rows)) (fun _ _ d => (d, Raise lost)) sample_exn_text
    5 1000 (Int 10) 10 tt
  = (tt, Raise lost).
Proof.
  destruct (statistics_failure_aborts unit sample_explain
              (fun d => (d, Ok ["total_exec_time"; "mean_exec_time"]))
              (fun _ _ _ d => (d, Ok sample_top_rows)) (fun _ _ d => (d, Raise lost))
              sample_exn_text 5 1000 (Int 10) 10 tt lost) as [_ Hlater].
  destruct (Hlater ["total_exec_time"; "mean_exec_time"] eq_refl) as [_ Hlast].
  exact (Hlast sample_top_rows eq_refl eq_refl).
Defined.

(** * The printed report *)

Section ReportFacts.

Local Open Scope list_scope.

Variable DB : Type.
Variable explain : string -> DB -> DB * result PlanNode.
Variable pg_stat_columns : DB -> DB * result (list string).
Variable top_by_total_time : string -> string -> Z -> DB -> DB * result (list TopRow).
Variable top_by_calls : string -> Z -> DB -> DB * result (list StatRow).
Variable str_exn : exn -> string.
Variable repr_float : float -> string.

Local Abbreviation full_pg_analysis :=
  (info_about_query.full_pg_analysis DB explain pg_stat_columns top_by_total_time
     top_by_calls str_exn).
Local Abbreviation print_full_pg_report := (info_about_query.print_full_pg_report repr_float).

(** ** Specifications *)

(** The plan of the entry, when it has one, is a tree that
    [extract_metrics] returned. *)
Definition extracted_plan (q : DetailedQuery.t) : Prop :=
  match DetailedQuery.plan q with
  | PlanTree tree => exists p spc ctc, extract_metrics p spc ctc = Ok tree
  | PlanError _ => True
  end.

(** The computation prints and returns, whatever was printed before. *)
Definition returns (printing : Printing unit) : Prop :=
  exists lines, forall out, printing out = (out ++ lines, Ok tt).

(** ** Facts *)

Lemma returns_print (line : string) : returns (print line).
Proof. exists [line]. reflexivity. Qed.

Lemma returns_then (first next : Printing unit) :
  returns first -> returns next -> returns (then_print first next).
Proof.
  intros [l1 H1] [l2 H2]. exists (l1 ++ l2). intros out.
  unfold then_print. rewrite H1, H2, app_assoc. reflexivity.
Qed.

Lemma returns_each {A} (body : A -> Printing unit) (xs : list A) :
  Forall (fun x => returns (body x)) xs -> returns (print_each body xs).
Proof.
  induction 1 as [|x xs Hx _ IH]; simpl.
  - exists []. intros out. rewrite app_nil_r. reflexivity.
  - apply returns_then; assumption.
Qed.

Lemma returns_detailed_query (q : DetailedQuery.t) :
  extracted_plan q -> returns (print_detailed_query repr_float q).
Proof.
  intros Hq. unfold print_detailed_query.
  repeat (apply returns_then; [apply returns_print|]).
  apply returns_then.
  - apply returns_each. apply Forall_forall. intros r _. apply returns_print.
  - unfold extracted_plan in Hq. destruct (DetailedQuery.plan q) as [tree|error].
    + destruct Hq as (p & spc & ctc & Hp).
      destruct (pretty_plan_prints repr_float p spc ctc tree 1%nat Hp) as (lines & Hlines & _).
      exists lines. exact Hlines.
    + apply returns_print.
Qed.

Lemma returns_suspect (s : Suspect) : returns (print_suspect repr_float s).
Proof.
  unfold print_suspect. repeat (apply returns_then; [apply returns_print|]). apply returns_print.
Qed.

Lemma analyze_query_extracted (query : string) (d : DB) (tree : AnnotatedNode) :
  (analyze_query DB explain query d).2 = Ok tree ->
  exists p spc ctc, extract_metrics p spc ctc = Ok tree.
Proof.
  unfold analyze_query. destruct (explain query d) as [d' [p|e]]; simpl; [|discriminate].
  intros H. eauto.
Qed.

Lemma entries_of_extracted (calls_threshold : Z) (rows : list TopRow) (d : DB) :
  Forall extracted_plan (entries_of DB explain str_exn calls_threshold rows d).
Proof.
  pose proof (entries_of_rows DB explain str_exn calls_threshold rows d) as H.
  induction H as [|row entry rows entries [d' ->] _ IH]; constructor; [|exact IH].
  unfold extracted_plan. rewrite entry_of_plan.
  destruct ((analyze_query DB explain (query_of row) d').2) as [tree|e] eqn:Ha; [|exact I].
  exact (analyze_query_extracted _ _ _ Ha).
Qed.

(** ** The property *)

(** X19: [print_full_pg_report] never fails on a report that
    [full_pg_analysis] returned: it prints its lines after what was on
    the console, the heading of the detailed analysis first, the plan
    of every entry that has one through [pretty_plan] and the error
    text of the others. *)
Theorem report_is_printed (top_n calls_threshold : Z) (max_mean_time_ms : num)
    (max_rows : Z) (d : DB) (report : Report.t) (out : list string) :
  (full_pg_analysis top_n calls_threshold max_mean_time_ms max_rows d).2 = Ok report ->
  exists lines,
    print_full_pg_report report out
    = (out ++ (line_break +:+ "=== 🔍 ДЕТАЛЬНЫЙ АНАЛИЗ ТОП-ЗАПРОСОВ ===") :: lines, Ok tt).
Proof.
  rewrite full_pg_analysis_run.
  destruct ((pg_stat_columns d).2) as [columns|e]; [|discriminate]. cbv zeta.
  destruct ((top_by_total_time _ _ top_n _).2) as [rows|e]; [|discriminate]. cbn [snd].
  destruct ((top_by_calls _ _ _).2) as [rows2|e]; [|discriminate]. intros [= <-].
  unfold info_about_query.print_full_pg_report. cbn [Report.detailed_queries Report.n_plus_one_suspects].
  assert (Hrest : returns
            (then_print (print_each (print_detailed_query repr_float)
                           (entries_of DB explain str_exn calls_threshold rows
                              (top_by_total_time (total_column columns) (mean_column columns)
                                 top_n (pg_stat_columns d).1).1))
               (then_print (print (line_break +:+ "=== 🐢 ПОДОЗРЕНИЕ НА N+1 ==="))
                  (then_print
                     (match n_plus_one_suspects calls_threshold max_mean_time_ms max_rows rows2 with
                      | [] => print "✅ N+1 запросов не найдено"
                      | _ => fun out => (out, Ok tt)
                      end)
                     (print_each (print_suspect repr_float)
                        (n_plus_one_suspects calls_threshold max_mean_time_ms max_rows rows2)))))).
  { apply returns_then.
    - apply returns_each. eapply Forall_impl; [apply entries_of_extracted|].
      intros q. apply returns_detailed_query.
    - apply returns_then; [apply returns_print|]. apply returns_then.
      + destruct (n_plus_one_suspects _ _ _ rows2); [apply returns_print|].
        exists []. intros o. rewrite app_nil_r. reflexivity.
      + apply returns_each. apply Forall_forall. intros s _. apply returns_suspect. }
  destruct Hrest as [lines Hlines]. exists lines.
  unfold then_print at 1, print at 1, append. rewrite Hlines, <- app_assoc. reflexivity.
Qed.

End ReportFacts.

Lemma report_is_printed_witness :
  exists report lines,
    (full_pg_analysis unit sample_explain (fun d => (d, Ok ["total_exec_time"; "mean_exec_time"]))
       (fun _ _ _ d => (d, Ok sample_top_rows)) (fun _ _ d => (d, Ok [])) sample_exn_text
       5 1000 (Int 10) 10 tt).2 = Ok report
    /\ print_full_pg_report (fun _ => "0.0") report []
       = ((line_break +:+ "=== 🔍 ДЕТАЛЬНЫЙ АНАЛИЗ ТОП-ЗАПРОСОВ ===") :: lines, Ok tt).
Proof.
  assert (H : exists report,
            (full_pg_analysis unit sample_explain
               (fun d => (d, Ok ["total_exec_time"; "mean_exec_time"]))
               (fun _ _ _ d => (d, Ok sample_top_rows)) (fun _ _ d => (d, Ok [])) sample_exn_text
               5 1000 (Int 10) 10 tt).2 = Ok report)
    by (eexists; vm_compute; reflexivity).
  destruct H as [report H].
  destruct (report_is_printed unit sample_explain
              (fun d => (d, Ok ["total_exec_time"; "mean_exec_time"]))
              (fun _ _ _ d => (d, Ok sample_top_rows)) (fun _ _ d => (d, Ok [])) sample_exn_text
              (fun _ => "0.0") 5 1000 (Int 10) 10 tt report [] H) as [lines Hlines].
  exists report, lines. split; [exact H | exact Hlines].
Defined.

(** * The index advisor *)

Import rec_query.

(** ** Specifications *)

Section AdvisorFacts.

Local Open Scope list_scope.

(** The iteration order of a set of strings, which enumerates each
    distinct string once. *)
Variable set_order : list string -> list string.

Variable DB : Type.
Variable explain : string -> DB -> DB * result PlanNode.
Variable pg_indexes : string -> DB -> DB * result (list IndexRow).
Variable pg_unused_indexes : Z -> DB -> DB * result (list UnusedRow).

Local Abbreviation columns := (extract_columns_from_filter set_order).
Local Abbreviation visit := (rec_query.visit set_order DB pg_indexes).
Local Abbreviation walk := (rec_query.walk set_order DB pg_indexes).
Local Abbreviation recommend_indexes :=
  (rec_query.recommend_indexes set_order DB explain pg_indexes pg_unused_indexes).

(** The add-index advice on a sequential scan with a filter. *)
Definition scan_filter_recommendation (relation filter_cond : string) : Recommendation :=
  {| type := "add_index"; priority := "high";
     message := seq_scan_filter_message relation filter_cond (columns filter_cond) |}.

(** The partitioning advice on a sequential scan with no filter. *)
Definition scan_plain_recommendation (relation : string) : Recommendation :=
  {| type := "add_index"; priority := "medium";
     message := seq_scan_plain_message relation |}.

(** What the three rules of [walk] say of one node, given the index
    rows held for its relation. *)
Definition seq_scan_advice (existing : list IndexRow) (node : PlanNode) : list Recommendation :=
  if String.eqb (default EmptyString (Node_Type node)) "Seq Scan" && truthy (Relation_Name node)
  then
    if truthy (Filter node)
    then
      if nonempty (columns (held (Filter node)))
         && no_index_covers (columns (held (Filter node))) existing
      then [scan_filter_recommendation (held (Relation_Name node)) (held (Filter node))]
      else []
    else [scan_plain_recommendation (held (Relation_Name node))]
  else [].

Definition join_advice (node : PlanNode) : list Recommendation :=
  if String.eqb (default EmptyString (Node_Type node)) "Nested Loop" && truthy (Join_Filter node)
     && nonempty (columns (held (Join_Filter node)))
  then [{| type := "add_index"; priority := "medium";
           message := nested_loop_join_message (held (Join_Filter node))
                        (columns (held (Join_Filter node))) |}]
  else [].

Definition sort_advice (existing : list IndexRow) (node : PlanNode) : list Recommendation :=
  if nonempty (default [] (Sort_Key node)) && truthy (Relation_Name node)
     && no_index_contains (String.concat ", " (default [] (Sort_Key node))) existing
  then [{| type := "add_index"; priority := "low";
           message := sort_message (held (Relation_Name node)) (default [] (Sort_Key node)) |}]
  else [].

Definition node_advice (existing : list IndexRow) (node : PlanNode) : list Recommendation :=
  seq_scan_advice existing node ++ join_advice node ++ sort_advice existing node.

(** The state with more advice appended. *)
Definition advised (st : State DB) (recs : list Recommendation) : State DB :=
  mkState (db st) (trace st) (recommendations st ++ recs) (seen_tables st).

(** The state after the index rows of [table] were asked for. *)
Definition asked (st : State DB) (table : string) : State DB :=
  mkState (pg_indexes table (db st)).1
          (trace st ++ [FetchedIndexes table (pg_indexes table (db st)).2])
          (recommendations st) (seen_tables st).

(** The state after the rows were stored under [table]. *)
Definition stored (st : State DB) (table : string) (rows : list IndexRow) : State DB :=
  mkState (db st) (trace st) (recommendations st)
          (<[table := rows]> (seen_tables st)).

(** The tables whose index rows the connection was asked for. *)
Definition fetched (tr : list Event) : list string :=
  omap (fun ev => match ev with FetchedIndexes t _ => Some t | _ => None end) tr.

(** The errors of the catalog lookups that failed. *)
Definition failures (tr : list Event) : list exn :=
  omap (fun ev => match ev with
                  | FetchedIndexes _ (Raise e) | FetchedUnused _ (Raise e) => Some e
                  | _ => None
                  end) tr.

(** The advice on a whole plan, in the order of the walk, every node
    reading the index rows of its relation from one and the same
    catalog snapshot. *)
Fixpoint plan_advice (catalog : gmap string (list IndexRow)) (node : PlanNode)
    : list Recommendation :=
  node_advice (default [] (catalog !! held (Relation_Name node))) node
  ++ concat (map (plan_advice catalog) (Plans node)).

(** Every relation named in the plan has its rows in the catalog
    snapshot. *)
Definition covers (catalog : gmap string (list IndexRow)) : PlanNode -> Prop :=
  everywhere (fun n => truthy (Relation_Name n) = true ->
                       is_Some (catalog !! held (Relation_Name n))).

(** The memo and the trace agree: no table was asked for twice, every
    table asked for is in the memo, and the memo holds what the
    connection answered. *)
Definition sound (st : State DB) : Prop :=
  NoDup (fetched (trace st))
  /\ (forall t, t ∈ fetched (trace st) -> is_Some (seen_tables st !! t))
  /\ (forall t rows, seen_tables st !! t = Some rows ->
        FetchedIndexes t (Ok rows) ∈ trace st).

(** What a part of the walk leaves behind, from [st] to [st'] with
    result [r]: no table asked for twice; on an exception, that error as
    the one new failure; on a return, agreement of memo and trace, a
    memo that only grew, no new failure, the relations [cov] speaks of
    in the memo, and the advice [adv] appended. *)
Definition outcome (st st' : State DB) (r : result unit)
    (cov : gmap string (list IndexRow) -> Prop)
    (adv : gmap string (list IndexRow) -> list Recommendation) : Prop :=
  NoDup (fetched (trace st'))
  /\ (forall e, r = Raise e -> failures (trace st') = failures (trace st) ++ [e])
  /\ (r = Ok tt ->
      sound st'
      /\ seen_tables st ⊆ seen_tables st'
      /\ failures (trace st') = failures (trace st)
      /\ cov (seen_tables st')
      /\ recommendations st' = recommendations st ++ adv (seen_tables st')).

(** ** Facts about [walk] *)

Ltac step := cbv beta iota; cbn [db trace recommendations seen_tables fst snd].

Ltac split_ifs :=
  repeat (step; cbn [andb app];
          rewrite ?lookup_insert_eq, ?andb_false_r;
          try match goal with
              | |- context [if ?b then _ else _] => destruct b
              end).

(** One visit, step by step. *)
Lemma visit_run (node : PlanNode) (st : State DB) :
  visit node st =
  if truthy (Relation_Name node)
  then
    let r := held (Relation_Name node) in
    match seen_tables st !! r with
    | Some rows => (advised st (node_advice rows node), Ok tt)
    | None =>
        match (pg_indexes r (db st)).2 with
        | Ok rows => (advised (stored (asked st r) r rows) (node_advice rows node), Ok tt)
        | Raise e => (asked st r, Raise e)
        end
    end
  else (advised st (node_advice [] node), Ok tt).
Proof.
  destruct st as [d tr recs sn].
  unfold rec_query.visit, node_advice, seq_scan_advice, join_advice, sort_advice,
    advised, stored, asked, skip, recommend, seen, not_seen, remember,
    get_existing_indexes, scan_filter_recommendation, scan_plain_recommendation, append.
  unfold mbind, mret, M_bind, M_ret.
  destruct (truthy (Relation_Name node)) eqn:Hrel; step.
  - destruct (sn !! held (Relation_Name node)) as [rows|] eqn:Hseen.
    + rewrite (bool_decide_eq_false_2 (Some rows = None)) by done.
      repeat (step; cbn [andb app]; rewrite ?Hseen;
              try match goal with
                  | |- context [if ?b then _ else _] => destruct b
                  end).
      all: rewrite ?app_nil_r, <- ?app_assoc; reflexivity.
    + rewrite (bool_decide_eq_true_2 (None = None)) by done. step.
      destruct (pg_indexes (held (Relation_Name node)) d) as [d' [rows|e]]; step; [|reflexivity].
      split_ifs.
      all: rewrite ?app_nil_r, <- ?app_assoc; reflexivity.
  - split_ifs.
    all: rewrite ?app_nil_r, <- ?app_assoc; reflexivity.
Qed.


Lemma fetched_app (tr tr' : list Event) : fetched (tr ++ tr') = fetched tr ++ fetched tr'.
Proof. apply omap_app. Qed.

Lemma failures_app (tr tr' : list Event) : failures (tr ++ tr') = failures tr ++ failures tr'.
Proof. apply omap_app. Qed.

Lemma node_advice_no_relation (rows : list IndexRow) (node : PlanNode) :
  truthy (Relation_Name node) = false -> node_advice rows node = node_advice [] node.
Proof.
  intros Hrel. unfold node_advice, seq_scan_advice, sort_advice.
  rewrite Hrel, !andb_false_r. reflexivity.
Qed.

Lemma visit_outcome (node : PlanNode) (st : State DB) :
  sound st ->
  outcome st (visit node st).1 (visit node st).2
    (fun c => truthy (Relation_Name node) = true -> is_Some (c !! held (Relation_Name node)))
    (fun c => node_advice (default [] (c !! held (Relation_Name node))) node).
Proof.
  intros (Hnd & Hin & Hmemo). rewrite visit_run.
  destruct (truthy (Relation_Name node)) eqn:Hrel; cbv zeta.
  - destruct (seen_tables st !! held (Relation_Name node)) as [rows|] eqn:Hseen.
    + unfold outcome, sound, advised. step.
      split; [exact Hnd|]. split; [discriminate|]. intros _.
      split; [split; [|split]; assumption|]. split; [reflexivity|]. split; [reflexivity|].
      rewrite Hseen. split; [eauto | reflexivity].
    + assert (Hfresh : held (Relation_Name node) ∉ fetched (trace st)).
      { intros Hf. apply Hin in Hf as [rows Hrows]. congruence. }
      assert (Hnd' : NoDup (fetched (trace st ++ [FetchedIndexes (held (Relation_Name node))
                                                    (pg_indexes (held (Relation_Name node)) (db st)).2]))).
      { rewrite fetched_app. simpl. apply NoDup_app. split; [exact Hnd|]. split.
        - intros t Ht Ht'. apply list_elem_of_singleton in Ht'. subst. contradiction.
        - apply NoDup_singleton. }
      unfold outcome, sound, advised, stored, asked.
      destruct ((pg_indexes (held (Relation_Name node)) (db st)).2) as [rows|e] eqn:Hans; step.
      * split; [exact Hnd'|]. split; [discriminate|]. intros _.
        split; [|split; [|split; [|split]]].
        -- split; [exact Hnd'|]. split.
           ++ intros t Ht. rewrite fetched_app in Ht. simpl in Ht.
              apply elem_of_app in Ht as [Ht|Ht].
              ** destruct (Hin t Ht) as [rows' Hrows'].
                 destruct (decide (held (Relation_Name node) = t)) as [->|Hne];
                   [rewrite lookup_insert_eq | rewrite lookup_insert_ne by assumption]; eauto.
              ** apply list_elem_of_singleton in Ht. subst. rewrite lookup_insert_eq. eauto.
           ++ intros t rows' Ht.
              destruct (decide (held (Relation_Name node) = t)) as [<-|Hne].
              ** rewrite lookup_insert_eq in Ht. injection Ht as <-.
                 apply elem_of_app. right. constructor.
              ** rewrite lookup_insert_ne in Ht by assumption. apply Hmemo in Ht.
                 apply elem_of_app. left. exact Ht.
        -- apply insert_subseteq. exact Hseen.
        -- rewrite failures_app. simpl. apply app_nil_r.
        -- intros _. rewrite lookup_insert_eq. eauto.
        -- rewrite lookup_insert_eq. reflexivity.
      * split; [exact Hnd'|]. split; [|discriminate].
        intros e' [= <-]. rewrite failures_app. reflexivity.
  - unfold outcome, sound, advised. step.
    split; [exact Hnd|]. split; [discriminate|]. intros _.
    split; [split; [|split]; assumption|]. split; [reflexivity|]. split; [reflexivity|].
    split; [discriminate|].
    rewrite (node_advice_no_relation
               (default [] (seen_tables st !! held (Relation_Name node))) node Hrel).
    reflexivity.
Qed.

Lemma outcome_raise (st st' : State DB) (e : exn) cov adv cov' adv' :
  outcome st st' (Raise e) cov adv -> outcome st st' (Raise e) cov' adv'.
Proof.
  intros (Hnd & Hraise & _). split; [exact Hnd|]. split; [exact Hraise | discriminate].
Qed.

Lemma outcome_ext (st st' : State DB) (r : result unit) cov adv cov' adv' :
  outcome st st' r cov adv ->
  (forall c, cov c -> cov' c) -> (forall c, adv c = adv' c) ->
  outcome st st' r cov' adv'.
Proof.
  intros (Hnd & Hraise & Hok) Hcov Hadv. split; [exact Hnd|]. split; [exact Hraise|].
  intros Hr. destruct (Hok Hr) as (Hs & Hsub & Hf & Hc & Hrecs).
  rewrite Hadv in Hrecs. auto 10.
Qed.

Lemma outcome_seq (st st1 st2 : State DB) (r : result unit) cov1 adv1 cov2 adv2 :
  outcome st st1 (Ok tt) cov1 adv1 ->
  (sound st1 -> outcome st1 st2 r cov2 adv2) ->
  (forall c c', cov1 c -> c ⊆ c' -> cov1 c' /\ adv1 c' = adv1 c) ->
  outcome st st2 r (fun c => cov1 c /\ cov2 c) (fun c => adv1 c ++ adv2 c).
Proof.
  intros (_ & _ & H1) H2 Hweak.
  destruct (H1 eq_refl) as (Hs1 & Hsub1 & Hf1 & Hc1 & Hrecs1).
  destruct (H2 Hs1) as (Hnd2 & Hraise2 & Hok2).
  split; [exact Hnd2|]. split.
  - intros e He. rewrite (Hraise2 e He), Hf1. reflexivity.
  - intros Hr. destruct (Hok2 Hr) as (Hs2 & Hsub2 & Hf2 & Hc2 & Hrecs2).
    destruct (Hweak _ _ Hc1 Hsub2) as [Hc1' Hadv1].
    split; [exact Hs2|]. split; [etrans; eassumption|]. split; [congruence|].
    split; [split; assumption|].
    rewrite Hrecs2, Hrecs1, Hadv1, app_assoc. reflexivity.
Qed.

Lemma walk_unfold (node : PlanNode) (st : State DB) :
  walk node st =
  match visit node st with
  | (st1, Ok _) => for_each walk (Plans node) st1
  | (st1, Raise e) => (st1, Raise e)
  end.
Proof. destruct node; reflexivity. Qed.

Lemma for_each_cons {A} (body : A -> M DB unit) (x : A) (xs : list A) (st : State DB) :
  for_each body (x :: xs) st =
  match body x st with
  | (st1, Ok _) => for_each body xs st1
  | (st1, Raise e) => (st1, Raise e)
  end.
Proof. reflexivity. Qed.

Lemma plan_advice_unfold (c : gmap string (list IndexRow)) (node : PlanNode) :
  plan_advice c node =
  node_advice (default [] (c !! held (Relation_Name node))) node
  ++ concat (map (plan_advice c) (Plans node)).
Proof. destruct node; reflexivity. Qed.

Lemma visit_advice_weaken (node : PlanNode) (c c' : gmap string (list IndexRow)) :
  (truthy (Relation_Name node) = true -> is_Some (c !! held (Relation_Name node))) ->
  c ⊆ c' ->
  (truthy (Relation_Name node) = true -> is_Some (c' !! held (Relation_Name node)))
  /\ node_advice (default [] (c' !! held (Relation_Name node))) node
     = node_advice (default [] (c !! held (Relation_Name node))) node.
Proof.
  intros Hc Hsub. destruct (truthy (Relation_Name node)) eqn:Hrel.
  - destruct (Hc eq_refl) as [rows Hrows].
    rewrite Hrows, (lookup_weaken _ _ _ _ Hrows Hsub). eauto.
  - split; [discriminate|].
    rewrite (node_advice_no_relation (default [] (c' !! _)) node Hrel).
    rewrite (node_advice_no_relation (default [] (c !! _)) node Hrel). reflexivity.
Qed.

Lemma plan_advice_weaken (node : PlanNode) :
  forall c c', covers c node -> c ⊆ c' ->
    covers c' node /\ plan_advice c' node = plan_advice c node.
Proof.
  induction node as [nt tc pr pw sc rn fc jf sk plans IH] using PlanNode_ind.
  intros c c' Hcov Hsub. inversion Hcov as [n Hnode Hkids]; subst.
  destruct (visit_advice_weaken _ c c' Hnode Hsub) as [Hnode' Hadv].
  assert (Hplans : Forall (covers c') plans
                   /\ map (plan_advice c') plans = map (plan_advice c) plans).
  { simpl in Hkids. clear Hcov Hnode Hnode' Hadv. revert Hkids.
    induction IH as [|q qs Hq _ IHqs]; intros Hkids; [split; [constructor | reflexivity]|].
    inversion Hkids as [|q' qs' Hcq Hcqs]; subst.
    destruct (Hq c c' Hcq Hsub) as [Hq' Hqa]. destruct (IHqs Hcqs) as [Hqs' Hqsa].
    split; [constructor; assumption|]. simpl. rewrite Hqa, Hqsa. reflexivity. }
  destruct Hplans as [Hcov' Hmap]. split.
  - constructor; assumption.
  - rewrite !plan_advice_unfold. simpl Plans. simpl Relation_Name in *.
    rewrite Hadv, Hmap. reflexivity.
Qed.

Lemma for_each_walk_outcome (plans : list PlanNode) :
  Forall (fun q => forall st, sound st ->
            outcome st (walk q st).1 (walk q st).2
              (fun c => covers c q) (fun c => plan_advice c q)) plans ->
  forall st, sound st ->
    outcome st (for_each walk plans st).1 (for_each walk plans st).2
      (fun c => Forall (covers c) plans) (fun c => concat (map (plan_advice c) plans)).
Proof.
  induction 1 as [|q qs Hq _ IHqs]; intros st Hst.
  - simpl. split; [apply Hst|]. split; [discriminate|]. intros _.
    split; [exact Hst|]. split; [reflexivity|]. split; [reflexivity|].
    split; [constructor | symmetry; apply app_nil_r].
  - rewrite for_each_cons. specialize (Hq st Hst).
    destruct (walk q st) as [st1 [[]|e]]; simpl fst in *; simpl snd in *.
    + eapply outcome_ext.
      * eapply outcome_seq; [exact Hq | intros Hs1; apply (IHqs st1 Hs1) |].
        intros c c'. apply plan_advice_weaken.
      * intros c [Hcq Hcqs]. constructor; assumption.
      * intros c. reflexivity.
    + eapply outcome_raise. exact Hq.
Qed.

(** The walk of a whole plan: one fetch per table at most, and the advice
    of every node read off the memo as the walk leaves it. *)
Lemma walk_outcome (node : PlanNode) :
  forall st, sound st ->
    outcome st (walk node st).1 (walk node st).2
      (fun c => covers c node) (fun c => plan_advice c node).
Proof.
  induction node as [nt tc pr pw sc rn fc jf sk plans IH] using PlanNode_ind.
  intros st Hst. rewrite walk_unfold.
  pose proof (visit_outcome (mkPlanNode nt tc pr pw sc rn fc jf sk plans) st Hst) as Hv.
  destruct (visit (mkPlanNode nt tc pr pw sc rn fc jf sk plans) st) as [st1 [[]|e]];
    simpl fst in *; simpl snd in *.
  - eapply outcome_ext.
    + eapply outcome_seq; [exact Hv | intros Hs1; apply (for_each_walk_outcome plans IH st1 Hs1) |].
      intros c c'. apply visit_advice_weaken.
    + intros c [Hn Hk]. constructor; assumption.
    + intros c. rewrite plan_advice_unfold. reflexivity.
  - eapply outcome_raise. exact Hv.
Qed.

Lemma for_each_recommend {A} (f : A -> Recommendation) (xs : list A) (st : State DB) :
  for_each (fun x => recommend DB (f x)) xs st = (advised st (map f xs), Ok tt).
Proof.
  revert st. induction xs as [|x xs IH]; intros [d tr recs sn].
  - unfold advised. simpl. rewrite app_nil_r. reflexivity.
  - rewrite for_each_cons. unfold recommend at 1. step. rewrite IH.
    unfold advised, append. step. simpl map. rewrite <- app_assoc. reflexivity.
Qed.

(** The state in which the walk starts, and the state after the sweep
    for unused indexes. *)
Definition started (query : string) (d : DB) : State DB :=
  mkState (explain query d).1 [Explained query (explain query d).2] [] ∅.

Definition swept (st : State DB) : State DB :=
  mkState (pg_unused_indexes 1 (db st)).1
          (trace st ++ [FetchedUnused 1 (pg_unused_indexes 1 (db st)).2])
          (recommendations st) (seen_tables st).

(** One run of the advisor, step by step. *)
Lemma recommend_indexes_run (query : string) (d : DB) :
  recommend_indexes query d =
  match (explain query d).2 with
  | Raise e => (started query d, Raise e)
  | Ok plan =>
      match walk plan (started query d) with
      | (st1, Raise e) => (st1, Raise e)
      | (st1, Ok _) =>
          match (pg_unused_indexes 1 (db st1)).2 with
          | Raise e => (swept st1, Raise e)
          | Ok unused =>
              (advised (swept st1) (map drop_index_recommendation unused),
               Ok (recommendations (swept st1) ++ map drop_index_recommendation unused))
          end
      end
  end.
Proof.
  unfold rec_query.recommend_indexes, recommend_indexes_body, explain_plan, started.
  unfold mbind, M_bind at 1. step.
  destruct (explain query d) as [d1 [plan|e]]; step; cbn [app]; [|reflexivity].
  unfold M_bind at 1.
  destruct (rec_query.walk set_order DB pg_indexes plan
              (mkState d1 [Explained query (Ok plan)] [] ∅)) as [st1 [[]|e]]; [|reflexivity].
  unfold M_bind at 1, get_unused_indexes, swept. step.
  destruct (pg_unused_indexes 1 (db st1)) as [d2 [unused|e]]; step; [|reflexivity].
  unfold M_bind at 1. rewrite for_each_recommend. reflexivity.
Qed.

Lemma started_sound (query : string) (d : DB) :
  sound (started query d) /\ failures (trace (started query d)) = [].
Proof.
  unfold sound, started. simpl. split; [|reflexivity].
  split; [constructor|]. split.
  - intros t Ht. inversion Ht.
  - intros t rows Ht. rewrite lookup_empty in Ht. discriminate.
Qed.

(** What a run leaves behind. *)
Lemma recommend_indexes_outcome (query : string) (d : DB) :
  let st := (recommend_indexes query d).1 in
  let r := (recommend_indexes query d).2 in
  NoDup (fetched (trace st))
  /\ (forall e, e ∈ failures (trace st) -> r = Raise e)
  /\ (forall recs, r = Ok recs ->
        failures (trace st) = []
        /\ (forall t rows, seen_tables st !! t = Some rows ->
              FetchedIndexes t (Ok rows) ∈ trace st)
        /\ exists plan unused,
             (explain query d).2 = Ok plan
             /\ FetchedUnused 1 (Ok unused) ∈ trace st
             /\ covers (seen_tables st) plan
             /\ recs = plan_advice (seen_tables st) plan
                       ++ map drop_index_recommendation unused).
Proof.
  cbv zeta. rewrite recommend_indexes_run.
  destruct (started_sound query d) as [Hs0 Hf0].
  destruct ((explain query d).2) as [plan|e] eqn:Hplan.
  - pose proof (walk_outcome plan (started query d) Hs0) as (Hnd & Hraise & Hok).
    destruct (walk plan (started query d)) as [st1 [[]|e]]; simpl fst in *; simpl snd in *.
    + destruct (Hok eq_refl) as (Hs1 & Hsub & Hf1 & Hcov & Hrecs).
      assert (Hfetched : fetched (trace (swept st1)) = fetched (trace st1)).
      { unfold swept. step. rewrite fetched_app. simpl. apply app_nil_r. }
      destruct ((pg_unused_indexes 1 (db st1)).2) as [unused|e] eqn:Hunused; simpl fst; simpl snd.
      * assert (Hfail : failures (trace (swept st1)) = []).
        { unfold swept. step. rewrite failures_app, Hunused, Hf1, Hf0. reflexivity. }
        unfold advised at 1 2. step. rewrite Hfetched. split; [apply Hs1|]. split.
        -- intros e He. rewrite Hfail in He. inversion He.
        -- intros recs [= <-]. split; [exact Hfail|]. split.
           ++ intros t rows Ht. unfold advised, swept in *. step. simpl in Ht.
              apply elem_of_app. left. apply Hs1. exact Ht.
           ++ exists plan, unused. split; [reflexivity|].
              unfold advised, swept. step. rewrite Hunused.
              split; [apply elem_of_app; right; constructor|]. split; [exact Hcov|].
              rewrite Hrecs. unfold started. step. reflexivity.
      * rewrite Hfetched. split; [apply Hs1|]. split; [|discriminate].
        intros e' He'. unfold swept in He'. simpl in He'.
        rewrite failures_app, Hunused, Hf1, Hf0 in He'. simpl in He'.
        apply list_elem_of_singleton in He'. subst. reflexivity.
    + split; [exact Hnd|]. split; [|discriminate].
      intros e' He'. pose proof (Hraise e eq_refl) as Hf1. rewrite Hf0 in Hf1.
      rewrite Hf1 in He'. apply list_elem_of_singleton in He'. subst. reflexivity.
  - cbn [fst snd]. split; [apply Hs0|]. split; [|discriminate].
    intros e' He'. rewrite Hf0 in He'. inversion He'.
Qed.

Lemma no_index_covers_spec (cols : list string) (existing : list IndexRow) :
  no_index_covers cols existing = true <->
  Forall (fun row => exists col, col ∈ cols /\ contains row.2 col = false) existing.
Proof.
  unfold no_index_covers. rewrite negb_true_iff. induction existing as [|row rows IH]; simpl.
  - split; [constructor | reflexivity].
  - rewrite orb_false_iff, IH. split.
    + intros [Hrow Hrows]. constructor; [|exact Hrows].
      clear -Hrow. induction cols as [|col cols IHc]; simpl in Hrow; [discriminate|].
      apply andb_false_iff in Hrow as [Hc|Hc].
      * exists col. split; [left | exact Hc].
      * destruct (IHc Hc) as (col' & Hin & Hc'). exists col'. split; [right; exact Hin | exact Hc'].
    + intros Hall. inversion Hall as [|? ? (col & Hin & Hc) Hrows]; subst. split; [|exact Hrows].
      clear -Hin Hc. induction Hin as [col cols|col col' cols Hin IHc]; simpl.
      * rewrite Hc. reflexivity.
      * rewrite IHc by assumption. apply andb_false_r.
Qed.

Lemma nonempty_spec {A} (l : list A) : nonempty l = true <-> l <> [].
Proof. destruct l; simpl; split; congruence. Qed.

Lemma node_advice_seq_scan (existing : list IndexRow) (node : PlanNode) :
  Node_Type node = Some "Seq Scan" ->
  node_advice existing node = seq_scan_advice existing node ++ sort_advice existing node.
Proof.
  intros Hnt. unfold node_advice, join_advice. rewrite Hnt. reflexivity.
Qed.

(** ** The claims on the index advisor *)

(** C5: in one run of the advisor no table is asked for its index rows
    twice, what the memo holds for a table is what that one fetch
    answered, and the advice of every node of the plan is computed from
    the memo's rows for the node's relation. *)
Theorem index_rows_fetched_once (query : string) (d : DB) :
  let st := (recommend_indexes query d).1 in
  let r := (recommend_indexes query d).2 in
  NoDup (fetched (trace st))
  /\ (forall recs, r = Ok recs ->
        (forall t rows, seen_tables st !! t = Some rows ->
           FetchedIndexes t (Ok rows) ∈ trace st)
        /\ exists plan unused,
             (explain query d).2 = Ok plan
             /\ covers (seen_tables st) plan
             /\ recs = plan_advice (seen_tables st) plan
                       ++ map drop_index_recommendation unused).
Proof.
  cbv zeta. destruct (recommend_indexes_outcome query d) as (Hnd & _ & Hok).
  split; [exact Hnd|]. intros recs Hr.
  destruct (Hok recs Hr) as (_ & Hmemo & plan & unused & Hplan & _ & Hcov & Hrecs).
  split; [exact Hmemo|]. exists plan, unused. auto.
Qed.

(** C6 (as the code has it): a catalog lookup that fails, be it the fetch
    of a table's index rows or the sweep for unused indexes, is not
    taken for an empty result: its exception ends the run, and no list
    of recommendations is returned. *)
Theorem catalog_failure_aborts (query : string) (d : DB) (e : exn) :
  e ∈ failures (trace (recommend_indexes query d).1) ->
  (recommend_indexes query d).2 = Raise e.
Proof.
  destruct (recommend_indexes_outcome query d) as (_ & Hfail & _). apply Hfail.
Qed.

(** C10: a "Seq Scan" node with no relation name leaves the state of the
    walk as it found it, filter or no filter: no advice, no fetch; the
    walk of the node is the walk of its children. *)
Theorem seq_scan_without_relation (node : PlanNode) (st : State DB) :
  Node_Type node = Some "Seq Scan" ->
  truthy (Relation_Name node) = false ->
  visit node st = (st, Ok tt)
  /\ walk node st = for_each walk (Plans node) st.
Proof.
  intros Hnt Hrel.
  assert (Hv : visit node st = (st, Ok tt)).
  { rewrite visit_run, Hrel, (node_advice_seq_scan [] node Hnt).
    unfold seq_scan_advice, sort_advice. rewrite Hrel, !andb_false_r.
    destruct st. unfold advised. simpl. rewrite app_nil_r. reflexivity. }
  split; [exact Hv|]. rewrite walk_unfold, Hv. reflexivity.
Qed.

Hypothesis set_order_elem : forall l x, x ∈ set_order l <-> x ∈ l.

(** C3 (as the code has it): on a "Seq Scan" node with a relation name,
    a filter yields the high-priority add-index advice, naming the table
    and the extracted columns, if and only if at least one column is
    extracted and no existing index's definition text contains every
    extracted column; with no filter the node yields the medium-priority
    partitioning advice. For the filter a = 5 AND b = 3, an index whose
    text contains a and not b leaves the advice in place, and an index
    whose text contains both removes it. *)
Theorem seq_scan_rule (node : PlanNode) (r : string) (existing : list IndexRow) :
  Node_Type node = Some "Seq Scan" ->
  Relation_Name node = Some r ->
  r <> EmptyString ->
  (forall st, seen_tables st !! r = Some existing ->
     visit node st
     = (advised st (seq_scan_advice existing node ++ sort_advice existing node), Ok tt))
  /\ (forall st, seen_tables st !! r = None -> (pg_indexes r (db st)).2 = Ok existing ->
       visit node st
       = (advised (stored (asked st r) r existing)
            (seq_scan_advice existing node ++ sort_advice existing node), Ok tt))
  /\ (forall x, x ∈ sort_advice existing node -> priority x = "low")
  /\ (forall f, Filter node = Some f -> f <> EmptyString ->
       (scan_filter_recommendation r f ∈ seq_scan_advice existing node <->
        columns f <> []
        /\ Forall (fun row => exists col, col ∈ columns f /\ contains row.2 col = false)
             existing)
       /\ (forall x, x ∈ seq_scan_advice existing node -> x = scan_filter_recommendation r f)
       /\ type (scan_filter_recommendation r f) = "add_index"
       /\ priority (scan_filter_recommendation r f) = "high"
       /\ message (scan_filter_recommendation r f)
          = seq_scan_filter_message r f (columns f))
  /\ (truthy (Filter node) = false ->
       seq_scan_advice existing node = [scan_plain_recommendation r]
       /\ priority (scan_plain_recommendation r) = "medium")
  /\ (Filter node = Some "a = 5 AND b = 3" ->
       "a" ∈ columns "a = 5 AND b = 3" /\ "b" ∈ columns "a = 5 AND b = 3"
       /\ (forall name def, existing = [(name, def)] ->
             contains def "a" = true -> contains def "b" = false ->
             seq_scan_advice existing node
             = [scan_filter_recommendation r "a = 5 AND b = 3"])
       /\ (forall name def, existing = [(name, def)] ->
             contains def "a" = true -> contains def "b" = true ->
             seq_scan_advice existing node = [])).
Proof.
  intros Hnt Hrel Hr.
  assert (Htruthy : truthy (Relation_Name node) = true).
  { rewrite Hrel. destruct r; [contradiction | reflexivity]. }
  assert (Hheld : held (Relation_Name node) = r) by (rewrite Hrel; reflexivity).
  assert (Hseq : forall f, Filter node = Some f -> f <> EmptyString ->
            seq_scan_advice existing node
            = if nonempty (columns f) && no_index_covers (columns f) existing
              then [scan_filter_recommendation r f] else []).
  { intros f Hf Hne. unfold seq_scan_advice. rewrite Hnt, Htruthy, Hheld, Hf.
    destruct f; [contradiction | reflexivity]. }
  split; [|split; [|split; [|split; [|split]]]].
  - intros st Hseen. rewrite visit_run, Htruthy. cbv zeta. rewrite Hheld, Hseen.
    rewrite (node_advice_seq_scan existing node Hnt). reflexivity.
  - intros st Hseen Hans. rewrite visit_run, Htruthy. cbv zeta. rewrite Hheld, Hseen, Hans.
    rewrite (node_advice_seq_scan existing node Hnt). reflexivity.
  - intros x Hx. unfold sort_advice in Hx.
    destruct (nonempty (default [] (Sort_Key node)) && truthy (Relation_Name node)
              && no_index_contains (String.concat ", " (default [] (Sort_Key node))) existing).
    + apply list_elem_of_singleton in Hx. subst. reflexivity.
    + inversion Hx.
  - intros f Hf Hne. rewrite (Hseq f Hf Hne).
    split; [|split; [|repeat split]].
    + rewrite <- nonempty_spec, <- no_index_covers_spec.
      destruct (nonempty (columns f)), (no_index_covers (columns f) existing); simpl;
        (split; [intros H | intros [H1 H2]]);
        try discriminate; try (inversion H; fail); try (split; reflexivity).
      constructor.
    + intros x Hx.
      destruct (nonempty (columns f) && no_index_covers (columns f) existing);
        [apply list_elem_of_singleton in Hx; exact Hx | inversion Hx].
  - intros Hf. unfold seq_scan_advice. rewrite Hnt, Htruthy, Hf, Hheld. split; reflexivity.
  - intros Hf.
    assert (Hfound : Re.findall_group1 "a = 5 AND b = 3" = ["a"; "b"]) by (vm_compute; reflexivity).
    assert (Hcols : forall x, x ∈ columns "a = 5 AND b = 3" <-> x = "a" \/ x = "b").
    { intros x. unfold extract_columns_from_filter. cbv iota.
      rewrite set_order_elem, Hfound, elem_of_cons, list_elem_of_singleton. reflexivity. }
    assert (Ha : "a" ∈ columns "a = 5 AND b = 3") by (apply Hcols; left; reflexivity).
    assert (Hb : "b" ∈ columns "a = 5 AND b = 3") by (apply Hcols; right; reflexivity).
    assert (Hne : nonempty (columns "a = 5 AND b = 3") = true).
    { apply nonempty_spec. intros Hnil. rewrite Hnil in Ha. inversion Ha. }
    split; [exact Ha|]. split; [exact Hb|]. split.
    + intros name def -> Hda Hdb. rewrite (Hseq _ Hf) by discriminate. rewrite Hne.
      replace (no_index_covers (columns "a = 5 AND b = 3") [(name, def)]) with true;
        [reflexivity|].
      symmetry. apply no_index_covers_spec. constructor; [|constructor].
      exists "b". split; [exact Hb | exact Hdb].
    + intros name def -> Hda Hdb. rewrite (Hseq _ Hf) by discriminate. rewrite Hne.
      replace (no_index_covers (columns "a = 5 AND b = 3") [(name, def)]) with false;
        [reflexivity|].
      symmetry. apply not_true_is_false. intros Hcov.
      apply no_index_covers_spec in Hcov. inversion Hcov as [|? ? (col & Hin & Hc) _]; subst.
      cbn [snd] in Hc. apply Hcols in Hin as [->| ->]; congruence.
Qed.

End AdvisorFacts.

(** ** The advisor on the sample catalogs *)

(** C6, at a catalog whose index rows cannot be fetched: the run ends
    with the connection's error. *)
Lemma catalog_failure_aborts_witness :
  (rec_query.recommend_indexes remove_dups unit
     (answering (Ok ab_scan)) (answering (Raise lost)) (answering (Ok [])) "q" tt).2
  = Raise lost.
Proof.
  apply (catalog_failure_aborts remove_dups unit
           (answering (Ok ab_scan)) (answering (Raise lost)) (answering (Ok [])) "q" tt lost).
  vm_compute. constructor.
Defined.

(** C6 as stated fails: with the index fetch failing, and with only the
    sweep for unused indexes failing, the query gets no list of
    recommendations, where an empty result set would have given it the
    add-index advice. *)
Lemma catalog_failure_counterexample :
  (rec_query.recommend_indexes remove_dups unit
     (answering (Ok ab_scan)) (answering (Raise lost)) (answering (Ok [])) "q" tt).2
  = Raise lost
  /\ (rec_query.recommend_indexes remove_dups unit
        (answering (Ok ab_scan)) (answering (Ok [])) (answering (Raise lost)) "q" tt).2
     = Raise lost
  /\ (rec_query.recommend_indexes remove_dups unit
        (answering (Ok ab_scan)) (answering (Ok [])) (answering (Ok [])) "q" tt).2
     = Ok [scan_filter_recommendation remove_dups "t" "a = 5 AND b = 3"].
Proof. vm_compute. repeat split. Qed.

(** C10, at a sequential scan with a filter and no relation name. *)
Lemma seq_scan_without_relation_witness :
  rec_query.visit remove_dups unit (answering (Ok [])) orphan_scan (mkState tt [] [] ∅)
  = (mkState tt [] [] ∅, Ok tt)
  /\ rec_query.walk remove_dups unit (answering (Ok [])) orphan_scan (mkState tt [] [] ∅)
     = for_each (rec_query.walk remove_dups unit (answering (Ok []))) (Plans orphan_scan)
         (mkState tt [] [] ∅).
Proof.
  apply (seq_scan_without_relation remove_dups unit (answering (Ok [])) orphan_scan);
    reflexivity.
Defined.

(** C3, at the filter a = 5 AND b = 3 on a table whose one index has a
    definition text with a and without b. *)
Lemma seq_scan_rule_witness :
  seq_scan_advice remove_dups [bare_index_on_a] ab_scan
  = [scan_filter_recommendation remove_dups "t" "a = 5 AND b = 3"].
Proof.
  destruct (seq_scan_rule remove_dups unit (answering (Ok [bare_index_on_a]))
              (fun l x => elem_of_remove_dups l x) ab_scan "t" [bare_index_on_a]
              eq_refl eq_refl ltac:(discriminate))
    as (_ & _ & _ & _ & _ & Hsample).
  destruct (Hsample eq_refl) as (_ & _ & Hkept & _).
  apply (Hkept "t_a_idx" "CREATE INDEX t_a_idx ON t (a)"); reflexivity.
Defined.

(** C3 as stated fails: on a table with no index at all, no index's
    definition text contains all the candidate columns of the filter
    (flag IS NULL), and yet the advisor emits nothing, since no column
    is extracted from that filter. *)
Lemma seq_scan_rule_counterexample :
  ~ (scan_filter_recommendation remove_dups "t" "(flag IS NULL)"
       ∈ seq_scan_advice remove_dups [] flag_scan
     <-> Forall (fun row : IndexRow =>
                   ~ Forall (fun col => contains row.2 col = true)
                       (extract_columns_from_filter remove_dups "(flag IS NULL)")) [])
  /\ (rec_query.recommend_indexes remove_dups unit
        (answering (Ok flag_scan)) (answering (Ok [])) (answering (Ok [])) "q" tt).2
     = Ok [].
Proof.
  split; [|vm_compute; reflexivity].
  intros [_ Hclaim]. specialize (Hclaim (List.Forall_nil _)).
  vm_compute in Hclaim. inversion Hclaim.
Qed.

(** The definition text PostgreSQL prints for an index on a alone holds
    the letter b in "btree" and in "public": the containment test takes
    the column b for covered, and the advice for a = 5 AND b = 3 is not
    given. *)
Remark btree_text_contains_b :
  contains btree_index_on_a.2 "b" = true
  /\ seq_scan_advice remove_dups [btree_index_on_a] ab_scan = [].
Proof. vm_compute. split; reflexivity. Qed.

(** * The N+1 detector *)

(** ** Specifications *)

(** The signature of an N+1 suspect: more calls than the threshold, a
    mean time strictly below the low-latency threshold, and no more rows
    than the small-rows threshold. *)
Definition n_plus_one_signature (calls_threshold : Z) (max_mean_time_ms : num)
    (max_rows : Z) (row : StatRow) : Prop :=
  calls_threshold < row.1.1.2
  /\ Py.compare (Float row.1.2) max_mean_time_ms = Some Lt
  /\ row.2 <= max_rows.

#[local] Instance n_plus_one_signature_dec ct mm mr row :
  Decision (n_plus_one_signature ct mm mr row).
Proof. unfold n_plus_one_signature. apply _. Defined.

(** The entry [full_pg_analysis] makes of a suspect row, and the entry
    [detect_n_plus_one] makes of it. *)
Definition pgstat_suspect (row : StatRow) : Suspect :=
  {| query := strip row.1.1.1;
     calls := row.1.1.2;
     mean_exec_time_ms := round2 (Float row.1.2);
     rows_per_call := row.2;
     recommendation := n_plus_one_message row.1.1.2 row.1.2 row.2 |}.

Definition detected_suspect (row : StatRow) : Suspect :=
  {| query := strip row.1.1.1;
     calls := row.1.1.2;
     mean_exec_time_ms := round2 (Float row.1.2);
     rows_per_call := row.2;
     recommendation := rec_query.detect_n_plus_one_message row.1.1.2 row.1.2 |}.

(** ** Facts *)

Lemma foldl_pointwise {A B} (f g : A -> B -> A) (l : list B) (a : A) :
  (forall a x, f a x = g a x) -> foldl f a l = foldl g a l.
Proof.
  intros Hfg. revert a. induction l as [|x l IH]; intros a; simpl; [reflexivity|].
  rewrite Hfg. apply IH.
Qed.

Lemma signature_test (ct : Z) (mm : num) (mr : Z) (row : StatRow) :
  (ct <? row.1.1.2) && Py.lt (Float row.1.2) mm && (row.2 <=? mr) = true
  <-> n_plus_one_signature ct mm mr row.
Proof.
  unfold n_plus_one_signature, Py.lt.
  rewrite !andb_true_iff, Z.ltb_lt, Z.leb_le.
  destruct (Py.compare (Float row.1.2) mm) as [[]|]; intuition congruence.
Qed.

Lemma suspects_loop (ct : Z) (mm : num) (mr : Z) (entry : StatRow -> Suspect)
    (rows : list StatRow) (acc : list Suspect) :
  foldl (fun suspects row =>
           if (ct <? row.1.1.2) && Py.lt (Float row.1.2) mm && (row.2 <=? mr)
           then append suspects (entry row) else suspects) acc rows
  = (acc ++ (entry <$> filter (n_plus_one_signature ct mm mr) rows))%list.
Proof.
  revert acc. induction rows as [|row rows IH]; intros acc; simpl.
  - symmetry. apply app_nil_r.
  - rewrite IH, filter_cons.
    destruct (decide (n_plus_one_signature ct mm mr row)) as [Hs|Hs].
    + apply signature_test in Hs. rewrite Hs. unfold append.
      rewrite <- app_assoc. reflexivity.
    + destruct ((ct <? row.1.1.2) && Py.lt (Float row.1.2) mm && (row.2 <=? mr)) eqn:Ht;
        [apply signature_test in Ht; contradiction | reflexivity].
Qed.

(** ** The claim *)

(** C9: both searches list exactly the rows with more calls than the
    call threshold, a mean time strictly below the low-latency threshold
    and at most the small-rows threshold of rows, in the order fetched;
    under the defaults 1000, 10 ms and 10, a row of 5000 calls, 2 ms and
    1 row is a suspect, and a row of 5000 calls and 200 ms is not. *)
Theorem n_plus_one_classification :
  (forall ct mm mr (rows : list StatRow),
     n_plus_one_suspects ct mm mr rows
     = pgstat_suspect <$> filter (n_plus_one_signature ct mm mr) rows)
  /\ (forall (DB : Type) (pg_stat_statements : Z -> DB -> DB * result (list StatRow))
             ct mm mr top_n (d : DB),
        rec_query.detect_n_plus_one DB pg_stat_statements ct mm mr top_n d
        = ((pg_stat_statements top_n d).1,
           match (pg_stat_statements top_n d).2 with
           | Ok rows => Ok (detected_suspect <$> filter (n_plus_one_signature ct mm mr) rows)
           | Raise e => Raise e
           end))
  /\ (forall q calls mean_time rows_count,
        n_plus_one_signature default_calls_threshold default_max_mean_time_ms default_max_rows
          (q, calls, mean_time, rows_count)
        <-> 1000 < calls
            /\ compare_float_int mean_time 10 = Some Lt
            /\ rows_count <= 10)
  /\ (forall q,
        n_plus_one_signature default_calls_threshold default_max_mean_time_ms default_max_rows
          (q, 5000, nearest_float 2, 1))
  /\ (forall q rows_count,
        ~ n_plus_one_signature default_calls_threshold default_max_mean_time_ms default_max_rows
            (q, 5000, nearest_float 200, rows_count)).
Proof.
  split; [|split; [|split; [|split]]].
  - intros ct mm mr rows. unfold n_plus_one_suspects.
    etrans; [|exact (suspects_loop ct mm mr pgstat_suspect rows [])].
    apply foldl_pointwise. intros acc [[[q c] m] r]. reflexivity.
  - intros DB pg ct mm mr top_n d. unfold rec_query.detect_n_plus_one.
    destruct (pg top_n d) as [d' [rows|e]]; simpl; [|reflexivity].
    do 2 f_equal.
    etrans; [|exact (suspects_loop ct mm mr detected_suspect rows [])].
    apply foldl_pointwise. intros acc [[[q c] m] r]. reflexivity.
  - intros q calls mean_time rows_count. reflexivity.
  - intros q. split; [reflexivity|]. split; [reflexivity|].
    unfold default_max_rows. simpl. lia.
  - intros q rows_count (_ & Hmean & _). vm_compute in Hmean. discriminate.
Qed.

(** * The columns of a filter *)

(** ** Specifications *)

(** [s] is an identifier: a letter or an underscore, then letters,
    digits and underscores. *)
Definition is_identifier (s : string) : bool :=
  match s with
  | String c s' => Re.ident_start c && all_chars Re.ident_char s'
  | EmptyString => false
  end.

(** The last character of [before], or [prev] when [before] is empty. *)
Fixpoint last_char (prev : option ascii) (before : string) : option ascii :=
  match before with
  | String c s' => last_char (Some c) s'
  | EmptyString => prev
  end.

(** [group1] stands in [s] after [before], at a word boundary, and is
    followed by whitespace and an operator. *)
Definition column_at (prev : option ascii) (s before group1 : string) : Prop :=
  exists spaces op after,
    s = before +:+ group1 +:+ spaces +:+ op +:+ after
    /\ from_option Re.is_word false (last_char prev before) = false
    /\ is_identifier group1 = true
    /\ all_chars is_space spaces = true
    /\ op ∈ Re.operators.

(** ** Facts about the pattern *)

Lemma match_operator_spec (s : string) (n : nat) :
  Re.match_operator s = Some n ->
  exists op rest, s = op +:+ rest /\ op ∈ Re.operators /\ n = String.length op.
Proof.
  unfold Re.match_operator. intros H.
  destruct (List.find (fun op => String.prefix op s) Re.operators) as [op|] eqn:Hfind;
    [|discriminate].
  injection H as <-. apply List.find_some in Hfind as [Hin Hp].
  apply prefix_split in Hp as [rest ->]. exists op, rest.
  split; [reflexivity|]. split; [apply list_elem_of_In; exact Hin | reflexivity].
Qed.

Lemma match_spaces_operator_spec (s : string) (n : nat) :
  Re.match_spaces_operator s = Some n ->
  exists spaces op rest,
    s = spaces +:+ op +:+ rest /\ all_chars is_space spaces = true /\ op ∈ Re.operators
    /\ n = (String.length spaces + String.length op)%nat.
Proof.
  assert (Hstop : forall s n, Re.match_operator s = Some n ->
            exists spaces op rest,
              s = spaces +:+ op +:+ rest /\ all_chars is_space spaces = true
              /\ op ∈ Re.operators /\ n = (String.length spaces + String.length op)%nat).
  { intros s' n' H. apply match_operator_spec in H as (op & rest & -> & Hop & ->).
    exists EmptyString, op, rest. auto. }
  revert n. induction s as [|c s IH]; intros n H; [apply Hstop; exact H|].
  simpl in H. destruct (is_space c) eqn:Hc; [|apply Hstop; exact H].
  destruct (Re.match_spaces_operator s) as [m|]; [|apply Hstop; exact H].
  injection H as <-. destruct (IH m eq_refl) as (spaces & op & rest & -> & Hsp & Hop & ->).
  exists (String c spaces), op, rest. simpl. rewrite Hc. auto.
Qed.

Lemma match_identifier_tail_spec (s tail : string) (n : nat) :
  Re.match_identifier_tail s = Some (tail, n) ->
  exists spaces op rest,
    s = tail +:+ spaces +:+ op +:+ rest /\ all_chars Re.ident_char tail = true
    /\ all_chars is_space spaces = true /\ op ∈ Re.operators
    /\ n = (String.length tail + String.length spaces + String.length op)%nat.
Proof.
  assert (Hstop : forall s tail n,
            (fun n => (EmptyString, n)) <$> Re.match_spaces_operator s = Some (tail, n) ->
            exists spaces op rest,
              s = tail +:+ spaces +:+ op +:+ rest /\ all_chars Re.ident_char tail = true
              /\ all_chars is_space spaces = true /\ op ∈ Re.operators
              /\ n = (String.length tail + String.length spaces + String.length op)%nat).
  { intros s' tail' n' H. destruct (Re.match_spaces_operator s') as [m|] eqn:Hm; [|discriminate].
    injection H as <- <-.
    apply match_spaces_operator_spec in Hm as (spaces & op & rest & -> & Hsp & Hop & ->).
    exists spaces, op, rest. auto. }
  revert tail n. induction s as [|c s IH]; intros tail n H; [apply Hstop; exact H|].
  simpl in H. destruct (Re.ident_char c) eqn:Hc; [|apply Hstop; exact H].
  destruct (Re.match_identifier_tail s) as [[t m]|]; [|apply Hstop; exact H].
  injection H as <- <-.
  destruct (IH t m eq_refl) as (spaces & op & rest & -> & Ht & Hsp & Hop & ->).
  exists spaces, op, rest. simpl. rewrite Hc. auto.
Qed.

Lemma match_at_spec (prev : option ascii) (s group1 : string) (n : nat) :
  Re.match_at prev s = Some (group1, n) ->
  from_option Re.is_word false prev = false
  /\ exists spaces op rest,
       s = group1 +:+ spaces +:+ op +:+ rest /\ is_identifier group1 = true
       /\ all_chars is_space spaces = true /\ op ∈ Re.operators.
Proof.
  destruct s as [|c s]; [discriminate|]. simpl.
  destruct (Re.ident_start c) eqn:Hc; [|discriminate].
  destruct (from_option Re.is_word false prev); [discriminate|]. simpl.
  destruct (Re.match_identifier_tail s) as [[t m]|] eqn:Ht; [|discriminate].
  simpl. intros [= <- <-]. split; [reflexivity|].
  apply match_identifier_tail_spec in Ht as (spaces & op & rest & -> & Ht & Hsp & Hop & _).
  exists spaces, op, rest. simpl. rewrite Hc. auto.
Qed.

Lemma scan_cons (prev : option ascii) (skip : nat) (c : ascii) (s : string) :
  Re.scan prev skip (String c s) =
  match skip with
  | S k => Re.scan (Some c) k s
  | O =>
      match Re.match_at prev (String c s) with
      | Some (group1, n) => group1 :: Re.scan (Some c) (Nat.pred n) s
      | None => Re.scan (Some c) O s
      end
  end.
Proof. reflexivity. Qed.

(** Every group the scan returns stands in the text it scanned. *)
Lemma scan_spec (s : string) :
  forall prev skip group1,
    group1 ∈ Re.scan prev skip s -> exists before, column_at prev s before group1.
Proof.
  induction s as [|c s IH]; intros prev skip g Hg; [inversion Hg|].
  assert (Hlater : forall k, g ∈ Re.scan (Some c) k s ->
            exists before, column_at prev (String c s) before g).
  { intros k Hk. destruct (IH _ _ _ Hk) as (before & spaces & op & after & -> & Hb & Hrest).
    exists (String c before), spaces, op, after. split; [reflexivity|]. split; [exact Hb | exact Hrest]. }
  rewrite scan_cons in Hg. destruct skip as [|k]; [|apply (Hlater k); exact Hg].
  destruct (Re.match_at prev (String c s)) as [[g' n]|] eqn:Hm; [|apply (Hlater O); exact Hg].
  apply elem_of_cons in Hg as [->|Hg]; [|exact (Hlater _ Hg)].
  apply match_at_spec in Hm as (Hprev & spaces & op & rest & Hs & Hrest).
  exists EmptyString, spaces, op, rest. split; [exact Hs|]. split; [exact Hprev | exact Hrest].
Qed.

(** * More on the index advisor *)

Section AdvisorWalk.

Local Open Scope list_scope.

Variable set_order : list string -> list string.
Variable DB : Type.
Variable explain : string -> DB -> DB * result PlanNode.
Variable pg_indexes : string -> DB -> DB * result (list IndexRow).
Variable pg_unused_indexes : Z -> DB -> DB * result (list UnusedRow).

Local Abbreviation columns := (extract_columns_from_filter set_order).
Local Abbreviation visit := (rec_query.visit set_order DB pg_indexes).
Local Abbreviation walk := (rec_query.walk set_order DB pg_indexes).
Local Abbreviation recommend_indexes :=
  (rec_query.recommend_indexes set_order DB explain pg_indexes pg_unused_indexes).

(** ** Specifications *)

(** The relation names of a plan, in the order of the walk. *)
Fixpoint relations (node : PlanNode) : list string :=
  (if truthy (Relation_Name node) then [held (Relation_Name node)] else [])
  ++ concat (map relations (Plans node)).

(** ** Facts *)

Lemma relations_unfold (node : PlanNode) :
  relations node =
  (if truthy (Relation_Name node) then [held (Relation_Name node)] else [])
  ++ concat (map relations (Plans node)).
Proof. destruct node; reflexivity. Qed.

(** A visit asks for the index rows of the node's relation, or asks
    nothing. *)
Lemma visit_fetched (node : PlanNode) (st : State DB) (t : string) :
  t ∈ fetched (trace (visit node st).1) ->
  t ∈ fetched (trace st)
  \/ (truthy (Relation_Name node) = true /\ t = held (Relation_Name node)).
Proof.
  rewrite (visit_run set_order DB pg_indexes).
  destruct (truthy (Relation_Name node)) eqn:Hrel; cbv zeta; [|intros H; left; exact H].
  destruct (seen_tables st !! held (Relation_Name node)); [intros H; left; exact H|].
  assert (Hasked : t ∈ fetched (trace (asked DB pg_indexes st (held (Relation_Name node)))) ->
            t ∈ fetched (trace st) \/ (true = true /\ t = held (Relation_Name node))).
  { unfold asked. cbn [trace]. rewrite fetched_app. intros H.
    apply elem_of_app in H as [H|H]; [left; exact H|].
    apply list_elem_of_singleton in H. right. split; [reflexivity | exact H]. }
  destruct ((pg_indexes (held (Relation_Name node)) (db st)).2); exact Hasked.
Qed.

Lemma for_each_walk_fetched (plans : list PlanNode) :
  Forall (fun q => forall st t, t ∈ fetched (trace (walk q st).1) ->
            t ∈ fetched (trace st) \/ t ∈ relations q) plans ->
  forall st t, t ∈ fetched (trace (for_each walk plans st).1) ->
    t ∈ fetched (trace st) \/ t ∈ concat (map relations plans).
Proof.
  induction 1 as [|q qs Hq _ IHqs]; intros st t Ht; [left; exact Ht|].
  rewrite (for_each_cons DB) in Ht. simpl map. simpl concat.
  specialize (Hq st t).
  destruct (walk q st) as [st1 [[]|e]]; cbn [fst] in *.
  - apply IHqs in Ht as [Ht|Ht].
    + apply Hq in Ht as [Ht|Ht]; [left; exact Ht | right; apply elem_of_app; left; exact Ht].
    + right. apply elem_of_app. right. exact Ht.
  - apply Hq in Ht as [Ht|Ht]; [left; exact Ht | right; apply elem_of_app; left; exact Ht].
Qed.

(** The walk asks only for tables the plan names. *)
Lemma walk_fetched (node : PlanNode) :
  forall st t, t ∈ fetched (trace (walk node st).1) ->
    t ∈ fetched (trace st) \/ t ∈ relations node.
Proof.
  induction node as [nt tc pr pw sc rn fc jf sk plans IH] using PlanNode_ind.
  intros st t Ht. rewrite (walk_unfold set_order DB pg_indexes) in Ht.
  rewrite relations_unfold.
  pose proof (visit_fetched (mkPlanNode nt tc pr pw sc rn fc jf sk plans) st t) as Hv.
  destruct (visit (mkPlanNode nt tc pr pw sc rn fc jf sk plans) st) as [st1 [[]|e]];
    cbn [fst] in *.
  - apply (for_each_walk_fetched plans IH) in Ht as [Ht|Ht].
    + apply Hv in Ht as [Ht|[Hrel ->]]; [left; exact Ht|].
      right. rewrite Hrel. apply elem_of_app. left. constructor.
    + right. apply elem_of_app. right. exact Ht.
  - apply Hv in Ht as [Ht|[Hrel ->]]; [left; exact Ht|].
    right. rewrite Hrel. apply elem_of_app. left. constructor.
Qed.

Lemma covers_relations (c : gmap string (list IndexRow)) (node : PlanNode) :
  covers c node -> forall t, t ∈ relations node -> is_Some (c !! t).
Proof.
  induction node as [nt tc pr pw sc rn fc jf sk plans IH] using PlanNode_ind.
  intros Hcov t Ht. inversion Hcov as [n Hnode Hkids]; subst.
  rewrite relations_unfold in Ht. apply elem_of_app in Ht as [Ht|Ht].
  - destruct (truthy (Relation_Name (mkPlanNode nt tc pr pw sc rn fc jf sk plans))) eqn:Hrel;
      [|inversion Ht].
    apply list_elem_of_singleton in Ht. subst. apply Hnode. reflexivity.
  - simpl in Hkids, Ht. clear Hcov Hnode. revert Hkids Ht.
    induction IH as [|q qs Hq _ IHqs]; intros Hkids Ht; [inversion Ht|].
    inversion Hkids; subst. simpl in Ht. apply elem_of_app in Ht as [Ht|Ht]; auto.
Qed.

Lemma fetched_elem (t : string) (answer : result (list IndexRow)) (tr : list Event) :
  FetchedIndexes t answer ∈ tr -> t ∈ fetched tr.
Proof.
  intros H. unfold fetched. apply list_elem_of_omap.
  exists (FetchedIndexes t answer). split; [exact H | reflexivity].
Qed.

Lemma node_advice_kinds (existing : list IndexRow) (node : PlanNode) :
  Forall (fun r => type r = "add_index" /\ priority r ∈ ["high"; "medium"; "low"])
    (node_advice set_order existing node).
Proof.
  unfold node_advice, seq_scan_advice, join_advice, sort_advice.
  repeat match goal with
         | |- context [if ?b then _ else _] => destruct b
         end;
    simpl; repeat constructor.
Qed.

Lemma plan_advice_kinds (c : gmap string (list IndexRow)) (node : PlanNode) :
  Forall (fun r => type r = "add_index" /\ priority r ∈ ["high"; "medium"; "low"])
    (plan_advice set_order c node).
Proof.
  induction node as [nt tc pr pw sc rn fc jf sk plans IH] using PlanNode_ind.
  rewrite (plan_advice_unfold set_order). apply Forall_app. split; [apply node_advice_kinds|].
  simpl Plans. induction IH as [|q qs Hq _ IHqs]; simpl; [constructor|].
  apply Forall_app. split; assumption.
Qed.

(** The unused-index rows with their size column rewritten. *)
Definition resized (f : string -> string) (row : UnusedRow) : UnusedRow :=
  let '(schema, table, idx, size, scans) := row in (schema, table, idx, f size, scans).

Definition resizing (f : string -> string) (min_size_mb : Z) (d : DB)
    : DB * result (list UnusedRow) :=
  ((pg_unused_indexes min_size_mb d).1,
   match (pg_unused_indexes min_size_mb d).2 with
   | Ok rows => Ok (map (resized f) rows)
   | Raise e => Raise e
   end).

Lemma drop_index_resized (f : string -> string) (row : UnusedRow) :
  drop_index_recommendation (resized f row) = drop_index_recommendation row.
Proof. destruct row as [[[[schema table] idx] size] scans]. reflexivity. Qed.

(** ** The properties *)

(** X6: when EXPLAIN answers with a plan, the tables whose index rows a
    run asks for are relation names of that plan, each asked for once;
    a run that returns has asked for every relation name of the plan,
    whatever the types of the nodes that carry them. *)
Theorem fetches_follow_the_plan (query : string) (d : DB) (plan : PlanNode) :
  (explain query d).2 = Ok plan ->
  (forall t, t ∈ fetched (trace (recommend_indexes query d).1) -> t ∈ relations plan)
  /\ NoDup (fetched (trace (recommend_indexes query d).1))
  /\ (forall recs, (recommend_indexes query d).2 = Ok recs ->
        forall t, t ∈ relations plan -> t ∈ fetched (trace (recommend_indexes query d).1)).
Proof.
  intros Hplan.
  destruct (recommend_indexes_outcome set_order DB explain pg_indexes pg_unused_indexes query d)
    as (Hnd & _ & Hok).
  split; [|split; [exact Hnd|]].
  - rewrite (recommend_indexes_run set_order DB explain pg_indexes pg_unused_indexes), Hplan.
    pose proof (walk_fetched plan (started DB explain query d)) as Hw.
    destruct (walk plan (started DB explain query d)) as [st1 [[]|e]]; cbn [fst] in Hw.
    + assert (Hs : forall t, t ∈ fetched (trace (swept DB pg_unused_indexes st1)) ->
                t ∈ relations plan).
      { intros t Ht. unfold swept in Ht. cbn [trace] in Ht. rewrite fetched_app in Ht.
        simpl in Ht. rewrite app_nil_r in Ht.
        apply Hw in Ht as [Ht|Ht]; [inversion Ht | exact Ht]. }
      destruct ((pg_unused_indexes 1 (db st1)).2); exact Hs.
    + intros t Ht. apply Hw in Ht as [Ht|Ht]; [inversion Ht | exact Ht].
  - intros recs Hr t Ht.
    destruct (Hok recs Hr) as (_ & Hmemo & plan' & unused & Hplan' & _ & Hcov & _).
    assert (plan' = plan) as -> by congruence.
    destruct (covers_relations _ _ Hcov t Ht) as [rows Hrows].
    eapply fetched_elem. apply Hmemo. exact Hrows.
Qed.

(** X7: the list a run returns is the add-index advice of the walk
    followed by one low-priority drop-index recommendation for every row
    of the unused-index sweep, in the order of the rows; the sweep is
    the last statement the run executes. *)
Theorem drop_index_advice_comes_last (query : string) (d : DB) (recs : list Recommendation) :
  (recommend_indexes query d).2 = Ok recs ->
  exists advice unused earlier,
    recs = advice ++ map drop_index_recommendation unused
    /\ Forall (fun r => type r = "add_index" /\ priority r ∈ ["high"; "medium"; "low"]) advice
    /\ Forall (fun r => type r = "drop_index" /\ priority r = "low")
         (map drop_index_recommendation unused)
    /\ trace (recommend_indexes query d).1 = earlier ++ [FetchedUnused 1 (Ok unused)].
Proof.
  rewrite (recommend_indexes_run set_order DB explain pg_indexes pg_unused_indexes).
  destruct ((explain query d).2) as [plan|e]; [|discriminate].
  destruct (started_sound DB explain query d) as [Hs0 _].
  pose proof (walk_outcome set_order DB pg_indexes plan (started DB explain query d) Hs0)
    as (_ & _ & Hok).
  destruct (walk plan (started DB explain query d)) as [st1 [[]|e]]; [|discriminate].
  cbn [fst snd] in Hok. destruct (Hok eq_refl) as (_ & _ & _ & _ & Hadvice).
  destruct ((pg_unused_indexes 1 (db st1)).2) as [unused|e] eqn:Hunused; [|discriminate].
  cbn [fst snd]. intros [= <-].
  exists (plan_advice set_order (seen_tables st1) plan), unused, (trace st1).
  split; [|split; [|split]].
  - unfold swept. cbn [recommendations]. rewrite Hadvice. reflexivity.
  - apply plan_advice_kinds.
  - apply Forall_map. apply Forall_forall. intros row _. split; reflexivity.
  - unfold advised, swept. cbn [trace]. rewrite Hunused. reflexivity.
Qed.

(** X8: the advice a run returns does not depend on the index_size
    column of the unused-index rows: the loop binds the fifth column,
    idx_scan, to the variable it prints as the size, so the message
    shows the scan count where it says size. *)
Theorem reported_index_size_is_ignored (f : string -> string) (query : string) (d : DB) :
  (rec_query.recommend_indexes set_order DB explain pg_indexes (resizing f) query d).2
  = (recommend_indexes query d).2
  /\ (forall schema table idx size scans,
        message (drop_index_recommendation (schema, table, idx, size, scans))
        = "Индекс " +:+ idx +:+ " в " +:+ schema +:+ "." +:+ table
          +:+ " не использовался (idx_scan=0, размер=" +:+ pretty scans +:+ ") — "
          +:+ "рассмотрите удаление для экономии места.").
Proof.
  split; [|reflexivity].
  rewrite !recommend_indexes_run. unfold started.
  destruct ((explain query d).2) as [plan|e]; [|reflexivity].
  destruct (walk plan _) as [st1 [[]|e]]; [|reflexivity].
  unfold resizing, swept. cbn [fst snd recommendations].
  destruct ((pg_unused_indexes 1 (db st1)).2) as [unused|e]; [|reflexivity].
  cbn [snd]. do 2 f_equal. rewrite map_map. apply map_ext. apply drop_index_resized.
Qed.

(** The advice of the sort rule and of the join rule. *)
Definition sort_recommendation (relation : string) (sort_key : list string) : Recommendation :=
  {| type := "add_index"; priority := "low"; message := sort_message relation sort_key |}.

Definition join_recommendation (join_cond : string) : Recommendation :=
  {| type := "add_index"; priority := "medium";
     message := nested_loop_join_message join_cond (columns join_cond) |}.

Lemma no_index_contains_spec (key : string) (existing : list IndexRow) :
  no_index_contains key existing = true <->
  Forall (fun row => contains row.2 key = false) existing.
Proof.
  unfold no_index_contains. rewrite negb_true_iff.
  induction existing as [|row rows IH]; simpl.
  - split; [constructor | reflexivity].
  - rewrite orb_false_iff, IH. split.
    + intros [Hrow Hrows]. constructor; assumption.
    + intros Hall. inversion Hall; subst. split; assumption.
Qed.

Lemma seq_scan_advice_priority (existing : list IndexRow) (node : PlanNode) (x : Recommendation) :
  x ∈ seq_scan_advice set_order existing node -> priority x = "high" \/ priority x = "medium".
Proof.
  unfold seq_scan_advice.
  repeat match goal with
         | |- context [if ?b then _ else _] => destruct b
         end;
    intros Hx; try (inversion Hx; fail);
    apply list_elem_of_singleton in Hx; subst; auto.
Qed.

Lemma join_advice_spec (node : PlanNode) :
  join_advice set_order node =
  if String.eqb (default EmptyString (Node_Type node)) "Nested Loop" && truthy (Join_Filter node)
     && nonempty (columns (held (Join_Filter node)))
  then [join_recommendation (held (Join_Filter node))] else [].
Proof. reflexivity. Qed.

Lemma sort_advice_spec (existing : list IndexRow) (node : PlanNode) :
  sort_advice existing node =
  if nonempty (default [] (Sort_Key node)) && truthy (Relation_Name node)
     && no_index_contains (String.concat ", " (default [] (Sort_Key node))) existing
  then [sort_recommendation (held (Relation_Name node)) (default [] (Sort_Key node))] else [].
Proof. reflexivity. Qed.

(** X9: a node of any type that carries a relation name and a sort key
    gets the low-priority advice to create an index in the sort order if
    and only if no index row held for the relation has a definition
    text that contains the keys joined by a comma and a space. *)
Theorem sort_key_rule (node : PlanNode) (r : string) (keys : list string)
    (existing : list IndexRow) :
  Relation_Name node = Some r -> r <> EmptyString ->
  Sort_Key node = Some keys -> keys <> [] ->
  (forall st, seen_tables st !! r = Some existing ->
     visit node st = (advised DB st (node_advice set_order existing node), Ok tt))
  /\ (sort_recommendation r keys ∈ node_advice set_order existing node
      <-> Forall (fun row => contains row.2 (join ", " keys) = false) existing)
  /\ (forall x, x ∈ node_advice set_order existing node -> priority x = "low" ->
        x = sort_recommendation r keys)
  /\ message (sort_recommendation r keys) = sort_message r keys.
Proof.
  intros Hrel Hr Hkeys Hne.
  assert (Htruthy : truthy (Relation_Name node) = true).
  { rewrite Hrel. destruct r; [contradiction | reflexivity]. }
  assert (Hsort : sort_advice existing node
                  = if no_index_contains (join ", " keys) existing
                    then [sort_recommendation r keys] else []).
  { rewrite sort_advice_spec, Htruthy, Hrel, Hkeys. simpl default.
    destruct keys; [contradiction | reflexivity]. }
  assert (Hlow : forall x, x ∈ node_advice set_order existing node -> priority x = "low" ->
                   x ∈ sort_advice existing node).
  { intros x Hx Hp. unfold node_advice in Hx.
    apply elem_of_app in Hx as [Hx|Hx].
    - apply seq_scan_advice_priority in Hx as [Hx|Hx]; rewrite Hx in Hp; discriminate.
    - apply elem_of_app in Hx as [Hx|Hx]; [|exact Hx].
      rewrite join_advice_spec in Hx.
      destruct (_ && _) in Hx; [|inversion Hx].
      apply list_elem_of_singleton in Hx. subst. discriminate. }
  split; [|split; [|split]].
  - intros st Hseen. rewrite (visit_run set_order DB pg_indexes), Htruthy. cbv zeta.
    rewrite Hrel. simpl held. rewrite Hseen. reflexivity.
  - rewrite <- no_index_contains_spec. split.
    + intros Hx. apply Hlow in Hx; [|reflexivity]. rewrite Hsort in Hx.
      destruct (no_index_contains (join ", " keys) existing); [reflexivity | inversion Hx].
    + intros Hc. unfold node_advice. rewrite Hsort, Hc.
      apply elem_of_app. right. apply elem_of_app. right. constructor.
  - intros x Hx Hp. apply (Hlow x Hx) in Hp. rewrite Hsort in Hp.
    destruct (no_index_contains (join ", " keys) existing); [|inversion Hp].
    apply list_elem_of_singleton in Hp. exact Hp.
  - reflexivity.
Qed.

(** X10: a "Nested Loop" node with a join filter gets the
    medium-priority advice naming the columns of the filter if and only
    if at least one column is extracted from it, whatever indexes the
    catalog holds; on a node with no relation name the visit asks the
    connection nothing. *)
Theorem nested_loop_rule (node : PlanNode) (cond : string) :
  Node_Type node = Some "Nested Loop" ->
  Join_Filter node = Some cond -> cond <> EmptyString ->
  (forall existing,
     join_recommendation cond ∈ node_advice set_order existing node <-> columns cond <> [])
  /\ (forall existing x, x ∈ node_advice set_order existing node -> priority x = "medium" ->
        x = join_recommendation cond)
  /\ (truthy (Relation_Name node) = false ->
      forall st, visit node st
                 = (advised DB st (if nonempty (columns cond)
                                   then [join_recommendation cond] else []), Ok tt)).
Proof.
  intros Hnt Hjf Hne.
  assert (Htruthy : truthy (Join_Filter node) = true).
  { rewrite Hjf. destruct cond; [contradiction | reflexivity]. }
  assert (Hjoin : join_advice set_order node
                  = if nonempty (columns cond) then [join_recommendation cond] else []).
  { rewrite join_advice_spec, Hnt, Htruthy, Hjf. reflexivity. }
  assert (Hscan : forall existing, seq_scan_advice set_order existing node = []).
  { intros existing. unfold seq_scan_advice. rewrite Hnt. reflexivity. }
  assert (Hmedium : forall existing x, x ∈ node_advice set_order existing node ->
                      priority x = "medium" -> x ∈ join_advice set_order node).
  { intros existing x Hx Hp. unfold node_advice in Hx. rewrite Hscan in Hx. simpl in Hx.
    apply elem_of_app in Hx as [Hx|Hx]; [exact Hx|].
    rewrite sort_advice_spec in Hx. destruct (_ && _) in Hx; [|inversion Hx].
    apply list_elem_of_singleton in Hx. subst. discriminate. }
  split; [|split].
  - intros existing. rewrite <- nonempty_spec. split.
    + intros Hx. apply Hmedium in Hx; [|reflexivity]. rewrite Hjoin in Hx.
      destruct (nonempty (columns cond)); [reflexivity | inversion Hx].
    + intros Hc. unfold node_advice. rewrite Hscan, Hjoin, Hc. simpl. constructor.
  - intros existing x Hx Hp. apply (Hmedium existing x Hx) in Hp. rewrite Hjoin in Hp.
    destruct (nonempty (columns cond)); [|inversion Hp].
    apply list_elem_of_singleton in Hp. exact Hp.
  - intros Hrel st. rewrite (visit_run set_order DB pg_indexes), Hrel.
    unfold node_advice. rewrite Hscan, Hjoin, sort_advice_spec, Hrel, andb_false_r.
    simpl. rewrite app_nil_r. reflexivity.
Qed.

(** What [set] keeps of the matches: nothing that was not matched. *)
Hypothesis set_order_sound : forall l x, x ∈ set_order l -> x ∈ l.


Lemma columns_need_operator (filter_cond : string) :
  Forall (fun op => contains filter_cond op = false) Re.operators ->
  columns filter_cond = [].
Proof.
  intros Hops. destruct (columns filter_cond) as [|column l] eqn:Hcols; [reflexivity|].
  assert (Hin : column ∈ columns filter_cond) by (rewrite Hcols; constructor).
  unfold extract_columns_from_filter in Hin.
  destruct filter_cond as [|c f]; [inversion Hin|].
  apply set_order_sound, scan_spec in Hin as (before & spaces & op & after & Hs & _ & _ & _ & Hop).
  rewrite Forall_forall in Hops. specialize (Hops op Hop).
  rewrite Hs in Hops.
  replace (before +:+ column +:+ spaces +:+ op +:+ after)
    with ((before +:+ column +:+ spaces) +:+ op +:+ after) in Hops.
  - rewrite contains_middle in Hops. discriminate.
  - rewrite !append_assoc. reflexivity.
Qed.

(** X5: a "Seq Scan" node whose filter holds none of the operators of
    the pattern (IS NULL, IN, BETWEEN and the like) and which has no
    sort key gets no advice, indexed or not: the visit leaves the list of
    recommendations as it was. *)
Theorem filter_without_operator_gets_no_advice (node : PlanNode) (cond : string)
    (st : State DB) :
  Node_Type node = Some "Seq Scan" ->
  Filter node = Some cond -> cond <> EmptyString ->
  Forall (fun op => contains cond op = false) Re.operators ->
  Sort_Key node = None ->
  recommendations (visit node st).1 = recommendations st.
Proof.
  intros Hnt Hf Hne Hops Hsk.
  assert (Hnone : forall existing, node_advice set_order existing node = []).
  { intros existing. rewrite (node_advice_seq_scan set_order existing node Hnt).
    rewrite sort_advice_spec, Hsk. simpl. rewrite app_nil_r.
    unfold seq_scan_advice. rewrite Hf. simpl held.
    rewrite (columns_need_operator cond Hops). simpl.
    destruct (_ && _); [|reflexivity]. destruct cond; [contradiction | reflexivity]. }
  rewrite (visit_run set_order DB pg_indexes).
  destruct (truthy (Relation_Name node)); cbv zeta.
  - destruct (seen_tables st !! held (Relation_Name node)).
    + rewrite Hnone. simpl. apply app_nil_r.
    + destruct ((pg_indexes (held (Relation_Name node)) (db st)).2); [|reflexivity].
      rewrite Hnone. simpl. apply app_nil_r.
  - rewrite Hnone. simpl. apply app_nil_r.
Qed.

End AdvisorWalk.

(** ** The advisor on further sample plans *)

(** A nested loop over two scans of t and one of u. *)
Definition scans_of_t_and_u : PlanNode :=
  mkPlanNode (Some "Nested Loop") None None None None None None
    (Some "(o.customer_id = c.id)") None
    [ab_scan; scan (Some "t") None; scan (Some "u") None].

(** A scan of t in the order of a and b. *)
Definition sorted_scan : PlanNode :=
  mkPlanNode (Some "Index Scan") None None None None (Some "t") None None
    (Some ["a"; "b DESC"]) [].

(** A row of the sweep for unused indexes. *)
Definition old_index : UnusedRow := ("public", "t", "t_old_idx", "8192 kB", 0).

Lemma remove_dups_sound (l : list string) (x : string) : x ∈ remove_dups l -> x ∈ l.
Proof. apply elem_of_remove_dups. Qed.

Lemma fetches_follow_the_plan_witness :
  NoDup (fetched (trace (rec_query.recommend_indexes remove_dups unit
                           (answering (Ok scans_of_t_and_u)) (answering (Ok []))
                           (answering (Ok [])) "q" tt).1))
  /\ "u" ∈ fetched (trace (rec_query.recommend_indexes remove_dups unit
                             (answering (Ok scans_of_t_and_u)) (answering (Ok []))
                             (answering (Ok [])) "q" tt).1).
Proof.
  destruct (fetches_follow_the_plan remove_dups unit
              (answering (Ok scans_of_t_and_u)) (answering (Ok [])) (answering (Ok []))
              "q" tt scans_of_t_and_u eq_refl) as (_ & Hnd & Hall).
  split; [exact Hnd|]. eapply Hall; [vm_compute; reflexivity|].
  vm_compute. repeat constructor.
Defined.

Lemma drop_index_advice_comes_last_witness :
  exists advice unused earlier,
    [scan_filter_recommendation remove_dups "t" "a = 5 AND b = 3";
     drop_index_recommendation old_index]
    = (advice ++ map drop_index_recommendation unused)%list
    /\ Forall (fun r => type r = "add_index" /\ priority r ∈ ["high"; "medium"; "low"]) advice
    /\ Forall (fun r => type r = "drop_index" /\ priority r = "low")
         (map drop_index_recommendation unused)
    /\ trace (rec_query.recommend_indexes remove_dups unit
                (answering (Ok ab_scan)) (answering (Ok [])) (answering (Ok [old_index]))
                "q" tt).1
       = (earlier ++ [FetchedUnused 1 (Ok unused)])%list.
Proof.
  apply (drop_index_advice_comes_last remove_dups unit
           (answering (Ok ab_scan)) (answering (Ok [])) (answering (Ok [old_index])) "q" tt).
  vm_compute. reflexivity.
Defined.

Lemma sort_key_rule_witness :
  sort_recommendation "t" ["a"; "b DESC"] ∈ node_advice remove_dups [bare_index_on_a] sorted_scan.
Proof.
  destruct (sort_key_rule remove_dups unit (answering (Ok [])) sorted_scan "t" ["a"; "b DESC"]
              [bare_index_on_a] eq_refl ltac:(discriminate) eq_refl ltac:(discriminate))
    as (_ & Hiff & _).
  apply Hiff. repeat constructor.
Defined.

Lemma nested_loop_rule_witness :
  join_recommendation remove_dups "(o.customer_id = c.id)"
  ∈ node_advice remove_dups [] scans_of_t_and_u.
Proof.
  destruct (nested_loop_rule remove_dups unit (answering (Ok [])) scans_of_t_and_u
              "(o.customer_id = c.id)" eq_refl eq_refl ltac:(discriminate))
    as (Hiff & _).
  apply Hiff. vm_compute. discriminate.
Defined.


Lemma filter_without_operator_gets_no_advice_witness :
  recommendations
    (rec_query.visit remove_dups unit (answering (Ok [])) flag_scan (mkState tt [] [] ∅)).1
  = [].
Proof.
  apply (filter_without_operator_gets_no_advice remove_dups unit (answering (Ok []))
           remove_dups_sound flag_scan "(flag IS NULL)" (mkState tt [] [] ∅));
    try reflexivity; [discriminate|].
  repeat (constructor; [reflexivity|]). constructor.
Defined.

(** * The health check *)

Import rec_db.

Section HealthFacts.

Local Open Scope list_scope.

Variable World : Type.
Variable pg_settings : World -> World * result (list SettingRow).
Variable vacuum_stats : World -> World * result (list VacuumRow).
Variable table_sizes : World -> World * result (list SizeRow).
Variable bloat_stats : World -> World * result (list BloatRow).
Variable index_stats : World -> World * result (list IndexUsageRow).
Variable now : World -> World * Z.
Variable repr_float : float -> string.
Variable str_moment : option Z -> string.

Local Abbreviation analyze_pg_settings := (rec_db.analyze_pg_settings World pg_settings repr_float).
Local Abbreviation analyze_autovacuum :=
  (rec_db.analyze_autovacuum World vacuum_stats now repr_float).
Local Abbreviation analyze_table_structure :=
  (rec_db.analyze_table_structure World table_sizes repr_float).
Local Abbreviation analyze_table_bloat :=
  (rec_db.analyze_table_bloat World bloat_stats repr_float).
Local Abbreviation analyze_index_usage := (rec_db.analyze_index_usage World index_stats).
Local Abbreviation health_check :=
  (rec_db.health_check World pg_settings vacuum_stats table_sizes bloat_stats index_stats now
     repr_float str_moment).

(** ** Specifications *)

(** The dict is a piece of advice on a parameter: its keys are
    ["type"], ["priority"] and ["message"]. *)
Definition is_parameter_advice (d : Dict) : Prop :=
  exists priority message,
    d = parameter_advice priority message /\ priority ∈ ["high"; "medium"; "low"].

(** The dict is the advice to partition a table: its keys are
    ["type"], ["table"], ["priority"] and ["message"]. *)
Definition is_partition_advice (d : Dict) : Prop :=
  exists table threshold, d = partition_advice repr_float table threshold.

(** The dict is the report on a table or an index: it has the keys
    ["schema"], ["table"] and ["recommendations"]. *)
Definition is_report (d : Dict) : Prop :=
  is_Some (recommendations d)
  /\ (exists schema, getitem d "schema" = Ok (Text schema))
  /\ (exists table, getitem d "table" = Ok (Text table)).

(** ** Facts *)

Lemma settings_recommendations_shape (params : gmap string (string * option string * string))
    (ram_gb : option num) (recs : list Dict) :
  settings_recommendations repr_float params ram_gb = Ok recs ->
  Forall is_parameter_advice recs /\ (length recs <= 4)%nat
  /\ (given ram_gb = false ->
      Forall (fun d => forall pct, d <> parameter_advice "medium" (shared_buffers_message repr_float pct))
        recs).
Proof.
  assert (Hp : forall priority message, priority ∈ ["high"; "medium"; "low"] ->
                 is_parameter_advice (parameter_advice priority message)).
  { intros priority message H. exists priority, message. auto. }
  unfold settings_recommendations. intros H.
  apply bind_Ok in H as (r1 & H1 & H). apply bind_Ok in H as (r2 & H2 & H).
  apply bind_Ok in H as (r3 & H3 & H). cbv zeta in H.
  assert (Hr1 : r1 = [] \/ (given ram_gb = true /\ exists pct,
                  r1 = [parameter_advice "medium" (shared_buffers_message repr_float pct)])).
  { destruct (params !! "shared_buffers") as [[[setting unit] context]|];
      [|injection H1 as <-; auto].
    apply bind_Ok in H1 as (sb & _ & H1). cbv zeta in H1.
    destruct (given ram_gb); [|injection H1 as <-; auto].
    apply bind_Ok in H1 as (ram & _ & H1). apply bind_Ok in H1 as (ratio & _ & H1).
    destruct (Py.lt ratio (Float quarter)); [|injection H1 as <-; auto].
    apply bind_Ok in H1 as (pct & _ & [= <-]). right. eauto. }
  assert (Hr2 : r2 = r1 \/ exists mb,
                  r2 = r1 ++ [parameter_advice "medium" (work_mem_low_message mb)]).
  { destruct (params !! "work_mem") as [[[setting unit] context]|];
      [|injection H2 as <-; auto].
    apply bind_Ok in H2 as (kb & _ & H2).
    destruct (kb <? 4096); [|injection H2 as <-; auto].
    apply bind_Ok in H2 as (mb & _ & [= <-]). right. eauto. }
  assert (Hr3 : r3 = r2 \/ exists mb,
                  r3 = r2 ++ [parameter_advice "low" (maintenance_work_mem_message mb)]).
  { destruct (params !! "maintenance_work_mem") as [[[setting unit] context]|];
      [|injection H3 as <-; auto].
    apply bind_Ok in H3 as (kb & _ & H3).
    destruct (kb <? 65536); [|injection H3 as <-; auto].
    apply bind_Ok in H3 as (mb & _ & [= <-]). right. eauto. }
  assert (Hhigh : is_parameter_advice (parameter_advice "high" autovacuum_off_message))
    by (apply Hp; repeat constructor).
  assert (Hmed : forall m, is_parameter_advice (parameter_advice "medium" m))
    by (intros m; apply Hp; repeat constructor).
  assert (Hlow : forall m, is_parameter_advice (parameter_advice "low" m))
    by (intros m; apply Hp; repeat constructor).
  clear H1 H2 H3.
  assert (Hr4 : recs = r3 \/ recs = r3 ++ [parameter_advice "high" autovacuum_off_message]).
  { injection H as <-.
    destruct (params !! "autovacuum") as [[[setting unit] context]|]; [|auto].
    match goal with |- context [if ?b then _ else _] => destruct b end; auto. }
  clear H.
  split; [|split].
  - destruct Hr1 as [->|[_ [pct ->]]], Hr2 as [->|[mb2 ->]], Hr3 as [->|[mb3 ->]],
      Hr4 as [->| ->];
      repeat (apply Forall_app; split); repeat constructor; auto.
  - destruct Hr1 as [->|[_ [pct ->]]], Hr2 as [->|[mb2 ->]], Hr3 as [->|[mb3 ->]],
      Hr4 as [->| ->]; rewrite ?length_app; simpl; lia.
  - intros Hgiven. destruct Hr1 as [->|[Hg _]]; [|congruence].
    destruct Hr2 as [->|[mb2 ->]], Hr3 as [->|[mb3 ->]], Hr4 as [->| ->];
      repeat (apply Forall_app; split); repeat constructor; intros pct' Heq;
      injection Heq; intros; discriminate.
Qed.


#[local] Existing Instance rec_db.Run_bind.
#[local] Existing Instance rec_db.Run_ret.

Local Abbreviation Run := (rec_db.Run World).

Lemma run_bind {A B} (m : Run A) (k : A -> Run B) (st : State World) :
  (x ← m; k x) st =
  match m st with
  | (st', Ok a) => k a st'
  | (st', Raise e) => (st', Raise e)
  end.
Proof. reflexivity. Qed.

Lemma run_bind_Ok {A B} (m : Run A) (k : A -> Run B) (st st' : State World) (b : B) :
  (x ← m; k x) st = (st', Ok b) <->
  exists a st1, m st = (st1, Ok a) /\ k a st1 = (st', Ok b).
Proof.
  rewrite run_bind. destruct (m st) as [st1 [a|e]]; split.
  - intros H. exists a, st1. auto.
  - intros (a' & st1' & [= <- <-] & H). exact H.
  - discriminate.
  - intros (a' & st1' & [=] & _).
Qed.

Lemma run_Ok {A} (r : result A) (st st' : State World) (a : A) :
  run r st = (st', Ok a) <-> r = Ok a /\ st' = st.
Proof.
  unfold rec_db.run. split.
  - intros [= <- ->]. auto.
  - intros [-> ->]. reflexivity.
Qed.

Ltac unrun H :=
  repeat (cbv beta zeta in H;
          match type of H with
          | mbind _ _ _ = (_, Ok _) => apply run_bind_Ok in H as (? & ? & ? & H)
          end).

Lemma for_rows_shape {A} (body : A -> Run Dict) (P : Dict -> Prop) :
  (forall x st st' d, body x st = (st', Ok d) -> P d) ->
  forall xs st st' ds, for_rows body xs st = (st', Ok ds) -> Forall P ds.
Proof.
  intros Hbody. induction xs as [|x xs IH]; intros st st' ds H.
  - injection H as _ <-. constructor.
  - simpl in H. apply run_bind_Ok in H as (d & st1 & Hd & H).
    apply run_bind_Ok in H as (ds' & st2 & Hds & H). injection H as _ <-.
    constructor; [exact (Hbody _ _ _ _ Hd) | exact (IH _ _ _ Hds)].
Qed.

(** A loop that returns has returned for every item. *)
Lemma for_each_returns {A} (body : A -> Run unit) (xs : list A) :
  forall st st', for_each body xs st = (st', Ok tt) ->
    Forall (fun x => exists st1 st2, body x st1 = (st2, Ok tt)) xs.
Proof.
  induction xs as [|x xs IH]; intros st st' H; [constructor|].
  simpl in H. apply run_bind_Ok in H as ([] & st1 & Hx & H).
  constructor; [eauto | exact (IH _ _ H)].
Qed.

Lemma report_shape (schema table : string) (rest : list (string * scalar))
    (recs : list string) :
  is_report {| fields := ("schema", Text schema) :: ("table", Text table) :: rest;
               recommendations := Some recs |}.
Proof. split; [eexists; reflexivity|]. split; eexists; reflexivity. Qed.

Lemma vacuum_report_shape (dead_tup_threshold analyze_threshold max_age : num)
    (row : VacuumRow) (st st' : State World) (d : Dict) :
  vacuum_report World now repr_float dead_tup_threshold analyze_threshold max_age row st
  = (st', Ok d) ->
  is_report d.
Proof.
  destruct row as [[[[[[[relid schema] table] live] dead] modified] last_auto] last_analyze].
  unfold vacuum_report. intros H. unrun H. injection H as _ <-. apply report_shape.
Qed.

Lemma bloat_report_shape (threshold : num) (row : BloatRow) (d : Dict) :
  bloat_report repr_float threshold row = Ok d -> is_report d.
Proof.
  destruct row as [[[[schema table] live] dead] total_bytes].
  unfold bloat_report. intros H.
  apply bind_Ok in H as (? & _ & H). apply bind_Ok in H as (? & _ & H).
  apply bind_Ok in H as (? & _ & H). apply bind_Ok in H as (? & _ & H).
  injection H as <-. apply report_shape.
Qed.

Lemma index_report_shape (threshold : num) (row : IndexUsageRow) (d : Dict) :
  index_report threshold row = Ok d -> is_report d.
Proof.
  destruct row as [[[[[[schema table] index] idx_scan] tup_read] tup_fetch] size].
  unfold index_report. intros H.
  apply bind_Ok in H as (? & _ & H). apply bind_Ok in H as (? & _ & H).
  injection H as <-. apply report_shape.
Qed.

Lemma analyze_pg_settings_shape (ram_gb : option num) (st st' : State World) (ds : list Dict) :
  analyze_pg_settings ram_gb st = (st', Ok ds) ->
  Forall is_parameter_advice ds /\ (length ds <= 4)%nat
  /\ (given ram_gb = false ->
      Forall (fun d => forall pct,
                d <> parameter_advice "medium" (shared_buffers_message repr_float pct)) ds).
Proof.
  unfold rec_db.analyze_pg_settings. intros H.
  apply run_bind_Ok in H as (rows & st1 & _ & H). apply run_Ok in H as [H _].
  exact (settings_recommendations_shape _ _ _ H).
Qed.

Lemma analyze_autovacuum_shape (dead_tup_threshold analyze_threshold max_age : num)
    (st st' : State World) (ds : list Dict) :
  analyze_autovacuum dead_tup_threshold analyze_threshold max_age st = (st', Ok ds) ->
  Forall is_report ds.
Proof.
  unfold rec_db.analyze_autovacuum. intros H.
  apply run_bind_Ok in H as (rows & st1 & _ & H).
  eapply for_rows_shape; [|exact H]. intros x s s' d. apply vacuum_report_shape.
Qed.

Lemma analyze_table_bloat_shape (threshold : num) (st st' : State World) (ds : list Dict) :
  analyze_table_bloat threshold st = (st', Ok ds) -> Forall is_report ds.
Proof.
  unfold rec_db.analyze_table_bloat. intros H.
  apply run_bind_Ok in H as (rows & st1 & _ & H).
  eapply for_rows_shape; [|exact H]. intros x s s' d Hd.
  apply run_Ok in Hd as [Hd _]. exact (bloat_report_shape _ _ _ Hd).
Qed.

Lemma analyze_index_usage_shape (threshold : num) (st st' : State World) (ds : list Dict) :
  analyze_index_usage threshold st = (st', Ok ds) -> Forall is_report ds.
Proof.
  unfold rec_db.analyze_index_usage. intros H.
  apply run_bind_Ok in H as (rows & st1 & _ & H).
  eapply for_rows_shape; [|exact H]. intros x s s' d Hd.
  apply run_Ok in Hd as [Hd _]. exact (index_report_shape _ _ _ Hd).
Qed.

Lemma partition_loop_shape (threshold : num) (rows : list SizeRow) :
  forall (acc : result (list Dict)) (recs : list Dict),
    foldl (fun recommendations '(table, total_size) =>
             recommendations ← recommendations;
             size_mb ← int_truediv total_size (1024 * 1024);
             if Py.gt (Float size_mb) threshold
             then Ok (append recommendations (partition_advice repr_float table threshold))
             else Ok recommendations)
          acc rows = Ok recs ->
    exists acc', acc = Ok acc' /\ (Forall is_partition_advice acc' -> Forall is_partition_advice recs).
Proof.
  induction rows as [|[table total_size] rows IH]; intros acc recs H.
  - exists recs. auto.
  - simpl in H. apply IH in H as (acc1 & H1 & Hrecs).
    apply bind_Ok in H1 as (acc' & -> & H1). apply bind_Ok in H1 as (size_mb & _ & H1).
    exists acc'. split; [reflexivity|]. intros Hacc. apply Hrecs.
    destruct (Py.gt (Float size_mb) threshold); injection H1 as <-; [|exact Hacc].
    apply Forall_app. split; [exact Hacc|]. constructor; [|constructor].
    exists table, threshold. reflexivity.
Qed.

Lemma analyze_table_structure_shape (threshold : num) (st st' : State World) (ds : list Dict) :
  analyze_table_structure threshold st = (st', Ok ds) -> Forall is_partition_advice ds.
Proof.
  unfold rec_db.analyze_table_structure. intros H.
  apply run_bind_Ok in H as (rows & st1 & _ & H). apply run_Ok in H as [H _].
  apply partition_loop_shape in H as (acc & [= <-] & H). apply H. constructor.
Qed.

Lemma parameter_advice_keys (d : Dict) :
  is_parameter_advice d ->
  getitem d "type" = Ok (Text "parameter")
  /\ (exists priority, getitem d "priority" = Ok (Text priority))
  /\ (exists message, getitem d "message" = Ok (Text message))
  /\ getitem d "recommendation" = Raise KeyError
  /\ getitem_recommendations d = Raise KeyError.
Proof.
  intros (priority & message & -> & _).
  split; [reflexivity|]. split; [eexists; reflexivity|]. split; [eexists; reflexivity|].
  split; reflexivity.
Qed.

Lemma partition_advice_keys (d : Dict) :
  is_partition_advice d ->
  getitem d "schema" = Raise KeyError /\ getitem_recommendations d = Raise KeyError.
Proof. intros (table & threshold & ->). split; reflexivity. Qed.

(** ** The properties *)

(** X16: [analyze_pg_settings] returns at most four dicts, each a piece
    of advice with the keys "type" (the string "parameter"), "priority"
    and "message" and no other; without a RAM size (the way the command
    line calls it) the advice on shared_buffers is never among them. *)
Theorem parameter_advice_shape (ram_gb : option num) (st : State World) (ds : list Dict) :
  (analyze_pg_settings ram_gb st).2 = Ok ds ->
  (length ds <= 4)%nat
  /\ Forall (fun d =>
               is_parameter_advice d
               /\ getitem d "type" = Ok (Text "parameter")
               /\ (exists message, getitem d "message" = Ok (Text message))
               /\ getitem d "recommendation" = Raise KeyError) ds
  /\ (given ram_gb = false ->
      Forall (fun d => forall pct,
                d <> parameter_advice "medium" (shared_buffers_message repr_float pct)) ds).
Proof.
  destruct (analyze_pg_settings ram_gb st) as [st1 r] eqn:Hrun. simpl. intros ->.
  destruct (analyze_pg_settings_shape _ _ _ _ Hrun) as (Hshape & Hlen & Hram).
  split; [exact Hlen|]. split; [|exact Hram].
  eapply Forall_impl; [exact Hshape|]. intros d Hd.
  destruct (parameter_advice_keys d Hd) as (Htype & _ & Hmessage & Hmissing & _). auto.
Qed.

(** X17: in verbose mode, its default, [health_check] prints every
    piece of advice of [analyze_pg_settings] by its key
    "recommendation", which these dicts do not have: as soon as there
    is one piece of advice on a parameter the check raises KeyError,
    right after the heading of the first section and before any other
    analysis runs. *)
Theorem parameter_advice_ends_verbose_check (ram_gb : option num) (st st1 : State World)
    (d : Dict) (ds : list Dict) :
  analyze_pg_settings ram_gb st = (st1, Ok (d :: ds)) ->
  health_check ram_gb true st
  = (mkState (world st1) (console st1 ++ [newline +:+ "⚙️ Настройки PostgreSQL:"]),
     Raise KeyError).
Proof.
  intros Hrun. destruct (analyze_pg_settings_shape _ _ _ _ Hrun) as (Hshape & _ & _).
  inversion Hshape as [|? ? (priority & message & -> & _) _]; subst.
  unfold rec_db.health_check. cbv zeta. rewrite run_bind, Hrun. reflexivity.
Qed.

(** X18: a verbose [health_check] that returns has found no advice on
    parameters and no table to partition: the dicts of
    [analyze_table_structure] have no key "schema", which the printing
    reads, so one table over the threshold ends the check with
    KeyError as well. What a verbose check returns are the reports of
    the other three analyses alone. *)
Theorem verbose_check_returns_reports_only (ram_gb : option num) (st : State World)
    (results : list Dict) :
  (health_check ram_gb true st).2 = Ok results ->
  (analyze_pg_settings ram_gb st).2 = Ok []
  /\ Forall is_report results
  /\ Forall (fun d => ~ is_parameter_advice d /\ ~ is_partition_advice d) results.
Proof.
  destruct (health_check ram_gb true st) as [st' r] eqn:Hrun. simpl. intros ->.
  unfold rec_db.health_check, when in Hrun. cbv zeta in Hrun.
  apply run_bind_Ok in Hrun as (settings & st1 & Hsettings & Hrun).
  apply run_bind_Ok in Hrun as ([] & st2 & Hprint1 & Hrun).
  apply run_bind_Ok in Hrun as (autovac & st3 & Hautovac & Hrun).
  apply run_bind_Ok in Hrun as ([] & st4 & _ & Hrun).
  apply run_bind_Ok in Hrun as (tbl_struct & st5 & Hstruct & Hrun).
  apply run_bind_Ok in Hrun as ([] & st6 & Hprint3 & Hrun).
  apply run_bind_Ok in Hrun as (tbl_bloat & st7 & Hbloat & Hrun).
  apply run_bind_Ok in Hrun as ([] & st8 & _ & Hrun).
  apply run_bind_Ok in Hrun as (idx_usage & st9 & Hidx & Hrun).
  apply run_bind_Ok in Hrun as ([] & st10 & _ & Hrun).
  injection Hrun as _ <-.
  assert (settings = []) as ->.
  { apply run_bind_Ok in Hprint1 as ([] & s & _ & Hloop).
    apply for_each_returns in Hloop.
    destruct (analyze_pg_settings_shape _ _ _ _ Hsettings) as (Hshape & _ & _).
    destruct settings as [|d ds]; [reflexivity|].
    inversion Hloop as [|? ? (s1 & s2 & Hd) _]; subst.
    inversion Hshape as [|? ? Hadvice _]; subst.
    destruct (parameter_advice_keys d Hadvice) as (_ & _ & _ & Hmissing & _).
    rewrite run_bind in Hd. unfold rec_db.run in Hd. rewrite Hmissing in Hd. discriminate. }
  assert (tbl_struct = []) as ->.
  { apply run_bind_Ok in Hprint3 as ([] & s & _ & Hloop).
    apply run_bind_Ok in Hloop as ([] & s' & _ & Hloop).
    apply for_each_returns in Hloop.
    pose proof (analyze_table_structure_shape _ _ _ _ Hstruct) as Hshape.
    destruct tbl_struct as [|d ds]; [reflexivity|].
    inversion Hloop as [|? ? (s1 & s2 & Hd) _]; subst.
    inversion Hshape as [|? ? Hadvice _]; subst.
    destruct (partition_advice_keys d Hadvice) as (Hmissing & _).
    unfold print_table_entry in Hd. rewrite run_bind in Hd. unfold rec_db.run in Hd.
    rewrite Hmissing in Hd. discriminate. }
  assert (Hreports : Forall is_report ((((([] ++ []) ++ autovac) ++ []) ++ tbl_bloat) ++ idx_usage)).
  { rewrite app_nil_r. simpl.
    apply Forall_app. split; [apply Forall_app; split|].
    - exact (analyze_autovacuum_shape _ _ _ _ _ _ Hautovac).
    - exact (analyze_table_bloat_shape _ _ _ _ Hbloat).
    - exact (analyze_index_usage_shape _ _ _ _ Hidx). }
  split; [rewrite Hsettings; reflexivity|]. split; [exact Hreports|].
  eapply Forall_impl; [exact Hreports|]. intros d ([recs Hrecs] & _ & _). split.
  - intros (priority & message & -> & _). discriminate.
  - intros (table & threshold & ->). discriminate.
Qed.

(** The figure is an int that a float holds exactly. *)
Definition small (z : Z) : Prop := Z.abs z < 2 ^ 53.

Lemma share_returns (a total : Z) :
  small a -> small total ->
  exists q, share a total = Ok q /\ (total <= 0 -> q = Int 0).
Proof.
  intros Ha Ht. unfold share. destruct (0 <? total) eqn:Hpos.
  - apply Z.ltb_lt in Hpos. unfold truediv, int_truediv.
    replace (total =? 0) with false by (symmetry; apply Z.eqb_neq; lia).
    destruct (a =? 0); [eexists; split; [reflexivity | lia]|].
    replace (Z.abs a <? 2 ^ 53) with true by (symmetry; apply Z.ltb_lt; exact Ha).
    replace (Z.abs total <? 2 ^ 53) with true by (symmetry; apply Z.ltb_lt; exact Ht).
    eexists. split; [reflexivity | lia].
  - exists (Int 0). auto.
Qed.

Lemma percent_returns (a : num) : exists p, percent a = Ok p.
Proof. destruct a; eexists; reflexivity. Qed.

Lemma int_truediv_small (a b : Z) :
  small a -> small b -> b <> 0 -> exists q, int_truediv a b = Ok q.
Proof.
  intros Ha Hb Hne. unfold int_truediv.
  replace (b =? 0) with false by (symmetry; apply Z.eqb_neq; exact Hne).
  destruct (a =? 0); [eexists; reflexivity|].
  replace (Z.abs a <? 2 ^ 53) with true by (symmetry; apply Z.ltb_lt; exact Ha).
  replace (Z.abs b <? 2 ^ 53) with true by (symmetry; apply Z.ltb_lt; exact Hb).
  eexists. reflexivity.
Qed.

(** The figures of a row of the bloat statement are small. *)
Definition small_bloat_row (row : BloatRow) : Prop :=
  let '(schema, table, live, dead, total_bytes) := row in
  small dead /\ small (live + dead) /\ small total_bytes.

(** What the report says of its row. *)
Definition reports_bloat_of (threshold : num) (row : BloatRow) (d : Dict) : Prop :=
  let '(schema, table, live, dead, total_bytes) := row in
  getitem d "schema" = Ok (Text schema)
  /\ getitem d "table" = Ok (Text table)
  /\ (exists size_mb, int_truediv total_bytes (1024 * 1024) = Ok size_mb
                      /\ getitem d "size_mb" = Ok (Number (Float (round_float 2 size_mb))))
  /\ (live + dead <= 0 ->
      getitem d "bloat_pct" = Ok (Number (Int 0))
      /\ (Py.gt (Int 0) threshold = false -> recommendations d = Some [])).

Lemma bloat_report_returns (threshold : num) (row : BloatRow) :
  small_bloat_row row ->
  exists d, bloat_report repr_float threshold row = Ok d /\ reports_bloat_of threshold row d.
Proof.
  destruct row as [[[[schema table] live] dead] total_bytes]. intros (Hdead & Htotal & Hbytes).
  unfold bloat_report.
  destruct (share_returns dead (live + dead) Hdead Htotal) as (q & Hq & Hzero).
  destruct (int_truediv_small total_bytes (1024 * 1024) Hbytes) as [size_mb Hsize];
    [reflexivity | discriminate|].
  destruct (percent_returns q) as [pct Hpct].
  rewrite Hq, bind_Ok_l. cbv zeta.
  assert (Hrecs : exists recs,
            (if Py.gt q threshold
             then pct ← percent q; Ok (append [] (bloat_message repr_float pct))
             else Ok []) = Ok recs
            /\ (q = Int 0 -> Py.gt (Int 0) threshold = false -> recs = [])).
  { destruct (Py.gt q threshold) eqn:Hgt.
    - rewrite Hpct, bind_Ok_l. eexists. split; [reflexivity|]. intros -> H. congruence.
    - eexists. split; [reflexivity | auto]. }
  destruct Hrecs as (recs & Hrecs & Hnone).
  rewrite Hrecs, bind_Ok_l, Hpct, bind_Ok_l, Hsize, bind_Ok_l.
  eexists. split; [reflexivity|].
  split; [reflexivity|]. split; [reflexivity|]. split; [exists size_mb; split; [exact Hsize | reflexivity]|].
  intros Hempty. specialize (Hzero Hempty). subst q.
  injection Hpct as <-. split; [reflexivity|]. intros Hgt. rewrite (Hnone eq_refl Hgt). reflexivity.
Qed.

Lemma for_rows_returns {A} (body : A -> result Dict) (Q : A -> Dict -> Prop) (xs : list A) :
  Forall (fun x => exists d, body x = Ok d /\ Q x d) xs ->
  forall st : State World, exists ds,
    for_rows (fun x => run (body x)) xs st = (st, Ok ds) /\ Forall2 Q xs ds.
Proof.
  induction 1 as [|x xs (d & Hd & HQ) _ IH]; intros st.
  - exists []. split; [reflexivity | constructor].
  - destruct (IH st) as (ds & Hds & HQs). exists (d :: ds). split; [|constructor; assumption].
    simpl. rewrite run_bind. unfold run at 1. rewrite Hd. rewrite run_bind, Hds. reflexivity.
Qed.

(** X20: on rows whose figures are under [2^53], [analyze_table_bloat]
    returns one report for every table, in the order of the rows, with
    the schema, the table and the size in MiB rounded to two decimals;
    the share of dead tuples is not computed for a table with no tuple
    at all, which is reported with bloat 0 and, under a threshold that
    is not negative, no recommendation. *)
Theorem table_bloat_reports (threshold : num) (st : State World) (rows : list BloatRow) :
  (bloat_stats (world st)).2 = Ok rows ->
  Forall small_bloat_row rows ->
  exists ds,
    (analyze_table_bloat threshold st).2 = Ok ds
    /\ Forall2 (reports_bloat_of threshold) rows ds.
Proof.
  intros Hrows Hsmall. unfold rec_db.analyze_table_bloat. rewrite run_bind.
  unfold fetchall at 1. destruct (bloat_stats (world st)) as [w answer]. simpl in Hrows. subst.
  destruct (for_rows_returns (bloat_report repr_float threshold) (reports_bloat_of threshold) rows)
    with (st := mkState w (console st)) as (ds & Hds & HQ).
  { eapply Forall_impl; [exact Hsmall|]. intros row. apply bloat_report_returns. }
  exists ds. rewrite Hds. split; [reflexivity | exact HQ].
Qed.

(** X21: a table that was never autovacuumed, its last_autovacuum being
    NULL, is never told that autovacuum has not run: whatever the clock
    says, the recommendations of its report are those of the dead-tuple
    rule and of the ANALYZE rule alone. *)
Theorem never_vacuumed_table_gets_no_age_warning (dead_tup_threshold analyze_threshold
    max_autovacuum_age_hours : num) (relid : Z) (schema table : string)
    (live dead modified : Z) (last_analyze : option Z) (st st' : State World) (d : Dict) :
  vacuum_report World now repr_float dead_tup_threshold analyze_threshold
    max_autovacuum_age_hours
    (relid, schema, table, live, dead, modified, None, last_analyze) st = (st', Ok d) ->
  exists dead_pct analyze_pct dead_percent analyze_percent,
    share dead (live + dead) = Ok dead_pct
    /\ share modified (live + dead) = Ok analyze_pct
    /\ percent dead_pct = Ok dead_percent
    /\ percent analyze_pct = Ok analyze_percent
    /\ recommendations d
       = Some ((if Py.gt dead_pct dead_tup_threshold
                then [dead_tuples_message repr_float dead_percent] else [])
               ++ (if Py.gt analyze_pct analyze_threshold
                   then [analyze_due_message repr_float analyze_percent] else []))
    /\ getitem d "last_autovacuum" = Ok (Moment None)
    /\ st' = mkState (now (world st)).1 (console st).
Proof.
  unfold vacuum_report. intros H.
  apply run_bind_Ok in H as (dead_pct & s1 & H1 & H). apply run_Ok in H1 as [Hdead ->].
  apply run_bind_Ok in H as (analyze_pct & s2 & H2 & H). apply run_Ok in H2 as [Hanalyze ->].
  cbv zeta in H.
  apply run_bind_Ok in H as (t & s3 & Hclock & H).
  apply run_bind_Ok in H as (recs1 & s4 & H4 & H). apply run_Ok in H4 as [Hrecs1 ->].
  apply run_bind_Ok in H as (recs2 & s5 & H5 & H). apply run_Ok in H5 as [[= <-] ->].
  apply run_bind_Ok in H as (recs3 & s6 & H6 & H). apply run_Ok in H6 as [Hrecs3 ->].
  apply run_bind_Ok in H as (dead_percent & s7 & H7 & H). apply run_Ok in H7 as [Hdp ->].
  apply run_bind_Ok in H as (analyze_percent & s8 & H8 & H). apply run_Ok in H8 as [Hap ->].
  injection H as <- <-.
  exists dead_pct, analyze_pct, dead_percent, analyze_percent.
  split; [exact Hdead|]. split; [exact Hanalyze|]. split; [exact Hdp|]. split; [exact Hap|].
  split; [|split; [reflexivity|]].
  - cbn [recommendations]. f_equal.
    destruct (Py.gt dead_pct dead_tup_threshold).
    + rewrite Hdp, bind_Ok_l in Hrecs1. injection Hrecs1 as <-.
      destruct (Py.gt analyze_pct analyze_threshold).
      * rewrite Hap, bind_Ok_l in Hrecs3. injection Hrecs3 as <-. reflexivity.
      * injection Hrecs3 as <-. reflexivity.
    + injection Hrecs1 as <-.
      destruct (Py.gt analyze_pct analyze_threshold).
      * rewrite Hap, bind_Ok_l in Hrecs3. injection Hrecs3 as <-. reflexivity.
      * injection Hrecs3 as <-. reflexivity.
  - unfold read_clock in Hclock. destruct (now (world st)) as [w t']. injection Hclock as <- _.
    reflexivity.
Qed.

End HealthFacts.

(** ** The health check on sample servers *)

(** A server with a small work_mem and autovacuum switched off. *)
Definition sample_settings : list SettingRow :=
  [("work_mem", "1024", Some "kB", "user"); ("autovacuum", "off", None, "sighup")].

(** A server with one index that was never scanned. *)
Definition sample_indexes : list IndexUsageRow := [("public", "t", "t_idx", 0, 0, 0, 8192)].

Definition sample_index_report : Dict :=
  {| fields := [("schema", Text "public"); ("table", Text "t"); ("index", Text "t_idx");
                ("size_mb",
                 Number (Float (round_float 2 (fdiv (nearest_float 8192)
                                                 (nearest_float (1024 * 1024))))));
                ("idx_scan", Number (Int 0)); ("idx_tup_read", Number (Int 0));
                ("idx_tup_fetch", Number (Int 0))];
     recommendations := Some [index_unused_message] |}.

(** A world with no state of its own. *)
Definition always {A} (a : A) : unit -> unit * A := fun w => (w, a).

Definition sample_advice : list Dict :=
  [parameter_advice "medium" (work_mem_low_message (nearest_float 1));
   parameter_advice "high" autovacuum_off_message].

Lemma parameter_advice_shape_witness :
  (length sample_advice <= 4)%nat
  /\ Forall (fun d =>
               is_parameter_advice d
               /\ getitem d "type" = Ok (Text "parameter")
               /\ (exists message, getitem d "message" = Ok (Text message))
               /\ getitem d "recommendation" = Raise KeyError) sample_advice
  /\ (given None = false ->
      Forall (fun d => forall pct,
                d <> parameter_advice "medium" (shared_buffers_message (fun _ => "0.0") pct))
        sample_advice).
Proof.
  apply (parameter_advice_shape unit (always (Ok sample_settings)) (fun _ => "0.0") None
           (mkState tt [])).
  vm_compute. reflexivity.
Defined.

Lemma parameter_advice_ends_verbose_check_witness :
  rec_db.health_check unit (always (Ok sample_settings)) (always (Ok [])) (always (Ok []))
    (always (Ok [])) (always (Ok [])) (always 0) (fun _ => "0.0") (fun _ => "None")
    None true (mkState tt [])
  = (mkState tt [newline +:+ "⚙️ Настройки PostgreSQL:"], Raise KeyError).
Proof.
  apply (parameter_advice_ends_verbose_check unit (always (Ok sample_settings))
           (always (Ok [])) (always (Ok [])) (always (Ok [])) (always (Ok [])) (always 0)
           (fun _ => "0.0") (fun _ => "None") None (mkState tt []) (mkState tt [])
           (parameter_advice "medium" (work_mem_low_message (nearest_float 1)))
           [parameter_advice "high" autovacuum_off_message]).
  vm_compute. reflexivity.
Defined.

Lemma verbose_check_returns_reports_only_witness :
  (rec_db.analyze_pg_settings unit (always (Ok [])) (fun _ => "0.0") None (mkState tt [])).2
  = Ok []
  /\ Forall (is_report) [sample_index_report]
  /\ Forall (fun d => ~ is_parameter_advice d /\ ~ is_partition_advice (fun _ => "0.0") d)
       [sample_index_report].
Proof.
  apply (verbose_check_returns_reports_only unit (always (Ok [])) (always (Ok []))
           (always (Ok [])) (always (Ok [])) (always (Ok sample_indexes)) (always 0)
           (fun _ => "0.0") (fun _ => "None") None (mkState tt [])).
  vm_compute. reflexivity.
Defined.

(** A table with no tuple at all. *)
Definition empty_table : BloatRow := ("public", "empty", 0, 0, 8192).

Lemma table_bloat_reports_witness :
  exists ds,
    (rec_db.analyze_table_bloat unit (always (Ok [empty_table])) (fun _ => "0.0")
       default_bloat_threshold (mkState tt [])).2 = Ok ds
    /\ Forall2 (reports_bloat_of default_bloat_threshold) [empty_table] ds.
Proof.
  apply (table_bloat_reports unit (always (Ok [empty_table])) (fun _ => "0.0")
           default_bloat_threshold (mkState tt []) [empty_table]); [reflexivity|].
  constructor; [|constructor]. unfold small_bloat_row, empty_table, small. simpl. lia.
Defined.

(** A table with three dead tuples in ten that was never autovacuumed. *)
Definition never_vacuumed : VacuumRow := (1, "public", "t", 70, 30, 0, None, None).

Lemma never_vacuumed_table_gets_no_age_warning_witness :
  exists d dead_pct analyze_pct dead_percent analyze_percent,
    share 30 (70 + 30) = Ok dead_pct
    /\ share 0 (70 + 30) = Ok analyze_pct
    /\ percent dead_pct = Ok dead_percent
    /\ percent analyze_pct = Ok analyze_percent
    /\ recommendations d
       = Some ((if Py.gt dead_pct default_dead_tup_threshold
                then [dead_tuples_message (fun _ => "30.0") dead_percent] else [])
               ++ (if Py.gt analyze_pct default_analyze_threshold
                   then [analyze_due_message (fun _ => "30.0") analyze_percent] else []))%list
    /\ getitem d "last_autovacuum" = Ok (Moment None)
    /\ mkState tt [] = mkState (always 0 (world (mkState tt []))).1 (console (mkState tt [])).
Proof.
  assert (H : exists d,
            vacuum_report unit (always 0) (fun _ => "30.0") default_dead_tup_threshold
              default_analyze_threshold default_max_autovacuum_age_hours never_vacuumed
              (mkState tt [])
            = (mkState tt [], Ok d))
    by (eexists; vm_compute; reflexivity).
  destruct H as [d H]. exists d.
  exact (never_vacuumed_table_gets_no_age_warning unit (always 0) (fun _ => "30.0")
           default_dead_tup_threshold default_analyze_threshold
           default_max_autovacuum_age_hours 1 "public" "t" 70 30 0 None
           (mkState tt []) (mkState tt []) d H).
Defined.
